(** * GPU partition sweep and latency scatterplots: a shallow embedding

    The two scripts of the repository are embedded as Rocq functions:

    - [scripts/test_granularity.py]: [generate_config], [run_process] and the
      command-line driver ([Granularity]);
    - [scripts/view_scatterplots_eurosys.py]: [convert_to_float],
      [plugin_summary_values] and the file loop of [show_plots]
      ([Scatter]); [scenario_to_distribution], [add_plot_padding],
      [get_marker_styles], [add_scenario_to_plot] and the drawing half of
      [show_plots] ([Plot]); the command-line driver ([Viewer]).

    The scripts are read as Python 3 programs ([run_process] passes
    [encoding] to [subprocess.Popen]).  Python integers are [Z], Python
    strings are [string] (the scripts only compare and concatenate ASCII
    text), Python floats are IEEE 754 binary64 values ([B64]: the exact
    rational a finite float stands for, the two infinities, NaN),
    dictionaries are insertion-ordered association lists ([Dict]), and
    raising, printing and the calls to external programs go through one
    state-and-error monad ([Run.M]).  A float that serves as a
    dictionary key is an object, found by identity or by equality
    ([Scatter.float_object]).  The calls into matplotlib are recorded in
    order with their arguments ([Plot.M]); whether a call returns or
    raises, what the script reads back from matplotlib, and what the
    file system answers, are given ([Plot.matplotlib],
    [Viewer.filesystem]).

    Outside the embedding: [argparse], opening and parsing a result file
    (a file is given with its parsed content), the text [json.dumps]
    produces for a configuration (a configuration is given as the object
    handed to [json.dumps]), the runner process, and what matplotlib
    does with the calls it receives.  Definitions come first, theorems
    after them. *)

From Stdlib Require Import ZArith QArith Qround Qabs Qpower Qreduction.
From Stdlib Require Import List String Ascii Bool Lia Lqa Floats.
From Stdlib Require Import DecimalString DecimalZ.
From Stdlib Require Import Permutation Sorted.
Import ListNotations.

Local Open Scope string_scope.
Local Open Scope Z_scope.

(* ================================================================= *)
(** ** The Python runtime the scripts rely on *)

Module Py.

(** Exceptions the two scripts can raise, directly or through a builtin
    or a library call; the texts of the builtins' messages are left out. *)
Inductive exn : Type :=
| KeyError (key : string)
| IndexError
| ValueError
| TypeError
| NameError (var : string)
| ZeroDivisionError
| OverflowError
| Exception (msg : string)
| SystemExit (code : Z)
| AttributeError (name : string).

Inductive result (A : Type) : Type :=
| Ok (a : A)
| Raise (e : exn).
Arguments Ok {A} a.
Arguments Raise {A} e.

(** [str(n)] and the [%d] conversion of an integer. *)
Definition str (n : Z) : string := NilZero.string_of_int (Z.to_int n).

(** [s.lower()] on ASCII text: the letters [A]..[Z] move to [a]..[z],
    every other byte stays. *)
Definition lower_char (c : ascii) : ascii :=
  let n := nat_of_ascii c in
  if (65 <=? n)%nat && (n <=? 90)%nat then ascii_of_nat (n + 32) else c.

Fixpoint lower (s : string) : string :=
  match s with
  | EmptyString => EmptyString
  | String c s' => String (lower_char c) (lower s')
  end.

(** [s * n]: [n] copies of [s], none when [n <= 0]. *)
Fixpoint repeat_nat (s : string) (n : nat) : string :=
  match n with
  | O => EmptyString
  | S n' => s ++ repeat_nat s n'
  end.

Definition str_mul (s : string) (n : Z) : string := repeat_nat s (Z.to_nat n).

(** Value of one digit character, for bases up to sixteen. *)
Definition digit_value (c : ascii) : option Z :=
  let n := Z.of_nat (nat_of_ascii c) in
  if (48 <=? n) && (n <=? 57) then Some (n - 48)
  else if (97 <=? n) && (n <=? 102) then Some (n - 87)
  else if (65 <=? n) && (n <=? 70) then Some (n - 55)
  else None.

Fixpoint int_digits (base : Z) (s : string) (acc : Z) : option Z :=
  match s with
  | EmptyString => Some acc
  | String c s' =>
      match digit_value c with
      | Some d => if d <? base then int_digits base s' (acc * base + d) else None
      | None => None
      end
  end.

(** The base prefix [int] admits in front of the digits. *)
Definition strip_prefix (base : Z) (s : string) : string :=
  match s with
  | String "0" (String c s') =>
      if ((base =? 16) && (Ascii.eqb c "x" || Ascii.eqb c "X"))
         || ((base =? 2) && (Ascii.eqb c "b" || Ascii.eqb c "B"))
      then s' else s
  | _ => s
  end.

(** [int(s, base)] on an unsigned literal: an optional base prefix and
    at least one digit, anything else is a [ValueError].  (Python also
    accepts a sign, surrounding blanks and single underscores between
    digits; the scripts never build such a literal.) *)
Definition int (s : string) (base : Z) : result Z :=
  match strip_prefix base s with
  | EmptyString => Raise ValueError
  | digits =>
      match int_digits base digits 0 with
      | Some n => Ok n
      | None => Raise ValueError
      end
  end.

Definition hex_digit (d : Z) : ascii :=
  if d <? 10 then ascii_of_nat (Z.to_nat (48 + d)) else ascii_of_nat (Z.to_nat (87 + d)).

(** The hexadecimal digits of [n > 0], most significant first, in front
    of [acc]. *)
Fixpoint hex_digits (fuel : nat) (n : Z) (acc : string) : string :=
  match fuel with
  | O => acc
  | S fuel' =>
      let acc' := String (hex_digit (n mod 16)) acc in
      if n / 16 =? 0 then acc' else hex_digits fuel' (n / 16) acc'
  end.

(** [hex(n)]: sign, [0x], lower-case digits. *)
Definition hex (n : Z) : string :=
  (if n <? 0 then "-" else "")
  ++ "0x" ++ hex_digits (S (Z.to_nat (Z.log2 (Z.abs n)))) (Z.abs n) "".

(** Number of set bits of a non-negative integer. *)
Fixpoint popcount_pos (p : positive) : Z :=
  match p with
  | xH => 1
  | xO p' => popcount_pos p'
  | xI p' => 1 + popcount_pos p'
  end.

Definition popcount (n : Z) : Z :=
  match n with
  | Zpos p => popcount_pos p
  | _ => 0
  end.

(** [os.WIFEXITED] and [os.WEXITSTATUS] on a wait status. *)
Definition WIFEXITED (status : Z) : bool := Z.land status 127 =? 0.
Definition WEXITSTATUS (status : Z) : Z := Z.land (Z.shiftr status 8) 255.

(** [range(lo, hi)] *)
Definition range (lo hi : Z) : list Z :=
  map (fun i => lo + Z.of_nat i) (seq 0 (Z.to_nat (hi - lo))).

(** [sub in s] for two strings: [sub] starts at some place of [s]. *)
Fixpoint contains (sub s : string) : bool :=
  String.prefix sub s
  || match s with
     | EmptyString => false
     | String _ s' => contains sub s'
     end.


End Py.


(* ================================================================= *)
(** ** Python floats: IEEE 754 binary64 *)

Module B64.
Local Open Scope Q_scope.

(** Nearest integer, ties to the even one. *)
Definition round_half_even (q : Q) : Z :=
  let f := Qfloor q in
  match Qcompare (q - inject_Z f) (1 # 2) with
  | Lt => f
  | Gt => (f + 1)%Z
  | Eq => if Z.even f then f else (f + 1)%Z
  end.

(** [floor (log2 q)] for [q > 0]. *)
Definition ilog2 (q : Q) : Z :=
  let c := (Z.log2 (Qnum q) - Z.log2 (Zpos (Qden q)))%Z in
  if Qle_bool (2 ^ c) q then c else (c - 1)%Z.

(** Exponent of the last place of the binary64 numbers around [q]:
    53 significant bits, subnormal below [2 ^ -1022]. *)
Definition exponent (q : Q) : Z := Z.max (ilog2 (Qabs q) - 52) (-1074).

(** Round to nearest, ties to even, with no bound on the exponent. *)
Definition rnd (q : Q) : Q :=
  if Qeq_bool q 0 then 0
  else let e := exponent q in
       Qred (inject_Z (round_half_even (q / 2 ^ e)) * 2 ^ e).

(** A binary64 value; the two zeros are not told apart. *)
Inductive t : Type :=
| Fin (q : Q)
| Inf (negative : bool)
| NaN.

(** The binary64 value nearest to the exact [q]; overflow to infinity. *)
Definition of_Q (q : Q) : t :=
  let r := rnd q in
  if Qle_bool (2 ^ 1024) (Qabs r) then Inf (negb (Qle_bool 0 r)) else Fin r.

Definition Qltb (x y : Q) : bool := negb (Qle_bool y x).

Definition neg (x : t) : t :=
  match x with
  | Fin q => Fin (Qred (- q))
  | Inf s => Inf (negb s)
  | NaN => NaN
  end.

Definition add (x y : t) : t :=
  match x, y with
  | Fin a, Fin b => of_Q (a + b)
  | Fin _, Inf s => Inf s
  | Inf s, Fin _ => Inf s
  | Inf s, Inf s' => if Bool.eqb s s' then Inf s else NaN
  | _, _ => NaN
  end.

Definition sub (x y : t) : t := add x (neg y).

Definition mul (x y : t) : t :=
  match x, y with
  | Fin a, Fin b => of_Q (a * b)
  | Fin a, Inf s | Inf s, Fin a =>
      if Qeq_bool a 0 then NaN else Inf (xorb s (Qltb a 0))
  | Inf s, Inf s' => Inf (xorb s s')
  | _, _ => NaN
  end.

(** [x < y] and [x == y]; every comparison with NaN is false. *)
Definition ltb (x y : t) : bool :=
  match x, y with
  | Fin a, Fin b => Qltb a b
  | Fin _, Inf s => negb s
  | Inf s, Fin _ => s
  | Inf s, Inf s' => s && negb s'
  | _, _ => false
  end.

Definition eqb (x y : t) : bool :=
  match x, y with
  | Fin a, Fin b => Qeq_bool a b
  | Inf s, Inf s' => Bool.eqb s s'
  | _, _ => false
  end.

(** [x < n] for a float [x] and an integer [n]: Python compares the two
    exactly. *)
Definition lt_int (x : t) (n : Z) : bool :=
  match x with
  | Fin a => Qltb a (inject_Z n)
  | Inf s => s
  | NaN => false
  end.

(** [float(n)] for an integer [n]. *)
Definition of_int (n : Z) : Py.result t :=
  match of_Q (inject_Z n) with
  | Fin q => Py.Ok (Fin q)
  | _ => Py.Raise Py.OverflowError
  end.

(** [a / b] for two integers under [from __future__ import division]:
    the correctly rounded quotient. *)
Definition true_div (a b : Z) : Py.result t :=
  if (b =? 0)%Z then Py.Raise Py.ZeroDivisionError
  else match of_Q (inject_Z a / inject_Z b) with
       | Fin q => Py.Ok (Fin q)
       | _ => Py.Raise Py.OverflowError
       end.

(** [x / n] for a float [x] and a positive count [n]. *)
Definition div_count (x : t) (n : positive) : t :=
  match x with
  | Fin a => of_Q (a / inject_Z (Zpos n))
  | _ => x
  end.

(** [round(x, ndigits)] for [ndigits >= 0]: the decimal with [ndigits]
    places nearest to the exact value of [x] (ties to even), converted
    back to binary64. *)
Definition round (x : t) (ndigits : Z) : t :=
  match x with
  | Fin a => of_Q (inject_Z (round_half_even (a * 10 ^ ndigits)) / 10 ^ ndigits)
  | _ => x
  end.

(** The value of one of the kernel's primitive binary64 floats. *)
Definition of_prim (f : PrimFloat.float) : t :=
  match Prim2SF f with
  | S754_zero _ => Fin 0
  | S754_finite s m e => Fin (Qred ((if s then -1 else 1) * inject_Z (Zpos m) * 2 ^ e))
  | S754_infinity s => Inf s
  | S754_nan => NaN
  end.

(** [x <= y] *)
Definition leb (x y : t) : bool := ltb x y || eqb x y.

(** [x / y] for two floats: division by zero raises, whatever [x] is. *)
Definition div (x y : t) : Py.result t :=
  match y with
  | Fin b =>
      if Qeq_bool b 0 then Py.Raise Py.ZeroDivisionError
      else match x with
           | Fin a => Py.Ok (of_Q (a / b))
           | Inf s => Py.Ok (Inf (xorb s (Qltb b 0)))
           | NaN => Py.Ok NaN
           end
  | Inf _ =>
      match x with
      | Fin _ => Py.Ok (Fin 0)
      | _ => Py.Ok NaN
      end
  | NaN => Py.Ok NaN
  end.

(** A finite value that binary64 holds as it is written here. *)
Definition exact (x : t) : Prop :=
  match x with
  | Fin q => of_Q q = Fin q
  | _ => False
  end.

(** The least exact value that rounds to [2 ^ 1024], half a unit in the
    last place above the largest binary64 number: from here on a
    quotient of integers is too large for a float. *)
Definition overflow_threshold : Q := 2 ^ 1024 - 2 ^ 970.


End B64.

(* ================================================================= *)
(** ** JSON values, as [json.loads] returns and [json.dumps] takes them *)

#[warnings="-register-all"]
Inductive json : Type :=
| JNull
| JBool (b : bool)
| JInt (n : Z)
| JFloat (x : B64.t)
| JStr (s : string)
| JList (l : list json)
| JDict (d : list (string * json)).

(* ================================================================= *)
(** ** Dictionaries: insertion-ordered, keys compared with [==] *)

Module Dict.
Section Defs.
Context {K V : Type} (keq : K -> K -> bool).

(** [d.get(k)]: the value of the entry whose key equals [k]. *)
Fixpoint get (k : K) (d : list (K * V)) : option V :=
  match d with
  | [] => None
  | (k', v) :: d' => if keq k' k then Some v else get k d'
  end.

(** [k in d] *)
Definition mem (k : K) (d : list (K * V)) : bool :=
  match get k d with
  | Some _ => true
  | None => false
  end.

(** [d[k] = v]: an entry with an equal key keeps its key and place and
    takes the new value; otherwise the entry is added last. *)
Fixpoint set (k : K) (v : V) (d : list (K * V)) : list (K * V) :=
  match d with
  | [] => [(k, v)]
  | (k', v') :: d' => if keq k' k then (k', v) :: d' else (k', v') :: set k v d'
  end.

(** Number of entries stored under a key equal to [k]. *)
Definition count (k : K) (d : list (K * V)) : nat :=
  List.length (List.filter (fun kv => keq (fst kv) k) d).

(** Every key is stored at most once. *)
Definition unique (d : list (K * V)) : Prop := forall k, (count k d <= 1)%nat.

End Defs.
End Dict.

(* ================================================================= *)
(** ** Effects: output, shell commands, runner processes, exceptions *)

Module Run.
Import Py.

(** What a run does to the outside: lines written to standard output,
    shell commands handed to [os.system], and runner processes started
    with a configuration on their standard input. *)
Inductive event : Type :=
| Stdout (line : string)
| Shell (command : string)
| Runner (stdin : json).

(** A computation reads the events so far and returns a value or an
    exception together with the extended event list. *)
Definition M (A : Type) : Type := list event -> result A * list event.

Definition ret {A} (a : A) : M A := fun tr => (Ok a, tr).

Definition bind {A B} (c : M A) (k : A -> M B) : M B :=
  fun tr => match c tr with
            | (Ok a, tr') => k a tr'
            | (Raise e, tr') => (Raise e, tr')
            end.

Definition raise {A} (e : exn) : M A := fun tr => (Raise e, tr).

Definition lift {A} (r : result A) : M A := fun tr => (r, tr).

Definition emit (e : event) : M unit := fun tr => (Ok tt, (tr ++ [e])%list).

Definition print (line : string) : M unit := emit (Stdout line).

(** [for x in xs: body(x)] *)
Fixpoint for_each {A} (xs : list A) (body : A -> M unit) : M unit :=
  match xs with
  | [] => ret tt
  | x :: xs' => bind (body x) (fun _ => for_each xs' body)
  end.

End Run.

Declare Scope py_scope.
Delimit Scope py_scope with py.
Notation "x <- c1 ;; c2" := (Run.bind c1 (fun x => c2))
  (at level 100, c1 at next level, right associativity) : py_scope.
Notation "c1 ;;; c2" := (Run.bind c1 (fun _ => c2))
  (at level 100, right associativity) : py_scope.

(* ================================================================= *)
(** ** scripts/test_granularity.py *)

Module Granularity.
Import Py Run.
Local Open Scope py_scope.

(** The outside of the script: the wait status [os.system] returns for a
    command given the events before it, what
    [pysmctrl.get_tpc_info_cuda] reports for a device, and the truth
    value of the imported [pysmctrl] module. *)
Record world : Type := {
  os_system_status : list event -> string -> Z;
  get_tpc_info_cuda : Z -> Z;
  pysmctrl : bool
}.

(** [os.system(command)] *)
Definition os_system (w : world) (command : string) : M Z :=
  fun tr => (Ok (os_system_status w tr command), (tr ++ [Shell command])%list).

Definition MIG_CONFIGS : list (Z * string) :=
  [(7, "1g.10gb"); (14, "2g.10gb"); (21, "3g.20gb"); (28, "4g.20gb"); (49, "7g.40gb")].

(** [MIG_CONFIGS[k]] *)
Definition MIG_CONFIGS_getitem (k : Z) : result string :=
  match Dict.get Z.eqb k MIG_CONFIGS with
  | Some config => Ok config
  | None => Raise (KeyError (str k))
  end.

Definition epsilon : B64.t := B64.of_Q (1 # 10000).

(** [min(100, x)] for a float [x]: the integer 100 unless [x] is smaller. *)
Definition min_100 (x : B64.t) : json :=
  if B64.lt_int x 100 then JFloat x else JInt 100.

(** The dictionary [plugin_config] starts as. *)
Definition plugin_config_init (part_method : string) (active_tpcs : Z)
  : list (string * json) :=
  [ ("label", JStr (str active_tpcs));
    ("log_name", JStr ("eurosys25_" ++ part_method ++ "_" ++ str active_tpcs ++ "tpcs.json"));
    ("filename", JStr "./bin/matrix_multiply.so");
    ("thread_count", JList [JInt 32; JInt 32]);
    ("block_count", JInt 1);
    ("data_size", JInt 0);
    ("additional_info", JDict [("matrix_width", JInt 8192); ("skip_copy", JBool true)]) ].

(** The [if]/[elif] chain on [part_method.lower()]: the method's setting
    is stored in [plugin_config], or the call raises. *)
Definition partition (w : world) (part_method : string) (total_tpcs active_tpcs : Z)
    (plugin_config : list (string * json)) : M (list (string * json)) :=
  if (lower part_method =? "mps")%string then
    quotient <- lift (B64.true_div (100 * active_tpcs) total_tpcs) ;;
    let percent_active := B64.add quotient epsilon in
    ret (Dict.set String.eqb "mps_thread_percentage"
           (min_100 (B64.round percent_active 4)) plugin_config)
  else if (lower part_method =? "libsmctrl")%string then
    mask <- lift (int (str_mul "1" active_tpcs) 2) ;;
    ret (Dict.set String.eqb "sm_mask" (JStr ("~" ++ hex mask)) plugin_config)
  else if (lower part_method =? "mig")%string then
    smi_status <- os_system w "nvidia-smi mig --list-gpu-instance-profiles" ;;
    if negb (WIFEXITED smi_status) || (WEXITSTATUS smi_status =? 6) then
      raise (Exception "MiG-capable GPU required for MiG experiments!")
    else
      config <- lift (MIG_CONFIGS_getitem active_tpcs) ;;
      os_system w "sudo nvidia-smi mig --destroy-compute-instance" ;;;
      os_system w "sudo nvidia-smi mig --destroy-gpu-instance" ;;;
      smi_status <- os_system w ("sudo nvidia-smi mig --create-gpu-instance "
                                 ++ config ++ " --default-compute-instance") ;;
      if negb (WIFEXITED smi_status) || negb (WEXITSTATUS smi_status =? 0) then
        raise (Exception ("Unable to create MiG instance with config " ++ config ++ "!"))
      else ret plugin_config
  else
    raise (Exception ("Unknown partitioning type '" ++ part_method ++ "'!")).

(** The dictionary [overall_config] around the benchmark's own. *)
Definition overall_config (device : Z) (part_method : string) (iterations : Z)
    (plugin_config : list (string * json)) : json :=
  let name := "TPC Count vs. Performance with " ++ part_method in
  JDict [ ("name", JStr name);
          ("max_iterations", JInt iterations);
          ("max_time", JInt 0);
          ("cuda_device", JInt device);
          ("use_processes", JBool true);
          ("pin_cpus", JBool true);
          ("do_warmup", JBool true);
          ("benchmarks", JList [JDict plugin_config]) ].

(** [generate_config]: the configuration object; the script returns its
    [json.dumps] text, which the runner parses back into this object. *)
Definition generate_config (w : world) (device : Z) (part_method : string)
    (total_tpcs active_tpcs iterations : Z) : M json :=
  plugin_config <- partition w part_method total_tpcs active_tpcs
                     (plugin_config_init part_method active_tpcs) ;;
  ret (overall_config device part_method iterations plugin_config).

(** [config[key]] and [config["benchmarks"][0][key]] of a generated
    configuration. *)
Definition top_field (key : string) (config : json) : option json :=
  match config with
  | JDict d => Dict.get String.eqb key d
  | _ => None
  end.

Definition benchmark_setting (key : string) (config : json) : option json :=
  match top_field "benchmarks" config with
  | Some (JList (JDict plugin_config :: _)) => Dict.get String.eqb key plugin_config
  | _ => None
  end.

(** The exact value of a JSON number. *)
Definition number_value (v : json) : option Q :=
  match v with
  | JInt n => Some (inject_Z n)
  | JFloat (B64.Fin q) => Some q
  | _ => None
  end.

Definition run_process (w : world) (device : Z) (part_method : string)
    (total_tpcs active_tpcs iterations : Z) : M unit :=
  config <- generate_config w device part_method total_tpcs active_tpcs iterations ;;
  print ("Starting test with " ++ str active_tpcs ++ " TPCs enabled under " ++ part_method) ;;;
  emit (Runner config).

(** The parsed command line. *)
Record args : Type := {
  tpc_count : option Z;
  start_count : option Z;
  mig : bool;
  device : Z;
  iterations : Z
}.

(** Reading a local variable that an earlier branch may have left unbound. *)
Definition read_var (name : string) (v : option Z) : M Z :=
  match v with
  | Some n => ret n
  | None => raise (NameError name)
  end.

(** The block under [if __name__ == "__main__"], after [parse_args]. *)
Definition main (w : world) (a : args) : M unit :=
  tpc <-
    match tpc_count a with
    | Some n =>
        if n <=? 0 then
          (print "The TPC count must be positive and non-zero." ;;;
           raise (SystemExit 22))
        else ret (Some n)
    | None =>
        if pysmctrl w then
          (let n := get_tpc_info_cuda w (device a) in
           print ("Auto-detected " ++ str n ++ " available TPCs") ;;;
           ret (Some n))
        else ret None
    end ;;
  match start_count a with
  | Some s =>
      if s <=? 0 then
        (print "The starting TPC count must be positive and non-zero." ;;;
         raise (SystemExit 22))
      else ret tt
  | None => ret tt
  end ;;;
  sweep <-
    (if mig a then ret (["mig"], map fst MIG_CONFIGS)
     else
       (if pysmctrl w then
          (n <- read_var "tpc_count" tpc ;;
           if n >? get_tpc_info_cuda w (device a) then
             (print "The TPC count must not exceed the number of available TPCs." ;;;
              raise (SystemExit 22))
           else ret tt)
        else ret tt) ;;;
       n <- read_var "tpc_count" tpc ;;
       match start_count a with
       | Some s => ret (["mps"; "libsmctrl"], range s (n + 1))
       | None => raise TypeError
       end) ;;
  for_each (snd sweep) (fun active_tpcs =>
    for_each (fst sweep) (fun part_method =>
      print ("Running test for " ++ str active_tpcs ++ " active TPCs under "
             ++ part_method ++ ".") ;;;
      n <- read_var "tpc_count" tpc ;;
      run_process w (device a) part_method n active_tpcs (iterations a) ;;;
      print "")).

(** The unit-count arguments the driver refuses: a given total that is
    not positive, a starting count that is not positive, or, outside MiG
    mode and with [pysmctrl] at hand, a given total above the number of
    TPCs the device reports. *)
Definition invalid_unit_count (w : world) (a : args) : Prop :=
  (exists n, tpc_count a = Some n /\ n <= 0)
  \/ (exists s, start_count a = Some s /\ s <= 0)
  \/ (mig a = false /\ pysmctrl w = true
      /\ exists n, tpc_count a = Some n /\ n > get_tpc_info_cuda w (device a)).

(** A machine on which every command exits with status 0 and the device
    reports 54 TPCs. *)
Definition example_world : world :=
  {| os_system_status := fun _ _ => 0;
     get_tpc_info_cuda := fun _ => 54;
     pysmctrl := true |}.

(** *** What a sweep leaves in the event list *)

(** The commands of a MiG reconfiguration to [geometry], in order: the
    query for the instance profiles, the two that destroy what exists,
    and the creation. *)
Definition mig_query : string := "nvidia-smi mig --list-gpu-instance-profiles".

Definition mig_teardown : list string :=
  [ "sudo nvidia-smi mig --destroy-compute-instance";
    "sudo nvidia-smi mig --destroy-gpu-instance" ].

Definition mig_create (geometry : string) : string :=
  "sudo nvidia-smi mig --create-gpu-instance " ++ geometry ++ " --default-compute-instance".

Definition mig_commands (geometry : string) : list string :=
  (mig_query :: mig_teardown ++ [mig_create geometry])%list.

(** The percentage stored for [active_tpcs] of [total_tpcs], when the
    quotient is in the range of floats. *)
Definition mps_thread_percentage (total_tpcs active_tpcs : Z) : json :=
  min_100
    (B64.round
       (B64.add (B64.of_Q (inject_Z (100 * active_tpcs) / inject_Z total_tpcs)%Q) epsilon)
       4).

(** The mask stored for a positive [active_tpcs]. *)
Definition sm_mask (active_tpcs : Z) : json := JStr ("~" ++ hex (2 ^ active_tpcs - 1)).

(** One run of the benchmark as the driver logs it, apart from the
    commands of [generate_config]. *)
Definition run_log (part_method : string) (active_tpcs : Z) (config : json) : list event :=
  [ Stdout ("Running test for " ++ str active_tpcs ++ " active TPCs under "
            ++ part_method ++ ".");
    Stdout ("Starting test with " ++ str active_tpcs ++ " TPCs enabled under " ++ part_method);
    Runner config;
    Stdout "" ].

(** A sweep outside MiG mode over [counts]: for each count a run under
    "mps", then one under "libsmctrl". *)
Definition sweep_log (device total_tpcs iterations : Z) (counts : list Z) : list event :=
  flat_map
    (fun active_tpcs =>
       run_log "mps" active_tpcs
         (overall_config device "mps" iterations
            (plugin_config_init "mps" active_tpcs
             ++ [("mps_thread_percentage", mps_thread_percentage total_tpcs active_tpcs)]))
       ++ run_log "libsmctrl" active_tpcs
            (overall_config device "libsmctrl" iterations
               (plugin_config_init "libsmctrl" active_tpcs
                ++ [("sm_mask", sm_mask active_tpcs)])))%list
    counts.

(** A sweep in MiG mode over [configs]: for each count the line that
    announces the run, the four commands, then the runner. *)
Definition mig_log (device iterations : Z) (configs : list (Z * string)) : list event :=
  flat_map
    (fun entry =>
       [Stdout ("Running test for " ++ str (fst entry) ++ " active TPCs under mig.")]
       ++ map Shell (mig_commands (snd entry))
       ++ [ Stdout ("Starting test with " ++ str (fst entry) ++ " TPCs enabled under mig");
            Runner (overall_config device "mig" iterations
                      (plugin_config_init "mig" (fst entry)));
            Stdout "" ])%list
    configs.

(** What the driver prints while it settles the total: the line of the
    auto-detection, when no total is given and [pysmctrl] is at hand. *)
Definition detection_log (w : world) (a : args) : list event :=
  match tpc_count a with
  | Some _ => []
  | None =>
      if pysmctrl w
      then [Stdout ("Auto-detected " ++ str (get_tpc_info_cuda w (device a))
                    ++ " available TPCs")]
      else []
  end.

(** Every command exits with status 0. *)
Definition commands_succeed (w : world) : Prop :=
  forall tr command,
    WIFEXITED (os_system_status w tr command) = true
    /\ WEXITSTATUS (os_system_status w tr command) = 0.

(** A machine whose GPU is not MiG-capable: [nvidia-smi] exits with
    status 6 (wait status [6 * 256]). *)
Definition no_mig_world : world :=
  {| os_system_status := fun _ _ => 1536;
     get_tpc_info_cuda := fun _ => 54;
     pysmctrl := true |}.

(** A machine on which creating a GPU instance fails with exit status 1
    and every other command succeeds. *)
Definition create_fails_world : world :=
  {| os_system_status :=
       fun _ command =>
         if String.prefix "sudo nvidia-smi mig --create-gpu-instance" command then 256 else 0;
     get_tpc_info_cuda := fun _ => 54;
     pysmctrl := true |}.


End Granularity.

(* ================================================================= *)
(** ** scripts/view_scatterplots_eurosys.py *)

Module Scatter.
Import Py Run.
Local Open Scope py_scope.

(** One element of a result file's ["times"] list: a JSON object; the
    script reads from it only the array of timestamps stored under the
    times key. *)
Definition time_entry : Type := list (string * list B64.t).

(** A parsed result file.  A field the file lacks is [None]; the label
    is any JSON value. *)
Record plugin : Type := {
  label : option json;
  scenario_name : option string;
  times : option (list time_entry)
}.

(** [min duration, max duration, mean duration], in milliseconds. *)
Definition triplet : Type := (B64.t * B64.t * B64.t)%type.

(** A float as the object it is.  A dictionary finds a key that is the
    very object looked up, or one that equals it; a NaN equals nothing,
    itself included, so a NaN key is found only as the object it is.
    The floats the script makes are objects of their own ([Own]), with
    one exception: for the literal [NaN] in a file [json.loads] returns
    the one NaN object of the [json] module, the same for every file
    ([JsonNaN]), and [float] returns a float it is given as it is. *)
Inductive float_object : Type :=
| Own (x : B64.t)
| JsonNaN.

Definition value (k : float_object) : B64.t :=
  match k with
  | Own x => x
  | JsonNaN => B64.NaN
  end.

(** Whether the key [k'] of an entry is found under the key [k] of
    another use: [k' is k or k' == k]. *)
Definition same_key (k' k : float_object) : bool :=
  match k', k with
  | JsonNaN, JsonNaN => true
  | _, _ => B64.eqb (value k') (value k)
  end.

(** [all_scenarios]: scenario name to (numeric label to triplet). *)
Definition scenarios : Type := list (string * list (float_object * triplet)).

Definition dquote : string := String (ascii_of_nat 34) EmptyString.

(** [parsed[field]] *)
Definition getitem {A} (field : string) (v : option A) : result A :=
  match v with
  | Some a => Ok a
  | None => Raise (KeyError field)
  end.

(** The [while] loop of [plugin_summary_values] over one array. *)
Fixpoint pair_loop (fuel : nat) (times : list B64.t) (i : nat) (durations : list B64.t)
  : result (list B64.t) :=
  match fuel with
  | O => Ok durations
  | S fuel' =>
      if (i <? List.length times)%nat then
        match nth_error times (i + 1) with
        | None => Raise IndexError
        | Some later =>
            match nth_error times i with
            | None => Raise IndexError
            | Some earlier =>
                pair_loop fuel' times (i + 2) (durations ++ [B64.sub later earlier])%list
            end
        end
      else Ok durations
  end.

(** The [for t in plugin["times"]] loop. *)
Fixpoint entries_loop (times_key : string) (entries : list time_entry)
    (durations : list B64.t) : result (list B64.t) :=
  match entries with
  | [] => Ok durations
  | t :: rest =>
      if negb (Dict.mem String.eqb times_key t) then entries_loop times_key rest durations
      else
        match getitem times_key (Dict.get String.eqb times_key t) with
        | Raise e => Raise e
        | Ok times =>
            match pair_loop (S (List.length times)) times 0 durations with
            | Raise e => Raise e
            | Ok durations' => entries_loop times_key rest durations'
            end
        end
  end.

(** [min(l)] and [max(l)]: the first element that no later one beats. *)
Definition py_min (l : list B64.t) : result B64.t :=
  match l with
  | [] => Raise ValueError
  | x :: rest => Ok (fold_left (fun best item => if B64.ltb item best then item else best) rest x)
  end.

Definition py_max (l : list B64.t) : result B64.t :=
  match l with
  | [] => Raise ValueError
  | x :: rest => Ok (fold_left (fun best item => if B64.ltb best item then item else best) rest x)
  end.

Definition thousand : B64.t := B64.Fin 1000.

Section Library.
(** The two library calls whose results the scripts do not compute
    themselves: [float(s)] on a string, [None] when it raises, and
    [numpy.mean] of a list of floats. *)
Variable float_of_str : string -> option B64.t.
Variable numpy_mean : list B64.t -> B64.t.

(** [convert_to_float]: [float(s)], with every exception turned into
    [None]. *)
Definition convert_to_float (s : json) : option float_object :=
  match s with
  | JStr text =>
      match float_of_str text with
      | Some x => Some (Own x)
      | None => None
      end
  | JFloat B64.NaN => Some JsonNaN
  | JFloat x => Some (Own x)
  | JInt n =>
      match B64.of_int n with
      | Ok x => Some (Own x)
      | Raise _ => None
      end
  | JBool b => Some (Own (B64.Fin (if b then 1 else 0)%Q))
  | JNull | JList _ | JDict _ => None
  end.

Definition plugin_summary_values (parsed : plugin) (times_key : string) : result triplet :=
  match getitem "times" (times parsed) with
  | Raise e => Raise e
  | Ok entries =>
      match entries_loop times_key entries [] with
      | Raise e => Raise e
      | Ok durations =>
          match py_min durations with
          | Raise e => Raise e
          | Ok lo =>
              match py_max durations with
              | Raise e => Raise e
              | Ok hi =>
                  let minimum := B64.mul lo thousand in
                  let maximum := B64.mul hi thousand in
                  let average := B64.mul (numpy_mean durations) thousand in
                  Ok (minimum, maximum, average)
              end
          end
      end
  end.

(** [if name not in all_scenarios: all_scenarios[name] = {}] followed by
    [all_scenarios[name][float_value] = summary_values]. *)
Definition record_summary (name : string) (float_value : float_object)
    (summary_values : triplet) (all_scenarios : scenarios) : scenarios :=
  let scenario :=
    match Dict.get String.eqb name all_scenarios with
    | Some scenario => scenario
    | None => []
    end in
  Dict.set String.eqb name (Dict.set same_key float_value summary_values scenario)
    all_scenarios.

(** One round of the [for name in filenames] loop of [show_plots], for a
    file whose parsed content is [parsed]. *)
Definition process_file (times_key : string) (total counter : Z) (name : string)
    (parsed : plugin) (all_scenarios : scenarios) : M scenarios :=
  print ("Parsing file " ++ str counter ++ " / " ++ str total ++ ": " ++ name) ;;;
  match label parsed with
  | None =>
      print ("Skipping " ++ name ++ ": no " ++ dquote ++ "label" ++ dquote
             ++ " field in file.") ;;;
      ret all_scenarios
  | Some label0 =>
      entries <- lift (getitem "times" (times parsed)) ;;
      if (List.length entries <? 2)%nat then
        (print ("Skipping " ++ name ++ ": no recorded times in file.") ;;;
         ret all_scenarios)
      else
        match convert_to_float label0 with
        | None =>
            print ("Skipping " ++ name ++ ": label isn't a number.") ;;;
            ret all_scenarios
        | Some float_value =>
            summary_values <- lift (plugin_summary_values parsed times_key) ;;
            name' <- lift (getitem "scenario_name" (scenario_name parsed)) ;;
            ret (record_summary name' float_value summary_values all_scenarios)
        end
  end.

Fixpoint parse_files (times_key : string) (total counter : Z)
    (files : list (string * plugin)) (all_scenarios : scenarios) : M scenarios :=
  match files with
  | [] => ret all_scenarios
  | (name, parsed) :: rest =>
      all_scenarios' <- process_file times_key total counter name parsed all_scenarios ;;
      parse_files times_key total (counter + 1) rest all_scenarios'
  end.

(** What a file adds to the mapping when it is neither skipped nor the
    cause of an exception. *)
Definition contribution (times_key : string) (parsed : plugin)
  : option (string * float_object * triplet) :=
  match label parsed, times parsed, scenario_name parsed with
  | Some label0, Some entries, Some name =>
      if (List.length entries <? 2)%nat then None
      else match convert_to_float label0, plugin_summary_values parsed times_key with
           | Some float_value, Ok summary_values => Some (name, float_value, summary_values)
           | _, _ => None
           end
  | _, _, _ => None
  end.

(** The first half of [show_plots]: the mapping handed to the plotting
    calls, which read nothing else of the files. *)
Definition show_plots (files : list (string * plugin)) (times_key : string) : M scenarios :=
  parse_files times_key (Z.of_nat (List.length files)) 1 files [].

End Library.

(** [all_scenarios[name][x]] *)
Definition lookup (name : string) (x : float_object) (all_scenarios : scenarios)
  : option triplet :=
  match Dict.get String.eqb name all_scenarios with
  | Some scenario => Dict.get same_key x scenario
  | None => None
  end.

(** The samples the pairing is meant to produce: the difference of the
    second and the first element of each consecutive, non-overlapping
    pair. *)
Fixpoint pair_samples (times : list B64.t) : list B64.t :=
  match times with
  | earlier :: later :: rest => B64.sub later earlier :: pair_samples rest
  | _ => []
  end.

(** All samples of a record, entry by entry. *)
Fixpoint record_samples (times_key : string) (entries : list time_entry) : list B64.t :=
  match entries with
  | [] => []
  | t :: rest =>
      match Dict.get String.eqb times_key t with
      | Some times => (pair_samples times ++ record_samples times_key rest)%list
      | None => record_samples times_key rest
      end
  end.


(** The mapping after the files that neither stop the loop nor are
    skipped have each added their triplet, in order. *)
Definition accumulate (float_of_str : string -> option B64.t)
    (numpy_mean : list B64.t -> B64.t) (times_key : string)
    (files : list (string * plugin)) (all_scenarios : scenarios) : scenarios :=
  fold_left
    (fun acc file =>
       match contribution float_of_str numpy_mean times_key (snd file) with
       | Some (name, float_value, summary_values) =>
           record_summary name float_value summary_values acc
       | None => acc
       end)
    files all_scenarios.

(** No scenario name and, within a scenario, no label is stored twice. *)
Definition well_keyed (all_scenarios : scenarios) : Prop :=
  Dict.unique String.eqb all_scenarios
  /\ forall name scenario, In (name, scenario) all_scenarios ->
                           Dict.unique same_key scenario.


(** [numpy.mean] of fewer than eight samples: their sum, taken left to
    right, over their count; [nan] for no sample.  (Longer lists numpy
    sums pairwise.) *)
Definition mean_sequential (l : list B64.t) : B64.t :=
  match l with
  | [] => B64.NaN
  | _ => B64.div_count (fold_left B64.add l (B64.Fin 0)) (Pos.of_nat (List.length l))
  end.

Fixpoint split_dot (s : string) : string * option string :=
  match s with
  | EmptyString => (EmptyString, None)
  | String c s' =>
      if Ascii.eqb c "." then (EmptyString, Some s')
      else let (whole, fraction) := split_dot s' in (String c whole, fraction)
  end.

(** [float(s)] on an unsigned decimal numeral such as [54] or [1.002];
    [None] on any other text (Python accepts more: a sign, an exponent,
    surrounding blanks, [inf], [nan]). *)
Definition float_of_decimal (s : string) : option B64.t :=
  let (whole, fraction) := split_dot s in
  let fraction := match fraction with Some f => f | None => EmptyString end in
  if (String.length whole + String.length fraction =? 0)%nat then None
  else match int_digits 10 whole 0, int_digits 10 fraction 0 with
       | Some a, Some b =>
           Some (B64.of_Q (inject_Z a
                           + inject_Z b / inject_Z (10 ^ Z.of_nat (String.length fraction))))
       | _, _ => None
       end.

(** The record of the specification's example:
    [times: [{"execute_times": [1.0, 1.002]}]]. *)
Definition example_record : plugin :=
  {| label := None;
     scenario_name := None;
     times := Some [[("execute_times", [B64.Fin 1; B64.of_Q (1002 # 1000)])]] |}.

(** 2.0000000000000018, the binary64 number four units in the last
    place above 2. *)
Definition two_ms_rounded : B64.t := B64.Fin (1125899906842625 # 562949953421312).

(** A record whose one array holds a single timestamp. *)
Definition odd_record : plugin :=
  {| label := None;
     scenario_name := None;
     times := Some [[("execute_times", [B64.Fin 1])]] |}.

(** A file with a numeric label and two elements in ["times"], neither
    of which holds any timestamp. *)
Definition empty_entries_record : plugin :=
  {| label := Some (JStr "5");
     scenario_name := Some "mps";
     times := Some [[]; []] |}.


(** Two result files of one scenario with the same label and different
    timings: half a second in the first, a quarter in the second. *)
Definition first_file : plugin :=
  {| label := Some (JStr "5");
     scenario_name := Some "mps";
     times := Some [[]; [("execute_times", [B64.Fin 1; B64.Fin (3 # 2)])]] |}.

Definition second_file : plugin :=
  {| label := Some (JStr "5");
     scenario_name := Some "mps";
     times := Some [[]; [("execute_times", [B64.Fin 2; B64.Fin (9 # 4)])]] |}.

(** The names of a list without repetition, each at its first place. *)
Fixpoint first_seen (names : list string) : list string :=
  match names with
  | [] => []
  | name :: rest => name :: filter (fun other => negb (String.eqb name other)) (first_seen rest)
  end.

(** The scenario names of the files that contribute, file by file. *)
Definition contributing_names (float_of_str : string -> option B64.t)
    (numpy_mean : list B64.t -> B64.t) (times_key : string)
    (files : list (string * plugin)) : list string :=
  flat_map
    (fun file =>
       match contribution float_of_str numpy_mean times_key (snd file) with
       | Some (name, _, _) => [name]
       | None => []
       end)
    files.

(** Why a file is skipped, if it is: the text printed after its name. *)
Definition skip_reason (float_of_str : string -> option B64.t) (parsed : plugin)
  : option string :=
  match label parsed, times parsed with
  | None, _ => Some ("no " ++ dquote ++ "label" ++ dquote ++ " field in file.")
  | Some label0, Some entries =>
      if (List.length entries <? 2)%nat then Some "no recorded times in file."
      else match convert_to_float float_of_str label0 with
           | None => Some "label isn't a number."
           | Some _ => None
           end
  | Some _, None => None
  end.

(** The lines a finished run has printed: for each file its progress
    line, numbered from [counter], and the reason if it was skipped. *)
Fixpoint progress_log (float_of_str : string -> option B64.t) (total counter : Z)
    (files : list (string * plugin)) : list event :=
  match files with
  | [] => []
  | (name, parsed) :: rest =>
      (Stdout ("Parsing file " ++ str counter ++ " / " ++ str total ++ ": " ++ name)
       :: match skip_reason float_of_str parsed with
          | Some reason => [Stdout ("Skipping " ++ name ++ ": " ++ reason)]
          | None => []
          end
       ++ progress_log float_of_str total (counter + 1) rest)%list
  end.

(** A file with a label and no ["times"] field. *)
Definition timeless_record : plugin :=
  {| label := Some (JStr "5"); scenario_name := Some "mps"; times := None |}.

(** A file of a second scenario. *)
Definition third_file : plugin :=
  {| label := Some (JStr "7");
     scenario_name := Some "libsmctrl";
     times := Some [[]; [("execute_times", [B64.Fin 1; B64.Fin (5 # 4)])]] |}.

(** [float(s)] on [nan] in any spelling of case, and on what
    [float_of_decimal] reads. *)
Definition float_of_text (s : string) : option B64.t :=
  if (lower s =? "nan")%string then Some B64.NaN else float_of_decimal s.

(** A file under another label. *)
Definition relabel (label0 : json) (parsed : plugin) : plugin :=
  {| label := Some label0;
     scenario_name := scenario_name parsed;
     times := times parsed |}.

(** A file with two samples, a quarter and half a second. *)
Definition two_sample_file : plugin :=
  {| label := Some (JStr "5");
     scenario_name := Some "mps";
     times := Some [[]; [("execute_times", [B64.Fin 1; B64.Fin (5 # 4); B64.Fin 2;
                                           B64.Fin (5 # 2)])]] |}.


End Scatter.

(* ================================================================= *)
(** ** scripts/view_scatterplots_eurosys.py: the figure *)

Declare Scope draw_scope.
Delimit Scope draw_scope with draw.

Module Plot.
Import Py Scatter.

(** The calls into matplotlib, with their arguments. *)
Inductive call : Type :=
| PlotFigure (figsize : B64.t * B64.t)
| SetWindowTitle (title : string)
| AddSubplot (nrows ncols index : Z)
| Autoscale (enable : bool) (axis : string) (tight : bool)
| AxesPlot (xs ys : list B64.t) (label : string) (style : list (string * json))
| SetYLabel (text : string)
| SetXLabel (text : string)
| PlotLegend
| LegendDraggable
| LegendSetDraggable (state : bool)
| SetYScale (scale : string)
| SetYLim (bottom top : B64.t)
| SetXLim (left right : B64.t)
| TightLayout
| PlotShow.

(** What matplotlib answers, given the calls made so far: the
    resolution of figures, the bounds the axes report on each axis (the
    two getters only read the state of the axes), and for each call
    whether it returns or raises, and what. *)
Record matplotlib : Type := {
  figure_dpi : B64.t;
  get_ybound : list call -> B64.t * B64.t;
  get_xbound : list call -> B64.t * B64.t;
  raises : list call -> call -> option exn
}.

(** A drawing computation: the calls so far in, a value or an exception
    and the extended calls out. *)
Definition M (A : Type) : Type := list call -> result A * list call.

Definition ret {A} (a : A) : M A := fun calls => (Ok a, calls).

Definition bind {A B} (c : M A) (k : A -> M B) : M B :=
  fun calls => match c calls with
               | (Ok a, calls') => k a calls'
               | (Raise e, calls') => (Raise e, calls')
               end.

Definition lift {A} (r : result A) : M A := fun calls => (r, calls).

(** A call into matplotlib: it is made, and returns or raises. *)
Definition invoke (mpl : matplotlib) (c : call) : M unit :=
  fun calls => match raises mpl calls c with
               | None => (Ok tt, (calls ++ [c])%list)
               | Some e => (Raise e, (calls ++ [c])%list)
               end.

Definition read {A} (f : list call -> A) : M A := fun calls => (Ok (f calls), calls).

(** [try: c] with a bare [except: handler], which catches every
    exception. *)
Definition try_except (c handler : M unit) : M unit :=
  fun calls => match c calls with
               | (Ok a, calls') => (Ok a, calls')
               | (Raise _, calls') => handler calls'
               end.

(** Calls made one after the other, up to the first that raises. *)
Fixpoint invoke_all (mpl : matplotlib) (cs : list call) : M unit :=
  match cs with
  | [] => ret tt
  | c :: rest => bind (invoke mpl c) (fun _ => invoke_all mpl rest)
  end.

Notation "x <- c1 ;; c2" := (bind c1 (fun x => c2))
  (at level 100, c1 at next level, right associativity) : draw_scope.
Notation "c1 ;;; c2" := (bind c1 (fun _ => c2))
  (at level 100, right associativity) : draw_scope.

Local Open Scope draw_scope.

(** A key taken out of a scenario dictionary: the float, with its place
    among the entries, which tells the object from every other key of
    the dictionary. *)
Definition key_object : Type := (nat * float_object)%type.

(** [for k in scenario]: the keys, in insertion order. *)
Definition keys (scenario : list (float_object * triplet)) : list key_object :=
  combine (seq 0 (List.length scenario)) (map fst scenario).

(** [scenario[k]]: the entry whose key is the object [k] itself or
    equals it (a NaN equals nothing, and is found as itself).  The
    [KeyError] of a failed lookup carries no text here. *)
Definition scenario_getitem (scenario : list (float_object * triplet)) (k : key_object)
  : result triplet :=
  match find (fun entry => (fst (fst entry) =? fst k)%nat
                           || same_key (snd (fst entry)) (snd k))
          (combine (keys scenario) (map snd scenario)) with
  | Some (_, t) => Ok t
  | None => Raise (KeyError "")
  end.

(** The second loop of [scenario_to_distribution]. *)
Fixpoint columns (scenario : list (float_object * triplet)) (x_values : list key_object)
    (min_y_values max_y_values mean_y_values : list B64.t)
  : result (list B64.t * list B64.t * list B64.t) :=
  match x_values with
  | [] => Ok (min_y_values, max_y_values, mean_y_values)
  | k :: rest =>
      match scenario_getitem scenario k with
      | Raise e => Raise e
      | Ok (lo, hi, mean) =>
          columns scenario rest (min_y_values ++ [lo]) (max_y_values ++ [hi])
            (mean_y_values ++ [mean])
      end
  end.

Definition base_style : list (string * json) :=
  [ ("linestyle", JStr "-"); ("marker", JStr "o"); ("fillstyle", JStr "full");
    ("markersize", JInt 3); ("color", JStr "#0277bd"); ("drawstyle", JStr "steps-post") ].

(** [copy.deepcopy] of a dictionary of strings and numbers is the same
    dictionary in a store of its own: the assignments that follow do not
    reach [base_style]. *)
Definition get_marker_styles : list (list (string * json)) :=
  let style_2 := base_style in
  let style_2 := Dict.set String.eqb "linestyle" (JStr ":") style_2 in
  let style_2 := Dict.set String.eqb "marker" (JStr "s") style_2 in
  let style_2 := Dict.set String.eqb "markersize" (JInt 5) style_2 in
  let style_2 := Dict.set String.eqb "color" (JStr "#f4b400") style_2 in
  let style_3 := base_style in
  let style_3 := Dict.set String.eqb "linestyle" (JStr "--") style_3 in
  let style_3 := Dict.set String.eqb "marker" (JStr "x") style_3 in
  let style_3 := Dict.set String.eqb "markersize" (JInt 6) style_3 in
  let style_3 := Dict.set String.eqb "color" (JStr "#0f9d58") style_3 in
  [style_3; style_2; base_style].

(** [next(style_cycler)] for [itertools.cycle(get_marker_styles())]
    after [n] earlier calls: the three styles in turn, over and over. *)
Definition next_style (n : nat) : list (string * json) :=
  nth (n mod List.length get_marker_styles) get_marker_styles [].

(** The name a scenario goes by in the legend. *)
Definition legend_name (name : string) : string :=
  if contains "mps" name then "MPS"
  else if contains "mig" name then "MiG"
  else "nvsplit".

(** The float literal [0.05]. *)
Definition five_percent : B64.t := B64.of_Q (5 # 100).

Definition add_plot_padding (mpl : matplotlib) : M unit :=
  invoke mpl (SetYScale "log") ;;;
  y_limits <- read (get_ybound mpl) ;;
  let y_range := B64.sub (snd y_limits) (fst y_limits) in
  let y_pad := B64.mul y_range five_percent in
  x_limits <- read (get_xbound mpl) ;;
  let x_range := B64.sub (snd x_limits) (fst x_limits) in
  let x_pad := B64.mul x_range five_percent in
  invoke mpl (SetYLim (fst y_limits) (B64.add (snd y_limits) y_pad)) ;;;
  invoke mpl (SetXLim (B64.sub (fst x_limits) x_pad) (B64.add (snd x_limits) x_pad)).

Section Sorting.
(** [x_values.sort()] on a list of float objects: Python's sort, which
    only moves the objects and compares them with [<]. *)
Variable list_sort : list key_object -> list key_object.

Definition scenario_to_distribution (scenario : list (float_object * triplet))
  : result (list B64.t * list B64.t * list B64.t * list B64.t) :=
  let x_values := list_sort (keys scenario) in
  match columns scenario x_values [] [] [] with
  | Raise e => Raise e
  | Ok (min_y_values, max_y_values, mean_y_values) =>
      Ok (map (fun k => value (snd k)) x_values, min_y_values, max_y_values, mean_y_values)
  end.

Definition add_scenario_to_plot (mpl : matplotlib)
    (scenario : list (float_object * triplet)) (name : string)
    (style_dict : list (string * json)) : M unit :=
  data <- lift (scenario_to_distribution scenario) ;;
  let '(x_values, _, _, mean_y_values) := data in
  let name := legend_name name in
  invoke mpl (AxesPlot x_values mean_y_values name style_dict) ;;;
  invoke mpl (SetYLabel "Average MM8192 Time (ms)") ;;;
  invoke mpl (SetXLabel "TPC Partition Size (# of TPCs)") ;;;
  invoke mpl PlotLegend ;;;
  try_except (invoke mpl LegendDraggable) (invoke mpl (LegendSetDraggable true)).

(** [for name in all_scenarios: add_scenario_to_plot(...)], when
    [drawn] scenarios have taken their style from the cycle. *)
Fixpoint plot_scenarios (mpl : matplotlib) (all_scenarios : scenarios)
    (names : list string) (drawn : nat) : M unit :=
  match names with
  | [] => ret tt
  | name :: rest =>
      scenario <- lift (getitem name (Dict.get String.eqb name all_scenarios)) ;;
      add_scenario_to_plot mpl scenario name (next_style drawn) ;;;
      plot_scenarios mpl all_scenarios rest (S drawn)
  end.

(** The second half of [show_plots]: the figure for the mapping built
    from the files. *)
Definition draw (mpl : matplotlib) (all_scenarios : scenarios) (h w : Z) : M unit :=
  px <- lift (B64.div (B64.Fin 1) (figure_dpi mpl)) ;;
  w' <- lift (B64.of_int w) ;;
  h' <- lift (B64.of_int h) ;;
  invoke mpl (PlotFigure (B64.mul w' px, B64.mul h' px)) ;;;
  invoke mpl (SetWindowTitle "TPC partition size vs. MM8192 Time") ;;;
  invoke mpl (AddSubplot 1 1 1) ;;;
  invoke mpl (Autoscale true "both" true) ;;;
  plot_scenarios mpl all_scenarios (map fst all_scenarios) 0 ;;;
  add_plot_padding mpl ;;;
  invoke mpl TightLayout ;;;
  invoke mpl PlotShow.

End Sorting.

(** A stable insertion sort by [<]: what every sort that compares with
    [<] returns on keys that [<] orders. *)
Fixpoint insert_key (k : key_object) (l : list key_object) : list key_object :=
  match l with
  | [] => [k]
  | h :: t =>
      if B64.ltb (value (snd h)) (value (snd k)) then h :: insert_key k t else k :: l
  end.

Definition insertion_sort (l : list key_object) : list key_object :=
  fold_right insert_key [] l.

(** The entry a key object stands at. *)
Definition entry_of (scenario : list (float_object * triplet)) (k : key_object)
  : float_object * triplet :=
  nth (fst k) scenario (Own B64.NaN, (B64.NaN, B64.NaN, B64.NaN)).

(** The parts of an entry. *)
Definition row_label (row : float_object * triplet) : B64.t := value (fst row).
Definition row_min (row : float_object * triplet) : B64.t := fst (fst (snd row)).
Definition row_max (row : float_object * triplet) : B64.t := snd (fst (snd row)).
Definition row_mean (row : float_object * triplet) : B64.t := snd (snd row).

(** The line [axes.plot] draws for a scenario. *)
Definition series (list_sort : list key_object -> list key_object)
    (scenario : list (float_object * triplet)) (name : string)
    (style : list (string * json)) : call :=
  let rows := map (entry_of scenario) (list_sort (keys scenario)) in
  AxesPlot (map row_label rows) (map row_mean rows) (legend_name name) style.

(** The [axes.plot] calls among the calls made, and their label and
    style. *)
Definition plotted (calls : list call) : list call :=
  filter (fun c => match c with AxesPlot _ _ _ _ => true | _ => false end) calls.

Definition plot_label (c : call) : string :=
  match c with AxesPlot _ _ label _ => label | _ => "" end.

Definition plot_style (c : call) : list (string * json) :=
  match c with AxesPlot _ _ _ style => style | _ => [] end.

(** The [axes.plot] calls for the scenarios of a mapping, the first of
    them in the style [start] of the cycle. *)
Definition all_series (list_sort : list key_object -> list key_object) (start : nat)
    (all_scenarios : scenarios) : list call :=
  map (fun ie => series list_sort (snd (snd ie)) (fst (snd ie)) (next_style (fst ie)))
    (combine (seq start (List.length all_scenarios)) all_scenarios).

(** The log ends with a call that raised [e], and that call is not
    [legend.draggable], whose exceptions the script catches. *)
Definition raised (mpl : matplotlib) (calls : list call) (e : exn) : Prop :=
  exists before c,
    calls = (before ++ [c])%list /\ raises mpl before c = Some e /\ c <> LegendDraggable.

(** What a drawing computation [m] does from the log [calls], when the
    [axes.plot] calls it is to make are [plots]: it makes them in order,
    all of them when it ends normally, and it fails only with the
    exception of the call it made last. *)
Definition follows (mpl : matplotlib) (m : M unit) (calls : list call)
    (plots : list call) : Prop :=
  exists r log n,
    m calls = (r, log)
    /\ (n <= List.length plots)%nat
    /\ plotted log = (plotted calls ++ firstn n plots)%list
    /\ (r = Ok tt -> n = List.length plots)
    /\ (forall e, r = Raise e -> raised mpl log e).

(** A length in inches that [plot.figure] refuses: a negative one, an
    infinity or a NaN. *)
Definition refused_length (x : B64.t) : bool :=
  match x with
  | B64.Fin q => B64.Qltb q 0
  | _ => true
  end.

(** A matplotlib at 100 dots per inch whose axes span 1 to 10 and 7 to
    49.  It refuses a figure with a negative or non-finite side, as
    matplotlib does, and its legend has no [draggable] method, as in the
    releases where only [set_draggable] is left. *)
Definition example_matplotlib : matplotlib :=
  {| figure_dpi := B64.Fin 100;
     get_ybound := fun _ => (B64.Fin 1, B64.Fin 10);
     get_xbound := fun _ => (B64.Fin 7, B64.Fin 49);
     raises := fun _ c =>
                 match c with
                 | PlotFigure (width, height) =>
                     if refused_length width || refused_length height
                     then Some ValueError else None
                 | LegendDraggable => Some (AttributeError "draggable")
                 | _ => None
                 end |}.

(** A scenario with two labels, stored out of order. *)
Definition example_scenario : list (float_object * triplet) :=
  [ (Own (B64.Fin 14), (B64.Fin 100, B64.Fin 120, B64.Fin 110));
    (Own (B64.Fin 7), (B64.Fin 200, B64.Fin 240, B64.Fin 220)) ].

End Plot.

(* ================================================================= *)
(** ** scripts/view_scatterplots_eurosys.py: the command line *)

Module Viewer.
Import Py Run Scatter Plot.

(** The file system as the script sees it: which paths are directories
    and which are files, what a glob pattern matches, and the parsed
    content of a result file (every listed file is taken to open and to
    hold a JSON object). *)
Record filesystem : Type := {
  isdir : string -> bool;
  isfile : string -> bool;
  glob : string -> list string;
  load : string -> plugin
}.

(** The parsed command line. *)
Record args : Type := {
  times_key : string;
  height : Z;
  width : Z;
  result_file_to_plot : list string
}.

(** What a run leaves behind: how it ended, the lines on standard output
    and on standard error, and the calls into matplotlib. *)
Record run : Type := {
  outcome : result unit;
  stdout : list event;
  stderr : list string;
  drawn : list call
}.

(** The loop over the positional arguments: the file names so far, or
    the exit with the line printed on standard error. *)
Fixpoint expand (fs : filesystem) (paths filenames : list string)
  : result (list string) * list string :=
  match paths with
  | [] => (Ok filenames, [])
  | f :: rest =>
      if isdir fs f then expand fs rest (filenames ++ glob fs (f ++ "/*.json"))%list
      else if isfile fs f then expand fs rest (filenames ++ [f])%list
      else (Raise (SystemExit 1),
            ["Input path '" ++ f ++ "' not found as valid file or directory."])
  end.

Section Library.
Variable float_of_str : string -> option B64.t.
Variable numpy_mean : list B64.t -> B64.t.
Variable list_sort : list key_object -> list key_object.

(** [show_plots], both halves: the file loop, then the figure. *)
Definition show_plots (fs : filesystem) (mpl : matplotlib) (filenames : list string)
    (times_key : string) (h w : Z) : result unit * list event * list call :=
  match Scatter.show_plots float_of_str numpy_mean
          (map (fun name => (name, load fs name)) filenames) times_key [] with
  | (Raise e, out) => (Raise e, out, [])
  | (Ok all_scenarios, out) =>
      let (r, calls) := draw list_sort mpl all_scenarios h w [] in (r, out, calls)
  end.

(** The block under [if __name__ == "__main__"], after [parse_args]. *)
Definition main (fs : filesystem) (mpl : matplotlib) (a : args) : run :=
  match expand fs (result_file_to_plot a) [] with
  | (Raise e, err) => {| outcome := Raise e; stdout := []; stderr := err; drawn := [] |}
  | (Ok filenames, err) =>
      let '(r, out, calls) :=
        show_plots fs mpl filenames (times_key a) (height a) (width a) in
      {| outcome := r; stdout := out; stderr := err; drawn := calls |}
  end.

End Library.

(** A path that is neither a directory nor a file. *)
Definition missing (fs : filesystem) (path : string) : Prop :=
  isdir fs path = false /\ isfile fs path = false.

(** A directory [./results] with three result files, and nothing else. *)
Definition example_filesystem : filesystem :=
  {| isdir := fun path => String.eqb path "./results";
     isfile := fun _ => false;
     glob := fun pattern =>
               if String.eqb pattern "./results/*.json"
               then ["./results/a.json"; "./results/b.json"; "./results/c.json"]
               else [];
     load := fun name =>
               if String.eqb name "./results/a.json" then third_file
               else if String.eqb name "./results/b.json" then first_file
               else second_file |}.

End Viewer.

(* ================================================================= *)
(** * Theorems *)

(** ** Strings and integers *)

Module PyFacts.
Import Py.

Lemma lower_char_idempotent (c : ascii) : lower_char (lower_char c) = lower_char c.
Proof. destruct c as [[] [] [] [] [] [] [] []]; reflexivity. Qed.

Lemma lower_idempotent (s : string) : lower (lower s) = lower s.
Proof.
  induction s as [|c s IH]; simpl; [reflexivity|].
  now rewrite lower_char_idempotent, IH.
Qed.

Lemma digit_value_hex_digit (d : Z) :
  0 <= d < 16 -> digit_value (hex_digit d) = Some d.
Proof.
  intros H.
  assert (E : d = 0 \/ d = 1 \/ d = 2 \/ d = 3 \/ d = 4 \/ d = 5 \/ d = 6 \/ d = 7
              \/ d = 8 \/ d = 9 \/ d = 10 \/ d = 11 \/ d = 12 \/ d = 13 \/ d = 14
              \/ d = 15) by lia.
  repeat (destruct E as [E|E]; [subst d; reflexivity|]).
  subst d; reflexivity.
Qed.

(** Parsing the digits [hex_digits] writes gives the number back. *)
Lemma int_digits_hex_digits (fuel : nat) :
  forall n acc a,
    0 <= n < 16 ^ Z.of_nat fuel ->
    exists k, 0 <= k /\
      int_digits 16 (hex_digits fuel n acc) a = int_digits 16 acc (a * 16 ^ k + n).
Proof.
  induction fuel as [|fuel IH]; intros n acc a Hn.
  - exists 0. split; [lia|]. simpl. f_equal. change (16 ^ Z.of_nat 0) with 1 in Hn. lia.
  - assert (Hpow : 16 ^ Z.of_nat (S fuel) = 16 * 16 ^ Z.of_nat fuel).
    { rewrite Nat2Z.inj_succ, Z.pow_succ_r by lia. reflexivity. }
    assert (Hd : 0 <= n mod 16 < 16) by (apply Z.mod_pos_bound; lia).
    assert (Hq : 0 <= n / 16 < 16 ^ Z.of_nat fuel).
    { split; [apply Z.div_pos; lia|]. apply Z.div_lt_upper_bound; lia. }
    pose proof (Z.div_mod n 16 ltac:(lia)) as Hdm.
    cbn [hex_digits]. destruct (n / 16 =? 0) eqn:Hz.
    + apply Z.eqb_eq in Hz. exists 1. split; [lia|].
      cbn [int_digits]. rewrite digit_value_hex_digit by exact Hd.
      replace (n mod 16 <? 16) with true by (symmetry; apply Z.ltb_lt; lia).
      f_equal. lia.
    + destruct (IH (n / 16) (String (hex_digit (n mod 16)) acc) a Hq) as [k [Hk E]].
      exists (k + 1). split; [lia|]. rewrite E.
      cbn [int_digits]. rewrite digit_value_hex_digit by exact Hd.
      replace (n mod 16 <? 16) with true by (symmetry; apply Z.ltb_lt; lia).
      f_equal. rewrite Z.pow_add_r by lia. lia.
Qed.

Lemma hex_digits_nonempty (fuel : nat) :
  forall n acc, (acc <> EmptyString \/ (0 < fuel)%nat) -> hex_digits fuel n acc <> EmptyString.
Proof.
  induction fuel as [|fuel IH]; intros n acc H; cbn [hex_digits].
  - destruct H as [H|H]; [exact H|lia].
  - destruct (n / 16 =? 0); [discriminate|]. apply IH. left. discriminate.
Qed.

Lemma hex_fuel_enough (n : Z) :
  0 <= n -> n < 16 ^ Z.of_nat (S (Z.to_nat (Z.log2 n))).
Proof.
  intros Hn. rewrite Nat2Z.inj_succ, Z2Nat.id by apply Z.log2_nonneg.
  destruct (Z.eq_dec n 0) as [->|Hnz]; [reflexivity|].
  pose proof (Z.log2_spec n ltac:(lia)) as [_ Hlt].
  eapply Z.lt_le_trans; [exact Hlt|].
  apply Z.pow_le_mono_l. lia.
Qed.

(** [int(hex(n), 16) == n] for every [n >= 0]. *)
Lemma int_hex (n : Z) : 0 <= n -> int (hex n) 16 = Ok n.
Proof.
  intros Hn. unfold hex.
  replace (n <? 0) with false by (symmetry; apply Z.ltb_ge; exact Hn).
  rewrite Z.abs_eq by exact Hn.
  set (fuel := S (Z.to_nat (Z.log2 n))).
  change (int (String "0" (String "x" (hex_digits fuel n ""))) 16 = Ok n).
  unfold int.
  change (strip_prefix 16 (String "0" (String "x" (hex_digits fuel n ""))))
    with (hex_digits fuel n "").
  destruct (int_digits_hex_digits fuel n "" 0 (conj Hn (hex_fuel_enough n Hn)))
    as [k [_ E]].
  pose proof (hex_digits_nonempty fuel n "" (or_intror (Nat.lt_0_succ _))) as Hne.
  destruct (hex_digits fuel n "") as [|c s] eqn:Ed; [contradiction|].
  rewrite E. cbn [int_digits]. f_equal.
Qed.

Lemma repeat_nat_one (k : nat) :
  repeat_nat "1" (S k) = String "1" (repeat_nat "1" k).
Proof. reflexivity. Qed.

Lemma int_digits_ones (k : nat) :
  forall acc, int_digits 2 (repeat_nat "1" k) acc
              = Some (acc * 2 ^ Z.of_nat k + (2 ^ Z.of_nat k - 1)).
Proof.
  induction k as [|k IH]; intros acc.
  - simpl. f_equal. lia.
  - rewrite repeat_nat_one. cbn [int_digits].
    change (digit_value "1") with (Some 1). cbv beta iota.
    change (1 <? 2) with true. cbv iota.
    rewrite IH. f_equal. rewrite Nat2Z.inj_succ, Z.pow_succ_r by lia. ring.
Qed.

(** [int("1" * n, 2) == 2 ** n - 1] for every [n > 0]. *)
Lemma int_ones (n : Z) : 0 < n -> int (str_mul "1" n) 2 = Ok (2 ^ n - 1).
Proof.
  intros Hn. unfold str_mul.
  destruct (Z.to_nat n) as [|k] eqn:Ek; [lia|].
  unfold int. rewrite repeat_nat_one. cbn [strip_prefix]. cbn match.
  rewrite <- repeat_nat_one, int_digits_ones.
  f_equal. rewrite <- Ek, Z2Nat.id by lia. lia.
Qed.

Lemma popcount_succ_double (n : Z) : 0 <= n -> popcount (2 * n + 1) = 1 + popcount n.
Proof. destruct n as [|p|p]; intros H; [reflexivity|reflexivity|lia]. Qed.

Lemma popcount_ones_nat (k : nat) : popcount (2 ^ Z.of_nat k - 1) = Z.of_nat k.
Proof.
  induction k as [|k IH]; [reflexivity|].
  rewrite Nat2Z.inj_succ, Z.pow_succ_r by lia.
  replace (2 * 2 ^ Z.of_nat k - 1) with (2 * (2 ^ Z.of_nat k - 1) + 1) by lia.
  rewrite popcount_succ_double, IH; [lia|].
  pose proof (Z.pow_pos_nonneg 2 (Z.of_nat k) ltac:(lia) ltac:(lia)). lia.
Qed.

Lemma popcount_ones (n : Z) : 0 <= n -> popcount (2 ^ n - 1) = n.
Proof.
  intros Hn. rewrite <- (Z2Nat.id n Hn) at 1. rewrite popcount_ones_nat. lia.
Qed.

Lemma testbit_ones (n i : Z) :
  0 <= n -> 0 <= i -> Z.testbit (2 ^ n - 1) i = (i <? n).
Proof.
  intros Hn Hi. rewrite Z.sub_1_r, <- Z.ones_equiv.
  destruct (i <? n) eqn:E.
  - apply Z.ltb_lt in E. apply Z.ones_spec_low. lia.
  - apply Z.ltb_ge in E. apply Z.ones_spec_high. lia.
Qed.

Example str_examples :
  str 5 = "5" /\ str 0 = "0" /\ str (-12) = "-12" /\ str 8192 = "8192".
Proof. repeat split; reflexivity. Qed.

Example hex_examples :
  hex 31 = "0x1f" /\ hex 0 = "0x0" /\ hex 255 = "0xff" /\ hex (-26) = "-0x1a"
  /\ hex 4096 = "0x1000" /\ hex (2 ^ 54 - 1) = "0x3fffffffffffff".
Proof. repeat split; reflexivity. Qed.

Example int_examples :
  int "11111" 2 = Ok 31 /\ int "0x1f" 16 = Ok 31 /\ int "0b101" 2 = Ok 5
  /\ int "" 2 = Raise ValueError /\ int "12" 2 = Raise ValueError
  /\ int (str_mul "1" 0) 2 = Raise ValueError /\ int (str_mul "1" (-3)) 2 = Raise ValueError.
Proof. repeat split; reflexivity. Qed.

Example lower_examples :
  lower "MPS" = "mps" /\ lower "libSMctrl" = "libsmctrl" /\ lower "m-1[g@Z" = "m-1[g@z".
Proof. repeat split; reflexivity. Qed.

Example range_examples : range 3 6 = [3; 4; 5] /\ range 4 4 = [] /\ range 5 2 = [].
Proof. repeat split; reflexivity. Qed.

(** Wait statuses: exit code 6, exit code 0, killed by signal 9. *)
Example wait_status_examples :
  WIFEXITED 1536 = true /\ WEXITSTATUS 1536 = 6
  /\ WIFEXITED 0 = true /\ WEXITSTATUS 0 = 0
  /\ WIFEXITED 9 = false.
Proof. repeat split; reflexivity. Qed.

End PyFacts.

(** ** Dictionaries *)

Module DictFacts.
Import Dict.

Section Facts.
Context {K V : Type} (keq : K -> K -> bool).
Hypothesis keq_sym : forall a b, keq a b = true -> keq b a = true.
Hypothesis keq_trans : forall a b c, keq a b = true -> keq b c = true -> keq a c = true.

Lemma get_set_same (k : K) (v : V) (d : list (K * V)) :
  keq k k = true -> get keq k (set keq k v d) = Some v.
Proof.
  intros Hk. induction d as [|[k' v'] d IH]; cbn.
  - now rewrite Hk.
  - destruct (keq k' k) eqn:E; cbn; rewrite E; auto.
Qed.

Lemma get_set_other (k k0 : K) (v : V) (d : list (K * V)) :
  keq k k0 = false -> get keq k0 (set keq k v d) = get keq k0 d.
Proof.
  intros Hk. induction d as [|[k' v'] d IH]; cbn.
  - now rewrite Hk.
  - destruct (keq k' k) eqn:E; cbn.
    + destruct (keq k' k0) eqn:E0; [|reflexivity].
      rewrite (keq_trans k k' k0 (keq_sym _ _ E) E0) in Hk. discriminate.
    + now rewrite IH.
Qed.

Lemma count_cons (k0 k' : K) (v' : V) (d : list (K * V)) :
  count keq k0 ((k', v') :: d) = ((if keq k' k0 then 1 else 0) + count keq k0 d)%nat.
Proof. unfold count. cbn. now destruct (keq k' k0). Qed.

Lemma count_set (k k0 : K) (v : V) (d : list (K * V)) :
  count keq k0 (set keq k v d)
  = if mem keq k d then count keq k0 d
    else (count keq k0 d + (if keq k k0 then 1 else 0))%nat.
Proof.
  unfold mem. induction d as [|[k' v'] d IH].
  - cbn [set get]. rewrite count_cons. unfold count. cbn. lia.
  - cbn [set get]. destruct (keq k' k) eqn:E.
    + now rewrite !count_cons.
    + rewrite !count_cons, IH. destruct (get keq k d); lia.
Qed.

Lemma count_absent (k k0 : K) (d : list (K * V)) :
  mem keq k d = false -> keq k k0 = true -> count keq k0 d = 0%nat.
Proof.
  unfold mem. intros Hm Hk. induction d as [|[k' v'] d IH]; [reflexivity|].
  cbn [get] in Hm. destruct (keq k' k) eqn:E; [discriminate|].
  rewrite count_cons, (IH Hm).
  destruct (keq k' k0) eqn:E0; [|reflexivity].
  rewrite (keq_trans k' k0 k E0 (keq_sym _ _ Hk)) in E. discriminate.
Qed.

Lemma unique_set (k : K) (v : V) (d : list (K * V)) :
  unique keq d -> unique keq (set keq k v d).
Proof.
  intros Hu k0. rewrite count_set. destruct (mem keq k d) eqn:Hm; [apply Hu|].
  destruct (keq k k0) eqn:Hk.
  - rewrite (count_absent k k0 d Hm Hk). lia.
  - specialize (Hu k0). lia.
Qed.

Lemma unique_nil : unique keq (@nil (K * V)).
Proof. intros k. cbn. lia. Qed.

Lemma get_count (k : K) (v : V) (d : list (K * V)) :
  get keq k d = Some v -> (1 <= count keq k d)%nat.
Proof.
  induction d as [|[k' v'] d IH]; cbn [get]; [discriminate|].
  rewrite count_cons. destruct (keq k' k); [lia|]. intros H. specialize (IH H). lia.
Qed.

(** After [d[k] = v] the key [k] is stored exactly once, with [v]. *)
Lemma set_stores_once (k : K) (v : V) (d : list (K * V)) :
  keq k k = true -> unique keq d ->
  get keq k (set keq k v d) = Some v /\ count keq k (set keq k v d) = 1%nat.
Proof.
  intros Hk Hu. pose proof (get_set_same k v d Hk) as Hg.
  split; [exact Hg|].
  pose proof (get_count _ _ _ Hg). pose proof (unique_set k v d Hu k). lia.
Qed.

Lemma in_set (k k' : K) (v v' : V) (d : list (K * V)) :
  In (k', v') (set keq k v d) -> v' = v \/ In (k', v') d.
Proof.
  induction d as [|[k0 v0] d IH]; cbn [set].
  - intros [E|[]]. inversion E. now left.
  - destruct (keq k0 k).
    + intros [E|H]; [inversion E; now left|right; now right].
    + intros [E|H]; [right; now left|].
      destruct (IH H) as [->|Hin]; [now left|right; now right].
Qed.

Lemma get_in (k : K) (v : V) (d : list (K * V)) :
  get keq k d = Some v -> exists k', In (k', v) d.
Proof.
  induction d as [|[k0 v0] d IH]; cbn [get]; [discriminate|].
  destruct (keq k0 k).
  - intros E. inversion E. exists k0. now left.
  - intros H. destruct (IH H) as [k' Hin]. exists k'. now right.
Qed.

Lemma unique_get_count (k : K) (v : V) (d : list (K * V)) :
  unique keq d -> get keq k d = Some v -> count keq k d = 1%nat.
Proof.
  intros Hu Hg. pose proof (get_count k v d Hg). specialize (Hu k). lia.
Qed.

Lemma in_count (k k' : K) (v' : V) (d : list (K * V)) :
  In (k', v') d -> keq k' k = true -> (1 <= count keq k d)%nat.
Proof.
  induction d as [|[k0 v0] d IH]; intros Hin Hk; [destruct Hin|].
  rewrite count_cons. destruct Hin as [E|Hin].
  - inversion E; subst. rewrite Hk. lia.
  - specialize (IH Hin Hk). lia.
Qed.

(** Under a key stored once, every entry with an equal key is the one
    [get] finds. *)
Lemma unique_in_get (k k' : K) (v v' : V) (d : list (K * V)) :
  unique keq d -> get keq k d = Some v -> In (k', v') d -> keq k' k = true -> v' = v.
Proof.
  induction d as [|[k0 v0] d IH]; intros Hu Hg Hin Hk; [destruct Hin|].
  pose proof (Hu k) as Hc. rewrite count_cons in Hc.
  cbn [get] in Hg. destruct (keq k0 k) eqn:E0.
  - inversion Hg; subst v0. destruct Hin as [E|Hin]; [now inversion E|].
    pose proof (in_count k k' v' d Hin Hk). lia.
  - destruct Hin as [E|Hin]; [inversion E; subst; congruence|].
    apply IH; try assumption.
    intros k1. specialize (Hu k1). rewrite count_cons in Hu. lia.
Qed.

End Facts.

Lemma string_eqb_sym (a b : string) : String.eqb a b = true -> String.eqb b a = true.
Proof. intros H. apply String.eqb_eq in H. subst. apply String.eqb_refl. Qed.

Lemma string_eqb_trans (a b c : string) :
  String.eqb a b = true -> String.eqb b c = true -> String.eqb a c = true.
Proof. intros H1 H2. apply String.eqb_eq in H1, H2. subst. apply String.eqb_refl. Qed.

Lemma b64_eqb_sym (a b : B64.t) : B64.eqb a b = true -> B64.eqb b a = true.
Proof.
  destruct a, b; cbn; try discriminate.
  - intros H. apply Qeq_bool_iff in H. apply Qeq_bool_iff. now symmetry.
  - intros H. apply Bool.eqb_prop in H. subst. apply Bool.eqb_reflx.
Qed.

Lemma b64_eqb_trans (a b c : B64.t) :
  B64.eqb a b = true -> B64.eqb b c = true -> B64.eqb a c = true.
Proof.
  destruct a, b, c; cbn; try discriminate.
  - intros H1 H2. apply Qeq_bool_iff in H1, H2. apply Qeq_bool_iff.
    now rewrite H1.
  - intros H1 H2. apply Bool.eqb_prop in H1, H2. subst. apply Bool.eqb_reflx.
Qed.

End DictFacts.

(** ** Binary64 rounding *)

Module B64Facts.
Import B64.
Local Open Scope Q_scope.

Lemma round_half_even_error (q : Q) :
  Qabs (inject_Z (round_half_even q) - q) <= 1 # 2.
Proof.
  unfold round_half_even.
  pose proof (Qfloor_le q) as Hlo. pose proof (Qlt_floor q) as Hhi.
  rewrite inject_Z_plus in Hhi. change (inject_Z 1) with 1 in Hhi.
  apply Qabs_Qle_condition.
  destruct (Qcompare (q - inject_Z (Qfloor q)) (1 # 2)) eqn:E.
  - apply Qeq_alt in E.
    destruct (Z.even (Qfloor q));
      [|rewrite inject_Z_plus; change (inject_Z 1) with 1]; lra.
  - apply Qlt_alt in E. lra.
  - apply Qgt_alt in E. rewrite inject_Z_plus. change (inject_Z 1) with 1. lra.
Qed.

Lemma two_pow_pos (e : Z) : 0 < 2 ^ e.
Proof. apply Qpower_0_lt. reflexivity. Qed.

Lemma two_pow_mono (n m : Z) : (n <= m)%Z -> 2 ^ n <= 2 ^ m.
Proof. intros H. apply Qpower_le_compat_l; [exact H|discriminate]. Qed.

(** [ilog2] never overshoots. *)
Lemma ilog2_lower (q : Q) : 0 < q -> 2 ^ ilog2 q <= q.
Proof.
  intros Hq. unfold ilog2.
  set (c := (Z.log2 (Qnum q) - Z.log2 (Z.pos (Qden q)))%Z).
  destruct (Qle_bool (2 ^ c) q) eqn:E; [apply Qle_bool_iff; exact E|].
  destruct q as [n d]. cbn [Qnum Qden] in c.
  assert (Hn : (0 < n)%Z) by (unfold Qlt in Hq; cbn in Hq; lia).
  pose proof (Z.log2_spec n Hn) as [Hn1 _].
  pose proof (Z.log2_spec (Z.pos d) ltac:(lia)) as [_ Hd2].
  pose proof (Z.log2_nonneg n) as Hln. pose proof (Z.log2_nonneg (Z.pos d)) as Hld.
  assert (Hc : (c - 1 = Z.log2 n - Z.succ (Z.log2 (Z.pos d)))%Z) by (unfold c; lia).
  rewrite Hc, Qpower_minus by discriminate.
  rewrite <- (Zpower_Qpower 2 (Z.log2 n)) by exact Hln.
  rewrite <- (Zpower_Qpower 2 (Z.succ (Z.log2 (Z.pos d)))) by lia.
  set (A := (2 ^ Z.log2 n)%Z) in *. set (B := (2 ^ Z.succ (Z.log2 (Z.pos d)))%Z) in *.
  assert (HB : (0 < B)%Z) by lia.
  apply Qle_shift_div_r; [change 0 with (inject_Z 0); rewrite <- Zlt_Qlt; exact HB|].
  unfold Qle, Qmult, inject_Z; cbn.
  nia.
Qed.

Lemma ilog2_upper_bound (q : Q) (b : Z) : 0 < q -> q < 2 ^ b -> (ilog2 q < b)%Z.
Proof.
  intros Hq Hb.
  apply Qpower_lt_compat_l_inv with (q := 2); [|reflexivity].
  eapply Qle_lt_trans; [apply ilog2_lower; exact Hq|exact Hb].
Qed.

(** The binary logarithm is exact: [q] lies below the next power of two. *)
Lemma ilog2_upper (q : Q) : 0 < q -> q < 2 ^ (ilog2 q + 1).
Proof.
  intros Hq. unfold ilog2.
  set (c := (Z.log2 (Qnum q) - Z.log2 (Z.pos (Qden q)))%Z).
  destruct (Qle_bool (2 ^ c) q) eqn:E.
  - destruct q as [n d]. cbn [Qnum Qden] in c.
    assert (Hn : (0 < n)%Z) by (unfold Qlt in Hq; cbn in Hq; lia).
    pose proof (Z.log2_spec n Hn) as [_ Hn2].
    pose proof (Z.log2_spec (Z.pos d) ltac:(lia)) as [Hd1 _].
    pose proof (Z.log2_nonneg n) as Hln. pose proof (Z.log2_nonneg (Z.pos d)) as Hld.
    assert (Hc : (c + 1 = Z.succ (Z.log2 n) - Z.log2 (Z.pos d))%Z) by (unfold c; lia).
    rewrite Hc, Qpower_minus by discriminate.
    rewrite <- (Zpower_Qpower 2 (Z.succ (Z.log2 n))) by lia.
    rewrite <- (Zpower_Qpower 2 (Z.log2 (Z.pos d))) by exact Hld.
    set (A := (2 ^ Z.succ (Z.log2 n))%Z) in *. set (B := (2 ^ Z.log2 (Z.pos d))%Z) in *.
    assert (HB : (0 < B)%Z) by (unfold B; apply Z.pow_pos_nonneg; lia).
    apply Qlt_shift_div_l; [change 0 with (inject_Z 0); rewrite <- Zlt_Qlt; exact HB|].
    unfold Qlt, Qmult, inject_Z; cbn.
    nia.
  - replace (c - 1 + 1)%Z with c by lia.
    apply Qnot_le_lt. intros H. apply Qle_bool_iff in H. congruence.
Qed.

(** Scaled by the exponent of its last place, a number has at most 53
    bits before the point, and exactly 53 unless it is subnormal: [rnd]
    rounds to 53 significant bits. *)
Lemma scaled_significand (q : Q) :
  ~ q == 0 ->
  Qabs (q / 2 ^ exponent q) < 2 ^ 53
  /\ ((-1074 < exponent q)%Z -> 2 ^ 52 <= Qabs (q / 2 ^ exponent q)).
Proof.
  intros Hnz.
  assert (Hpos : 0 < Qabs q).
  { pose proof (Qabs_nonneg q) as H0. apply Qle_lteq in H0. destruct H0 as [H0|H0]; [exact H0|].
    exfalso. apply Hnz. revert H0. apply Qabs_case; intros ? H0; lra. }
  pose proof (ilog2_lower _ Hpos) as Hlo. pose proof (ilog2_upper _ Hpos) as Hhi.
  unfold exponent. set (l := ilog2 (Qabs q)) in *.
  set (e := Z.max (l - 52) (-1074)).
  pose proof (two_pow_pos e) as He.
  assert (Habs : Qabs (q / 2 ^ e) == Qabs q / 2 ^ e).
  { unfold Qdiv. rewrite Qabs_Qmult. rewrite (Qabs_pos (/ 2 ^ e)); [reflexivity|].
    apply Qlt_le_weak, Qinv_lt_0_compat, He. }
  rewrite Habs. split.
  - apply Qlt_shift_div_r; [exact He|].
    rewrite <- Qpower_plus by discriminate.
    eapply Qlt_le_trans; [exact Hhi|]. apply two_pow_mono. lia.
  - intros Hsub. apply Qle_shift_div_l; [exact He|].
    rewrite <- Qpower_plus by discriminate.
    eapply Qle_trans; [|exact Hlo]. apply two_pow_mono. lia.
Qed.

Lemma rnd_zero (q : Q) : q == 0 -> rnd q = 0.
Proof. intros H. unfold rnd. apply Qeq_bool_iff in H. now rewrite H. Qed.

Lemma rnd_nonzero (q : Q) :
  ~ q == 0 ->
  rnd q == inject_Z (round_half_even (q / 2 ^ exponent q)) * 2 ^ exponent q.
Proof.
  intros H. unfold rnd. destruct (Qeq_bool q 0) eqn:E.
  - apply Qeq_bool_iff in E. contradiction.
  - apply Qred_correct.
Qed.

(** The rounding error is at most half a unit in the last place. *)
Lemma rnd_error (q : Q) (e : Z) :
  (exponent q <= e)%Z -> Qabs (rnd q - q) <= 2 ^ e * (1 # 2).
Proof.
  intros He. pose proof (two_pow_pos e) as Hpe.
  destruct (Qeq_dec q 0) as [Hz|Hnz].
  - rewrite (rnd_zero q Hz). apply Qabs_Qle_condition. lra.
  - rewrite (rnd_nonzero q Hnz).
    pose proof (two_pow_pos (exponent q)) as Hp.
    pose proof (two_pow_mono _ _ He) as Hm.
    pose proof (round_half_even_error (q / 2 ^ exponent q)) as Hr.
    apply Qabs_Qle_condition in Hr.
    set (P := 2 ^ exponent q) in *. set (m := inject_Z (round_half_even (q / P))) in *.
    assert (Hq : q == (q / P) * P) by (field; lra).
    set (x := q / P) in *.
    apply Qabs_Qle_condition. split; nra.
Qed.

Lemma exponent_small (q : Q) : ~ q == 0 -> Qabs q < 128 -> (exponent q <= -46)%Z.
Proof.
  intros Hnz Hq. unfold exponent.
  assert (Hpos : 0 < Qabs q).
  { pose proof (Qabs_nonneg q) as H0. apply Qle_lteq in H0. destruct H0 as [H0|H0]; [exact H0|].
    exfalso. apply Hnz. revert H0. apply Qabs_case; intros ? H0; lra. }
  pose proof (ilog2_upper_bound (Qabs q) 7 Hpos Hq). lia.
Qed.

(** Below 128 the rounding error is at most [2 ^ -47]. *)
Lemma rnd_near (q : Q) : Qabs q < 128 -> Qabs (rnd q - q) <= 1 # 140737488355328.
Proof.
  intros Hq. destruct (Qeq_dec q 0) as [Hz|Hnz].
  - rewrite (rnd_zero q Hz). apply Qabs_Qle_condition. lra.
  - apply (rnd_error q (-46)). apply exponent_small; assumption.
Qed.

Lemma of_Q_small (q : Q) : Qabs q < 128 -> of_Q q = Fin (rnd q).
Proof.
  intros Hq. unfold of_Q.
  destruct (Qle_bool (2 ^ 1024) (Qabs (rnd q))) eqn:E; [|reflexivity].
  exfalso. apply Qle_bool_iff in E.
  assert (Hbig : 129 <= 2 ^ 1024) by (apply Qle_bool_iff; vm_compute; reflexivity).
  pose proof (rnd_near q Hq) as Hr.
  apply Qabs_Qle_condition in Hr. apply Qabs_Qlt_condition in Hq.
  set (big := 2 ^ 1024) in *.
  revert E. apply Qabs_case; intros; lra.
Qed.

(** The arithmetic of [B64] gives the results of the kernel's primitive
    binary64 floats: quotients, sums and products that round, overflow
    to infinity, infinity minus infinity, and halves of the smallest
    subnormal. *)
Example binary64_matches_kernel :
  of_prim (1 / 10000)%float = of_Q (1 # 10000)
  /\ Py.Ok (of_prim (200 / 3)%float) = true_div 200 3
  /\ Py.Ok (of_prim (-7 / 3)%float) = true_div (-7) 3
  /\ of_prim (200 / 3 + 1 / 10000)%float
     = add (of_prim (200 / 3)%float) (of_prim (1 / 10000)%float)
  /\ of_prim (1002 / 1000)%float = of_Q (1002 # 1000)
  /\ of_prim (1002 / 1000 - 1)%float = sub (of_Q (1002 # 1000)) (Fin 1)
  /\ of_prim ((1002 / 1000 - 1) * 1000)%float
     = mul (sub (of_Q (1002 # 1000)) (Fin 1)) (Fin 1000)
  /\ of_prim (0x1p1023 * 2)%float = mul (of_prim 0x1p1023%float) (Fin 2)
  /\ of_prim (0x1p1023 * 2 - 0x1p1023 * 2)%float = sub (Inf false) (Inf false)
  /\ of_prim (0x1p-1074 / 2)%float = of_Q (2 ^ (-1075))
  /\ of_prim (0x1p-1074 * 3 / 2)%float = of_Q (3 * 2 ^ (-1075))
  /\ of_prim (9007199254740992 + 1)%float = add (Fin 9007199254740992) (Fin 1)
  /\ of_prim (9007199254740994 + 1)%float = add (Fin 9007199254740994) (Fin 1).
Proof. repeat split; vm_compute; reflexivity. Qed.

(** [round]: 66.66676666666667 to 66.6668, the tie 0.03125 to the even
    0.0312, 2.5 to 2, 100.0001 unchanged. *)
Example round_examples :
  round (of_prim (200 / 3 + 1 / 10000)%float) 4 = of_Q (666668 # 10000)
  /\ round (Fin (1 # 32)) 4 = of_Q (312 # 10000)
  /\ round (Fin (5 # 2)) 0 = Fin 2
  /\ round (of_Q (1000001 # 10000)) 4 = of_Q (1000001 # 10000)
  /\ round (Inf false) 4 = Inf false.
Proof. repeat split; vm_compute; reflexivity. Qed.

End B64Facts.

(** ** The sweep driver *)

Module GranularityFacts.
Import Py Run Granularity.

Lemma benchmark_setting_overall (device iterations : Z) (part_method key : string)
    (plugin_config : list (string * json)) :
  benchmark_setting key (overall_config device part_method iterations plugin_config)
  = Dict.get String.eqb key plugin_config.
Proof. reflexivity. Qed.

Lemma top_field_overall (device iterations : Z) (m m' key : string)
    (pc pc' : list (string * json)) :
  key <> "name" -> key <> "benchmarks" ->
  top_field key (overall_config device m iterations pc)
  = top_field key (overall_config device m' iterations pc').
Proof.
  intros H1 H2. unfold overall_config, top_field. cbn [Dict.get].
  replace ("name" =? key)%string with false
    by (symmetry; apply String.eqb_neq; congruence).
  replace ("benchmarks" =? key)%string with false
    by (symmetry; apply String.eqb_neq; congruence).
  reflexivity.
Qed.

Lemma setting_after_set (device iterations active_tpcs : Z) (part_method key : string)
    (v : json) :
  benchmark_setting key
    (overall_config device part_method iterations
       (Dict.set String.eqb key v (plugin_config_init part_method active_tpcs)))
  = Some v.
Proof.
  rewrite benchmark_setting_overall. apply DictFacts.get_set_same. apply String.eqb_refl.
Qed.

Local Open Scope Z_scope.

(** C1.  For every positive number of active TPCs, [generate_config]
    with method "libsmctrl" succeeds without touching the outside and
    stores under [sm_mask] the character [~] followed by a hexadecimal
    literal [0x...]; read back, the literal is a number with exactly
    [active_tpcs] set bits, which are the [active_tpcs] lowest ones.
    For five active TPCs the literal is [0x1f], the mask [~0x1f]. *)
Theorem C1_libsmctrl_mask (w : world) (device total_tpcs active_tpcs iterations : Z)
    (tr : list event) :
  0 < active_tpcs ->
  exists config literal digits value,
    generate_config w device "libsmctrl" total_tpcs active_tpcs iterations tr
    = (Ok config, tr)
    /\ benchmark_setting "sm_mask" config = Some (JStr ("~" ++ literal))
    /\ literal = "0x" ++ digits
    /\ int literal 16 = Ok value
    /\ popcount value = active_tpcs
    /\ (forall i, 0 <= i -> Z.testbit value i = (i <? active_tpcs))
    /\ (active_tpcs = 5 -> literal = "0x1f").
Proof.
  intros Ha.
  assert (Hv : 0 <= 2 ^ active_tpcs - 1).
  { pose proof (Z.pow_pos_nonneg 2 active_tpcs ltac:(lia) ltac:(lia)). lia. }
  set (value := 2 ^ active_tpcs - 1) in *.
  exists (overall_config device "libsmctrl" iterations
            (Dict.set String.eqb "sm_mask" (JStr ("~" ++ hex value))
               (plugin_config_init "libsmctrl" active_tpcs))).
  exists (hex value).
  exists (hex_digits (S (Z.to_nat (Z.log2 value))) value "").
  exists value.
  split.
  { unfold generate_config, partition.
    change (lower "libsmctrl" =? "mps")%string with false.
    change (lower "libsmctrl" =? "libsmctrl")%string with true. cbv iota.
    unfold bind, lift, ret. rewrite (PyFacts.int_ones active_tpcs Ha). reflexivity. }
  split; [apply setting_after_set|].
  split.
  { unfold hex. replace (value <? 0) with false by (symmetry; apply Z.ltb_ge; exact Hv).
    rewrite Z.abs_eq by exact Hv. reflexivity. }
  split; [apply PyFacts.int_hex; exact Hv|].
  split; [apply PyFacts.popcount_ones; lia|].
  split; [intros i Hi; apply PyFacts.testbit_ones; lia|].
  intros E. unfold value. rewrite E. reflexivity.
Qed.

Lemma C1_libsmctrl_mask_witness :
  exists config literal digits value,
    generate_config example_world 0 "libsmctrl" 54 5 10 [] = (Ok config, [])
    /\ benchmark_setting "sm_mask" config = Some (JStr ("~" ++ literal))
    /\ literal = "0x" ++ digits
    /\ int literal 16 = Ok value
    /\ popcount value = 5
    /\ (forall i, 0 <= i -> Z.testbit value i = (i <? 5))
    /\ (5 = 5 -> literal = "0x1f").
Proof. apply (C1_libsmctrl_mask example_world 0 54 5 10 []). lia. Defined.

Lemma epsilon_value :
  epsilon = B64.Fin (7378697629483821 # 73786976294838206464).
Proof. vm_compute. reflexivity. Qed.

Local Open Scope Q_scope.

Lemma true_div_small (a b : Z) :
  b <> 0%Z -> Qabs (inject_Z a / inject_Z b) < 128 ->
  B64.true_div a b = Ok (B64.Fin (B64.rnd (inject_Z a / inject_Z b))).
Proof.
  intros Hb Hq. unfold B64.true_div.
  replace (b =? 0)%Z with false by (symmetry; apply Z.eqb_neq; exact Hb).
  now rewrite B64Facts.of_Q_small.
Qed.

Lemma percentage_exact_bounds (active_tpcs total_tpcs : Z) :
  (0 < active_tpcs <= total_tpcs)%Z ->
  0 < inject_Z (100 * active_tpcs) / inject_Z total_tpcs <= 100.
Proof.
  intros [Ha Ht].
  assert (Htq : 0 < inject_Z total_tpcs).
  { change 0 with (inject_Z 0). rewrite <- Zlt_Qlt. lia. }
  split.
  - apply Qlt_shift_div_l; [exact Htq|]. rewrite Qmult_0_l.
    change 0 with (inject_Z 0). rewrite <- Zlt_Qlt. lia.
  - apply Qle_shift_div_r; [exact Htq|].
    change 100 with (inject_Z 100). rewrite <- inject_Z_mult, <- Zle_Qle. lia.
Qed.

(** C2, amended.  For every pair with [0 < active_tpcs <= total_tpcs],
    [generate_config] with method "mps" succeeds and stores under
    [mps_thread_percentage] either the integer 100 or the binary64 nearest
    to a multiple of 0.0001; the stored value is never below the exact
    [100 * active_tpcs / total_tpcs], exceeds it by at most 0.00015 (one
    and a half epsilon) and, unless it is the cap 100, by at least 0.00005
    (half an epsilon), both up to a rounding slack of 1e-13, and it never
    exceeds 100. *)
Theorem C2_mps_percentage (w : world) (device total_tpcs active_tpcs iterations : Z)
    (tr : list event) :
  (0 < active_tpcs <= total_tpcs)%Z ->
  exists config v q,
    generate_config w device "mps" total_tpcs active_tpcs iterations tr = (Ok config, tr)
    /\ benchmark_setting "mps_thread_percentage" config = Some v
    /\ (v = JInt 100 \/ exists k, v = JFloat (B64.of_Q (inject_Z k / 10 ^ 4)))
    /\ number_value v = Some q
    /\ inject_Z (100 * active_tpcs) / inject_Z total_tpcs <= q
    /\ q <= inject_Z (100 * active_tpcs) / inject_Z total_tpcs + (3 # 20000) + (1 # 10 ^ 13)
    /\ (v = JInt 100
        \/ inject_Z (100 * active_tpcs) / inject_Z total_tpcs + (1 # 20000) - (1 # 10 ^ 13)
           <= q)
    /\ q <= 100.
Proof.
  intros Hat.
  pose proof (percentage_exact_bounds _ _ Hat) as Hp.
  set (p := inject_Z (100 * active_tpcs) / inject_Z total_tpcs) in *.
  (* the quotient *)
  assert (Hdiv : B64.true_div (100 * active_tpcs) total_tpcs = Ok (B64.Fin (B64.rnd p))).
  { apply true_div_small; [lia|]. apply Qabs_Qlt_condition. fold p. lra. }
  pose proof (B64Facts.rnd_near p ltac:(apply Qabs_Qlt_condition; lra)) as Hd.
  apply Qabs_Qle_condition in Hd.
  set (d := B64.rnd p) in *.
  (* plus epsilon *)
  set (e0 := 7378697629483821 # 73786976294838206464).
  assert (He0 : (1 # 10000) <= e0 <= (1 # 10000) + (1 # 100000000000000000000)).
  { split; apply Qle_bool_iff; vm_compute; reflexivity. }
  assert (Hadd : B64.add (B64.Fin d) epsilon = B64.Fin (B64.rnd (d + e0))).
  { rewrite epsilon_value. cbn [B64.add]. fold e0.
    apply B64Facts.of_Q_small. apply Qabs_Qlt_condition. lra. }
  pose proof (B64Facts.rnd_near (d + e0) ltac:(apply Qabs_Qlt_condition; lra)) as Hx.
  apply Qabs_Qle_condition in Hx.
  set (x := B64.rnd (d + e0)) in *.
  (* rounded to four places *)
  pose proof (B64Facts.round_half_even_error (x * 10 ^ 4)) as Hk.
  apply Qabs_Qle_condition in Hk.
  set (k := B64.round_half_even (x * 10 ^ 4)) in *.
  assert (H104 : 10 ^ 4 == 10000) by reflexivity.
  rewrite H104 in Hk.
  set (K := inject_Z k / 10 ^ 4).
  assert (Hkq : K == inject_Z k * (1 # 10000)).
  { unfold K. rewrite H104. field. }
  assert (HK : Qabs K < 128) by (apply Qabs_Qlt_condition; lra).
  assert (Hround : B64.round (B64.Fin x) 4 = B64.Fin (B64.rnd K)).
  { cbn [B64.round]. fold k. fold K. apply B64Facts.of_Q_small. exact HK. }
  pose proof (B64Facts.rnd_near K HK) as Hr.
  apply Qabs_Qle_condition in Hr.
  set (r := B64.rnd K) in *.
  set (v := min_100 (B64.Fin r)).
  exists (overall_config device "mps" iterations
            (Dict.set String.eqb "mps_thread_percentage" v
               (plugin_config_init "mps" active_tpcs))).
  exists v. exists (if B64.Qltb r 100 then r else 100).
  split.
  { unfold generate_config, partition.
    change (lower "mps" =? "mps")%string with true. cbv iota.
    unfold bind, lift, ret. rewrite Hdiv. cbv beta iota.
    rewrite Hadd, Hround. reflexivity. }
  split; [apply setting_after_set|].
  assert (Hbig : (1 # 10 ^ 13) == 1 # 10000000000000) by reflexivity.
  unfold v, min_100, B64.lt_int. change (inject_Z 100) with 100.
  unfold B64.Qltb. destruct (Qle_bool 100 r) eqn:E; cbn [negb].
  - apply Qle_bool_iff in E.
    split; [left; reflexivity|]. split; [reflexivity|]. rewrite Hbig.
    split; [lra|]. split; [lra|]. split; [left; reflexivity|lra].
  - assert (E' : r < 100).
    { apply Qnot_le_lt. intros H. apply Qle_bool_iff in H. congruence. }
    split; [right; exists k; fold K; rewrite (B64Facts.of_Q_small K HK); reflexivity|].
    split; [reflexivity|]. rewrite Hbig.
    split; [lra|]. split; [lra|]. split; [right; lra|lra].
Qed.

Lemma C2_mps_percentage_witness :
  exists config v q,
    generate_config example_world 0 "mps" 54 5 10 [] = (Ok config, [])
    /\ benchmark_setting "mps_thread_percentage" config = Some v
    /\ (v = JInt 100 \/ exists k, v = JFloat (B64.of_Q (inject_Z k / 10 ^ 4)))
    /\ number_value v = Some q
    /\ (inject_Z (100 * 5) / inject_Z 54 <= q)%Q
    /\ (q <= inject_Z (100 * 5) / inject_Z 54 + (3 # 20000) + (1 # 10 ^ 13))%Q
    /\ (v = JInt 100
        \/ (inject_Z (100 * 5) / inject_Z 54 + (1 # 20000) - (1 # 10 ^ 13) <= q)%Q)
    /\ (q <= 100)%Q.
Proof. apply (C2_mps_percentage example_world 0 54 5 10 []). lia. Defined.

Lemma C2_counterexample :
  exists config q,
    generate_config example_world 0 "mps" 3 2 10 [] = (Ok config, [])
    /\ benchmark_setting "mps_thread_percentage" config = Some (JFloat (B64.Fin q))
    /\ q = (2345629497171745 # 35184372088832)%Q
    /\ ~ (Qabs (q - inject_Z (100 * 2) / inject_Z 3) <= 1 # 10000)%Q.
Proof.
  eexists _, _. split; [vm_compute; reflexivity|].
  split; [vm_compute; reflexivity|]. split; [reflexivity|].
  intros H. apply Qle_bool_iff in H. vm_compute in H. discriminate H.
Qed.

Local Open Scope Z_scope.

Lemma mig_lookup_fails (active_tpcs : Z) :
  ~ In active_tpcs [7; 14; 21; 28; 49] ->
  MIG_CONFIGS_getitem active_tpcs = Raise (KeyError (str active_tpcs)).
Proof.
  intros H. unfold MIG_CONFIGS_getitem, MIG_CONFIGS. cbn [Dict.get].
  repeat match goal with
         | |- context [?k =? active_tpcs] =>
             replace (k =? active_tpcs) with false
               by (symmetry; apply Z.eqb_neq; intros E; apply H; rewrite <- E; cbn; tauto)
         end.
  reflexivity.
Qed.

(** C3.  For every number of active TPCs outside 7, 14, 21, 28 and 49,
    [generate_config] with method "mig" raises, after the one command
    that lists the instance profiles and before any instance is destroyed
    or created: the count maps to no geometry of [MIG_CONFIGS]. *)
Theorem C3_mig_enumeration (w : world) (device total_tpcs active_tpcs iterations : Z)
    (tr : list event) :
  ~ In active_tpcs [7; 14; 21; 28; 49] ->
  (exists e,
     generate_config w device "mig" total_tpcs active_tpcs iterations tr
     = (Raise e, (tr ++ [Shell "nvidia-smi mig --list-gpu-instance-profiles"])%list))
  /\ forall geometry, MIG_CONFIGS_getitem active_tpcs <> Ok geometry.
Proof.
  intros H. pose proof (mig_lookup_fails active_tpcs H) as Hk.
  split; [|intros g; rewrite Hk; discriminate].
  unfold generate_config, partition.
  change (lower "mig" =? "mps")%string with false.
  change (lower "mig" =? "libsmctrl")%string with false.
  change (lower "mig" =? "mig")%string with true. cbv iota.
  unfold bind, os_system, lift, ret, raise. cbv beta iota. rewrite Hk.
  set (s1 := os_system_status w tr "nvidia-smi mig --list-gpu-instance-profiles").
  destruct (negb (WIFEXITED s1) || (WEXITSTATUS s1 =? 6)); eexists; reflexivity.
Qed.

Lemma C3_mig_enumeration_witness :
  (exists e,
     generate_config example_world 0 "mig" 54 8 10 []
     = (Raise e, [Shell "nvidia-smi mig --list-gpu-instance-profiles"]))
  /\ forall geometry, MIG_CONFIGS_getitem 8 <> Ok geometry.
Proof.
  apply (C3_mig_enumeration example_world 0 54 8 10 []).
  cbn. intros H. repeat (destruct H as [H|H]; [discriminate|]). exact H.
Defined.

Lemma partition_unknown (w : world) (part_method : string) (total_tpcs active_tpcs : Z)
    (plugin_config : list (string * json)) (tr : list event) :
  ~ In (lower part_method) ["mps"; "libsmctrl"; "mig"] ->
  partition w part_method total_tpcs active_tpcs plugin_config tr
  = (Raise (Exception ("Unknown partitioning type '" ++ part_method ++ "'!")), tr).
Proof.
  intros H. unfold partition.
  repeat match goal with
         | |- context [(lower part_method =? ?m)%string] =>
             replace (lower part_method =? m)%string with false
               by (symmetry; apply String.eqb_neq; intros E; apply H; rewrite E; cbn; tauto)
         end.
  reflexivity.
Qed.

Lemma partition_lower (w : world) (part_method : string) (total_tpcs active_tpcs : Z)
    (plugin_config : list (string * json)) (tr : list event) :
  In (lower part_method) ["mps"; "libsmctrl"; "mig"] ->
  partition w part_method total_tpcs active_tpcs plugin_config tr
  = partition w (lower part_method) total_tpcs active_tpcs plugin_config tr.
Proof.
  intros H. unfold partition. rewrite PyFacts.lower_idempotent.
  destruct (lower part_method =? "mps")%string eqn:E1; [reflexivity|].
  destruct (lower part_method =? "libsmctrl")%string eqn:E2; [reflexivity|].
  destruct (lower part_method =? "mig")%string eqn:E3; [reflexivity|].
  apply String.eqb_neq in E1, E2, E3. cbn in H. intuition congruence.
Qed.

Lemma generate_config_unknown (w : world) (device : Z) (part_method : string)
    (total_tpcs active_tpcs iterations : Z) (tr : list event) :
  ~ In (lower part_method) ["mps"; "libsmctrl"; "mig"] ->
  generate_config w device part_method total_tpcs active_tpcs iterations tr
  = (Raise (Exception ("Unknown partitioning type '" ++ part_method ++ "'!")), tr).
Proof.
  intros H. unfold generate_config, bind.
  now rewrite (partition_unknown w part_method total_tpcs active_tpcs _ tr H).
Qed.

(** C6, amended.  For every method name whose lower-case form is none
    of "mps", "libsmctrl" and "mig", [generate_config] raises an exception
    whose message quotes the name as given, returns no configuration and
    runs no command. *)
Theorem C6_unknown_method (w : world) (device : Z) (part_method : string)
    (total_tpcs active_tpcs iterations : Z) (tr : list event) :
  ~ In (lower part_method) ["mps"; "libsmctrl"; "mig"] ->
  generate_config w device part_method total_tpcs active_tpcs iterations tr
  = (Raise (Exception ("Unknown partitioning type '" ++ part_method ++ "'!")), tr).
Proof. apply generate_config_unknown. Qed.

Lemma C6_unknown_method_witness :
  generate_config example_world 0 "Foo" 54 5 10 []
  = (Raise (Exception "Unknown partitioning type 'Foo'!"), []).
Proof.
  apply (C6_unknown_method example_world 0 "Foo" 54 5 10 []).
  cbn. intros H. repeat (destruct H as [H|H]; [discriminate|]). exact H.
Defined.

Lemma C6_counterexample :
  ~ In "MPS" ["mps"; "libsmctrl"; "mig"]
  /\ exists config,
      generate_config example_world 0 "MPS" 54 5 10 [] = (Ok config, [])
      /\ benchmark_setting "mps_thread_percentage" config
         = Some (JFloat (B64.Fin (325786174919331 # 35184372088832))).
Proof.
  split.
  - cbn. intros H. repeat (destruct H as [H|H]; [discriminate|]). exact H.
  - eexists. split; vm_compute; reflexivity.
Qed.

(** Dictionaries that agree outside the label of the log file. *)
Lemma plugin_config_init_lower (part_method key : string) (active_tpcs : Z) :
  key <> "log_name" ->
  Dict.get String.eqb key (plugin_config_init part_method active_tpcs)
  = Dict.get String.eqb key (plugin_config_init (lower part_method) active_tpcs).
Proof.
  intros H. unfold plugin_config_init. cbn [Dict.get].
  replace ("log_name" =? key)%string with false
    by (symmetry; apply String.eqb_neq; congruence).
  reflexivity.
Qed.

Lemma get_set_string (key k : string) (v : json) (d d' : list (string * json)) :
  Dict.get String.eqb key d = Dict.get String.eqb key d' ->
  Dict.get String.eqb key (Dict.set String.eqb k v d)
  = Dict.get String.eqb key (Dict.set String.eqb k v d').
Proof.
  intros H. destruct (String.eqb k key) eqn:E.
  - apply String.eqb_eq in E. subst key.
    now rewrite !DictFacts.get_set_same by apply String.eqb_refl.
  - now rewrite !(DictFacts.get_set_other String.eqb DictFacts.string_eqb_sym
                    DictFacts.string_eqb_trans k key v) by exact E.
Qed.

(** What [partition] does to [plugin_config] does not depend on it. *)
Lemma partition_natural (w : world) (part_method : string) (total_tpcs active_tpcs : Z)
    (tr : list event) :
  (exists e tr', forall pc,
      partition w part_method total_tpcs active_tpcs pc tr = (Raise e, tr'))
  \/ (exists tr', forall pc,
        partition w part_method total_tpcs active_tpcs pc tr = (Ok pc, tr'))
  \/ (exists k v tr', forall pc,
        partition w part_method total_tpcs active_tpcs pc tr
        = (Ok (Dict.set String.eqb k v pc), tr')).
Proof.
  unfold partition.
  destruct (lower part_method =? "mps")%string.
  { unfold bind, lift, ret.
    destruct (B64.true_div (100 * active_tpcs) total_tpcs) as [q|e].
    - right. right. eexists _, _, _. intros pc. reflexivity.
    - left. eexists _, _. intros pc. reflexivity. }
  destruct (lower part_method =? "libsmctrl")%string.
  { unfold bind, lift, ret.
    destruct (int (str_mul "1" active_tpcs) 2) as [mask|e].
    - right. right. eexists _, _, _. intros pc. reflexivity.
    - left. eexists _, _. intros pc. reflexivity. }
  destruct (lower part_method =? "mig")%string.
  { unfold bind, os_system, lift, ret, raise. cbv beta iota.
    set (s1 := os_system_status w tr "nvidia-smi mig --list-gpu-instance-profiles").
    destruct (negb (WIFEXITED s1) || (WEXITSTATUS s1 =? 6)).
    { left. eexists _, _. intros pc. reflexivity. }
    destruct (MIG_CONFIGS_getitem active_tpcs) as [config|e].
    2:{ left. eexists _, _. intros pc. reflexivity. }
    match goal with
    | |- context [os_system_status w ?t ?c] =>
        lazymatch c with
        | context [config] => set (s2 := os_system_status w t c)
        end
    end.
    destruct (negb (WIFEXITED s2) || negb (WEXITSTATUS s2 =? 0)).
    - left. eexists _, _. intros pc. reflexivity.
    - right. left. eexists. intros pc. reflexivity. }
  left. eexists _, _. intros pc. reflexivity.
Qed.

(** C9, amended.  The tests of the [if]/[elif] chain read only
    [part_method.lower()], which is the same for a name and for its
    lower-case form.  The two calls run the same commands, and either both
    raise (the same exception, or the unknown-method exception quoting each
    its own argument) or both return configurations that agree on every
    field except [name] and the benchmark's [log_name], which embed the
    name as given. *)
Theorem C9_case_insensitive_dispatch (w : world) (device : Z) (part_method : string)
    (total_tpcs active_tpcs iterations : Z) (tr : list event) :
  lower (lower part_method) = lower part_method
  /\ let given :=
       generate_config w device part_method total_tpcs active_tpcs iterations tr in
     let lowered :=
       generate_config w device (lower part_method) total_tpcs active_tpcs iterations tr in
     snd given = snd lowered
     /\ match fst given, fst lowered with
        | Ok c1, Ok c2 =>
            (forall key, key <> "log_name" ->
                         benchmark_setting key c1 = benchmark_setting key c2)
            /\ (forall key, key <> "name" -> key <> "benchmarks" ->
                            top_field key c1 = top_field key c2)
        | Raise e1, Raise e2 =>
            e1 = e2
            \/ (e1 = Exception ("Unknown partitioning type '" ++ part_method ++ "'!")
                /\ e2 = Exception ("Unknown partitioning type '" ++ lower part_method
                                   ++ "'!"))
        | _, _ => False
        end.
Proof.
  split; [apply PyFacts.lower_idempotent|]. cbv zeta.
  destruct (in_dec string_dec (lower part_method) ["mps"; "libsmctrl"; "mig"])
    as [Hin|Hout].
  - unfold generate_config, bind.
    rewrite (partition_lower w part_method total_tpcs active_tpcs _ tr Hin).
    destruct (partition_natural w (lower part_method) total_tpcs active_tpcs tr)
      as [(e & tr' & H)|[(tr' & H)|(k & v & tr' & H)]]; rewrite !H; cbn [fst snd].
    + split; [reflexivity|left; reflexivity].
    + split; [reflexivity|]. unfold ret; cbn [fst snd]. split.
      * intros key Hkey. rewrite !benchmark_setting_overall.
        now apply plugin_config_init_lower.
      * intros key H1 H2. now apply top_field_overall.
    + split; [reflexivity|]. unfold ret; cbn [fst snd]. split.
      * intros key Hkey. rewrite !benchmark_setting_overall.
        apply get_set_string. now apply plugin_config_init_lower.
      * intros key H1 H2. now apply top_field_overall.
  - rewrite (generate_config_unknown w device part_method _ _ _ tr Hout).
    assert (Hout' : ~ In (lower (lower part_method)) ["mps"; "libsmctrl"; "mig"])
      by now rewrite PyFacts.lower_idempotent.
    rewrite (generate_config_unknown w device (lower part_method) _ _ _ tr Hout').
    cbn [fst snd]. split; [reflexivity|]. right. split; reflexivity.
Qed.

Lemma C9_counterexample :
  Py.lower "MPS" = "mps"
  /\ generate_config example_world 0 "MPS" 54 5 10 []
     <> generate_config example_world 0 "mps" 54 5 10 [].
Proof.
  split; [reflexivity|]. intros H.
  assert (E : option_map (top_field "name")
                (match fst (generate_config example_world 0 "MPS" 54 5 10 []) with
                 | Ok c => Some c | Raise _ => None end)
              = option_map (top_field "name")
                  (match fst (generate_config example_world 0 "mps" 54 5 10 []) with
                   | Ok c => Some c | Raise _ => None end)) by now rewrite H.
  vm_compute in E. discriminate E.
Qed.

(** C7.  When a unit-count argument is invalid (a given total that is
    not positive, a starting count that is not positive, or, outside MiG
    mode with [pysmctrl] at hand, a given total above the detected number
    of TPCs) the driver ends with [SystemExit(22)] having only printed
    lines: no command was run and no runner process started. *)
Theorem C7_invalid_unit_count_exit (w : world) (a : args) (tr : list event) :
  invalid_unit_count w a ->
  exists lines,
    main w a tr = (Raise (SystemExit 22), (tr ++ map Stdout lines)%list)
    /\ forall config, ~ In (Runner config) (map Stdout lines).
Proof.
  intros H.
  assert (Hno : forall lines config, ~ In (Runner config) (map Stdout lines)).
  { intros lines config Hin. apply in_map_iff in Hin. destruct Hin as [x [E _]].
    discriminate E. }
  destruct a as [tc sc mg dev its]. unfold invalid_unit_count in H.
  cbn [tpc_count start_count mig device] in H. unfold main.
  cbn [tpc_count start_count mig device iterations].
  destruct tc as [n|].
  - destruct (n <=? 0) eqn:En.
    { exists ["The TPC count must be positive and non-zero."]. split; [|apply Hno].
      reflexivity. }
    apply Z.leb_gt in En.
    destruct H as [(n' & E & Hn)|[Hs|(Hm & Hp & n' & E & Hn)]].
    + inversion E; subst; lia.
    + destruct Hs as (s & -> & Hs). apply Z.leb_le in Hs.
      exists ["The starting TPC count must be positive and non-zero."].
      split; [|apply Hno].
      unfold bind, ret, print, emit, raise. rewrite Hs. reflexivity.
    + inversion E; subst n'. subst mg. unfold bind at 1. unfold ret at 1.
      destruct sc as [s|].
      * destruct (s <=? 0) eqn:Es.
        { exists ["The starting TPC count must be positive and non-zero."].
          split; [|apply Hno]. reflexivity. }
        exists ["The TPC count must not exceed the number of available TPCs."].
        split; [|apply Hno].
        unfold read_var. unfold bind, ret, print, emit, raise. rewrite Hp. cbv beta iota.
        replace (n >? get_tpc_info_cuda w dev) with true
          by (symmetry; apply Z.gtb_lt; lia).
        reflexivity.
      * exists ["The TPC count must not exceed the number of available TPCs."].
        split; [|apply Hno].
        unfold read_var. unfold bind, ret, print, emit, raise. rewrite Hp. cbv beta iota.
        replace (n >? get_tpc_info_cuda w dev) with true
          by (symmetry; apply Z.gtb_lt; lia).
        reflexivity.
  - destruct H as [(n' & E & Hn)|[(s & -> & Hs)|(Hm & Hp & n' & E & Hn)]];
      [discriminate E| |discriminate E].
    apply Z.leb_le in Hs.
    destruct (pysmctrl w).
    + exists [("Auto-detected " ++ str (get_tpc_info_cuda w dev) ++ " available TPCs")%string;
              "The starting TPC count must be positive and non-zero."].
      split; [|apply Hno].
      unfold bind, ret, print, emit, raise. rewrite Hs. cbn [map].
      rewrite <- app_assoc. reflexivity.
    + exists ["The starting TPC count must be positive and non-zero."].
      split; [|apply Hno].
      unfold bind, ret, print, emit, raise. rewrite Hs. reflexivity.
Qed.

Lemma C7_invalid_unit_count_exit_witness :
  exists lines,
    main example_world
      {| tpc_count := Some 60; start_count := Some 1; mig := false;
         device := 0; iterations := 10 |} []
    = (Raise (SystemExit 22), ([] ++ map Stdout lines)%list)
    /\ forall config, ~ In (Runner config) (map Stdout lines).
Proof.
  apply (C7_invalid_unit_count_exit example_world
           {| tpc_count := Some 60; start_count := Some 1; mig := false;
              device := 0; iterations := 10 |} []).
  right. right. cbn. repeat split. exists 60. split; [reflexivity|lia].
Defined.


(** The configuration for five TPCs under libsmctrl. *)
Example generate_config_libsmctrl_5 :
  generate_config example_world 0 "libsmctrl" 54 5 10 []
  = (Ok (JDict
           [ ("name", JStr "TPC Count vs. Performance with libsmctrl");
             ("max_iterations", JInt 10);
             ("max_time", JInt 0);
             ("cuda_device", JInt 0);
             ("use_processes", JBool true);
             ("pin_cpus", JBool true);
             ("do_warmup", JBool true);
             ("benchmarks",
              JList
                [JDict
                   [ ("label", JStr "5");
                     ("log_name", JStr "eurosys25_libsmctrl_5tpcs.json");
                     ("filename", JStr "./bin/matrix_multiply.so");
                     ("thread_count", JList [JInt 32; JInt 32]);
                     ("block_count", JInt 1);
                     ("data_size", JInt 0);
                     ("additional_info",
                      JDict [("matrix_width", JInt 8192); ("skip_copy", JBool true)]);
                     ("sm_mask", JStr "~0x1f") ]]) ]), []).
Proof. reflexivity. Qed.

(** Percentages: 1 of 54 gives 1.852, 54 of 54 the integer 100, no TPC
    at all 0.0001, and a total of zero raises. *)
Example mps_percentage_examples :
  (exists config,
      generate_config example_world 0 "mps" 54 1 10 [] = (Ok config, [])
      /\ benchmark_setting "mps_thread_percentage" config
         = Some (JFloat (B64.of_Q (1852 # 1000))))
  /\ (exists config,
         generate_config example_world 0 "mps" 54 54 10 [] = (Ok config, [])
         /\ benchmark_setting "mps_thread_percentage" config = Some (JInt 100))
  /\ (exists config,
         generate_config example_world 0 "mps" 54 0 10 [] = (Ok config, [])
         /\ benchmark_setting "mps_thread_percentage" config
            = Some (JFloat (B64.of_Q (1 # 10000))))
  /\ generate_config example_world 0 "mps" 0 5 10 [] = (Raise ZeroDivisionError, []).
Proof.
  repeat split; try (eexists; split); vm_compute; reflexivity.
Qed.

(** A MiG configuration for 14 TPCs: the four commands, in order. *)
Example generate_config_mig_14 :
  snd (generate_config example_world 0 "mig" 54 14 10 [])
  = [ Shell "nvidia-smi mig --list-gpu-instance-profiles";
      Shell "sudo nvidia-smi mig --destroy-compute-instance";
      Shell "sudo nvidia-smi mig --destroy-gpu-instance";
      Shell "sudo nvidia-smi mig --create-gpu-instance 2g.10gb --default-compute-instance" ].
Proof. reflexivity. Qed.

(** A sweep from 53 to 54 TPCs starts four runner processes. *)
Example main_sweep :
  exists tr,
    main example_world
      {| tpc_count := None; start_count := Some 53; mig := false;
         device := 0; iterations := 10 |} [] = (Ok tt, tr)
    /\ map (fun e => match e with Stdout line => line | _ => "" end)
         (filter (fun e => match e with Stdout _ => true | _ => false end) tr)
       = [ "Auto-detected 54 available TPCs";
           "Running test for 53 active TPCs under mps.";
           "Starting test with 53 TPCs enabled under mps";
           "";
           "Running test for 53 active TPCs under libsmctrl.";
           "Starting test with 53 TPCs enabled under libsmctrl";
           "";
           "Running test for 54 active TPCs under mps.";
           "Starting test with 54 TPCs enabled under mps";
           "";
           "Running test for 54 active TPCs under libsmctrl.";
           "Starting test with 54 TPCs enabled under libsmctrl";
           "" ]
    /\ List.length
         (filter (fun e => match e with Runner _ => true | _ => false end) tr) = 4%nat.
Proof. eexists. repeat split; vm_compute; reflexivity. Qed.

End GranularityFacts.

(** ** The result aggregator *)

Module ScatterFacts.
Import Py Run Scatter.

Lemma eqb_nan_r (x : B64.t) : B64.eqb x B64.NaN = false.
Proof. now destruct x. Qed.

Lemma same_key_sym (a b : float_object) : same_key a b = true -> same_key b a = true.
Proof.
  destruct a as [x|], b as [y|]; cbn [same_key value]; rewrite ?eqb_nan_r;
    try discriminate; try reflexivity.
  apply DictFacts.b64_eqb_sym.
Qed.

Lemma same_key_trans (a b c : float_object) :
  same_key a b = true -> same_key b c = true -> same_key a c = true.
Proof.
  destruct a as [x|], b as [y|], c as [z|]; cbn [same_key value]; rewrite ?eqb_nan_r;
    try discriminate; try reflexivity.
  apply DictFacts.b64_eqb_trans.
Qed.

(** A NaN of its own is the same key as nothing, and stays where it is
    stored whatever is stored later. *)
Lemma same_key_own_nan (k : float_object) : same_key k (Own B64.NaN) = false.
Proof. destruct k as [x|]; cbn [same_key value]; [apply eqb_nan_r|reflexivity]. Qed.

Lemma own_nan_same_key (k : float_object) : same_key (Own B64.NaN) k = false.
Proof. now destruct k. Qed.

Lemma set_own_nan (v : triplet) (d : list (float_object * triplet)) :
  In (Own B64.NaN, v) (Dict.set same_key (Own B64.NaN) v d).
Proof.
  induction d as [|[k' v'] d IH]; cbn [Dict.set]; [now left|].
  rewrite same_key_own_nan. now right.
Qed.

Lemma set_keeps_own_nan (k : float_object) (v v0 : triplet)
    (d : list (float_object * triplet)) :
  In (Own B64.NaN, v0) d -> In (Own B64.NaN, v0) (Dict.set same_key k v d).
Proof.
  induction d as [|[k' v'] d IH]; intros H; [destruct H|].
  cbn [Dict.set]. destruct (same_key k' k) eqn:E.
  - destruct H as [H|H]; [|now right].
    inversion H; subst. rewrite own_nan_same_key in E. discriminate.
  - destruct H as [H|H]; [now left|right; now apply IH].
Qed.

(** Every float but a NaN of its own is found again under itself. *)
Lemma same_key_refl (k : float_object) : k <> Own B64.NaN -> same_key k k = true.
Proof.
  destruct k as [[q|s|]|]; cbn; intros H; try reflexivity.
  - apply Qeq_bool_iff. reflexivity.
  - now destruct s.
  - now contradiction H.
Qed.

Lemma Qltb_true (a b : Q) : B64.Qltb a b = true <-> (a < b)%Q.
Proof.
  unfold B64.Qltb. rewrite negb_true_iff. split.
  - intros H. apply Qnot_le_lt. intros Hle. apply Qle_bool_iff in Hle. congruence.
  - intros H. destruct (Qle_bool b a) eqn:E; [|reflexivity].
    apply Qle_bool_iff in E. exfalso. apply (Qlt_not_le _ _ H E).
Qed.

Lemma ltb_irrefl (x : B64.t) : B64.ltb x x = false.
Proof.
  destruct x as [q|s|]; cbn; [|now destruct s|reflexivity].
  destruct (B64.Qltb q q) eqn:E; [|reflexivity].
  apply Qltb_true in E. exfalso. apply (Qlt_irrefl _ E).
Qed.

Lemma ltb_trans (x y z : B64.t) :
  B64.ltb x y = true -> B64.ltb y z = true -> B64.ltb x z = true.
Proof.
  destruct x as [a|s|], y as [b|s'|], z as [c|s''|]; cbn; try discriminate;
    try (rewrite !Qltb_true; apply Qlt_trans);
    repeat match goal with b : bool |- _ => destruct b end;
    cbn; intros; try discriminate; try reflexivity.
Qed.

Section Best.
Context {T : Type} (beats : T -> T -> bool).
Hypothesis beats_irrefl : forall x, beats x x = false.
Hypothesis beats_trans :
  forall x y z, beats x y = true -> beats y z = true -> beats x z = true.

(** Keeping the first element that no later one beats: the survivor is
    the start or beats it, and nothing passed over beats the survivor. *)
Lemma fold_best (rest : list T) :
  forall best,
    let r := fold_left (fun best item => if beats item best then item else best) rest best in
    (r = best \/ (In r rest /\ beats r best = true))
    /\ forall d, In d rest -> beats d r = false.
Proof.
  induction rest as [|y rest IH]; intros best; cbn.
  - split; [left; reflexivity|tauto].
  - destruct (beats y best) eqn:Ey.
    + destruct (IH y) as [Ha Hb]. split.
      * right. destruct Ha as [->|[Hin Hlt]]; [auto|].
        split; [auto|]. exact (beats_trans _ _ _ Hlt Ey).
      * intros d [<-|Hd]; [|auto].
        destruct Ha as [->|[Hin Hlt]]; [apply beats_irrefl|].
        match goal with |- ?g = false => destruct g eqn:E; [|reflexivity] end.
        pose proof (beats_trans _ _ _ E Hlt) as F. now rewrite beats_irrefl in F.
    + destruct (IH best) as [Ha Hb]. split.
      * destruct Ha as [->|[Hin Hlt]]; auto.
      * intros d [<-|Hd]; [|auto].
        destruct Ha as [->|[Hin Hlt]]; [exact Ey|].
        match goal with |- ?g = false => destruct g eqn:E; [|reflexivity] end.
        rewrite (beats_trans _ _ _ E Hlt) in Ey. discriminate.
Qed.

Lemma fold_best_first (x : T) (rest : list T) :
  let r := fold_left (fun best item => if beats item best then item else best) rest x in
  In r (x :: rest) /\ forall d, In d (x :: rest) -> beats d r = false.
Proof.
  cbv zeta. destruct (fold_best rest x) as [Ha Hb]. split.
  - destruct Ha as [->|[Hin _]]; [left; reflexivity|right; exact Hin].
  - intros d [<-|Hd]; [|auto].
    destruct Ha as [->|[Hin Hlt]]; [apply beats_irrefl|].
    match goal with |- ?g = false => destruct g eqn:E; [|reflexivity] end.
    pose proof (beats_trans _ _ _ E Hlt) as F. now rewrite beats_irrefl in F.
Qed.
End Best.

(** [min] returns an element that none is below, [max] one that none
    is above. *)
Lemma py_min_spec (l : list B64.t) (m : B64.t) :
  py_min l = Ok m -> In m l /\ forall d, In d l -> B64.ltb d m = false.
Proof.
  destruct l as [|x rest]; cbn [py_min]; [discriminate|].
  intros E. inversion E as [E']. clear E.
  apply (fold_best_first B64.ltb ltb_irrefl ltb_trans x rest).
Qed.

Lemma py_max_spec (l : list B64.t) (m : B64.t) :
  py_max l = Ok m -> In m l /\ forall d, In d l -> B64.ltb m d = false.
Proof.
  destruct l as [|x rest]; cbn [py_max]; [discriminate|].
  intros E. inversion E as [E']. clear E.
  apply (fold_best_first (fun a b => B64.ltb b a)); [apply ltb_irrefl|].
  intros a b c H1 H2. exact (ltb_trans _ _ _ H2 H1).
Qed.

(** The [while] loop pairs the timestamps after position [i]. *)
Lemma pair_loop_spec (n : nat) :
  forall rest pre durations fuel,
    List.length rest = n -> (n < fuel)%nat ->
    pair_loop fuel (pre ++ rest) (List.length pre) durations
    = if Nat.even n then Ok (durations ++ pair_samples rest)%list else Raise IndexError.
Proof.
  induction n as [n IH] using lt_wf_ind. intros rest pre durations fuel Hn Hf.
  destruct fuel as [|fuel]; [lia|]. cbn [pair_loop].
  rewrite length_app.
  destruct rest as [|a [|b rest]]; cbn [List.length] in Hn |- *; subst n.
  - replace (List.length pre <? List.length pre + 0)%nat with false
      by (symmetry; apply Nat.ltb_ge; lia).
    cbn. now rewrite app_nil_r.
  - replace (List.length pre <? List.length pre + 1)%nat with true
      by (symmetry; apply Nat.ltb_lt; lia).
    rewrite (proj2 (nth_error_None _ _)); [reflexivity|].
    rewrite length_app. cbn. lia.
  - replace (List.length pre <? List.length pre + S (S (List.length rest)))%nat with true
      by (symmetry; apply Nat.ltb_lt; lia).
    rewrite nth_error_app2 by lia.
    replace (List.length pre + 1 - List.length pre)%nat with 1%nat by lia.
    cbn [nth_error].
    rewrite nth_error_app2 by lia. rewrite Nat.sub_diag. cbn [nth_error].
    replace (pre ++ a :: b :: rest)%list with ((pre ++ [a; b]) ++ rest)%list
      by (rewrite <- app_assoc; reflexivity).
    replace (List.length pre + 2)%nat with (List.length (pre ++ [a; b]))
      by (rewrite length_app; reflexivity).
    rewrite (IH (List.length rest)) by lia.
    cbn [Nat.even pair_samples]. destruct (Nat.even (List.length rest)); [|reflexivity].
    now rewrite <- app_assoc.
Qed.

Lemma pair_loop_whole (times durations : list B64.t) :
  pair_loop (S (List.length times)) times 0 durations
  = if Nat.even (List.length times) then Ok (durations ++ pair_samples times)%list
    else Raise IndexError.
Proof. apply (pair_loop_spec (List.length times) times [] durations); [reflexivity|lia]. Qed.

Lemma mem_get (times_key : string) (t : time_entry) :
  Dict.mem String.eqb times_key t
  = match Dict.get String.eqb times_key t with Some _ => true | None => false end.
Proof. reflexivity. Qed.

(** With only arrays of even length the loop over the entries collects
    the paired samples. *)
Lemma entries_loop_even (times_key : string) (entries : list time_entry) :
  forall durations,
    (forall t ts, In t entries -> Dict.get String.eqb times_key t = Some ts ->
                  Nat.even (List.length ts) = true) ->
    entries_loop times_key entries durations
    = Ok (durations ++ record_samples times_key entries)%list.
Proof.
  induction entries as [|t rest IH]; intros durations H; cbn [entries_loop record_samples].
  - now rewrite app_nil_r.
  - rewrite mem_get. destruct (Dict.get String.eqb times_key t) as [ts|] eqn:E; cbn [negb getitem].
    + rewrite pair_loop_whole, (H t ts (or_introl eq_refl) E).
      rewrite IH by (intros t' ts' Hin; apply H; right; exact Hin).
      now rewrite app_assoc.
    + apply IH. intros t' ts' Hin. apply H. right. exact Hin.
Qed.

(** One array of odd length anywhere ends the loop with [IndexError]. *)
Lemma entries_loop_odd (times_key : string) (entries : list time_entry) :
  forall durations,
    (exists t ts, In t entries /\ Dict.get String.eqb times_key t = Some ts
                  /\ Nat.even (List.length ts) = false) ->
    entries_loop times_key entries durations = Raise IndexError.
Proof.
  induction entries as [|t rest IH]; intros durations (t0 & ts0 & Hin & Hg & Hodd).
  - destruct Hin.
  - cbn [entries_loop]. rewrite mem_get.
    destruct (Dict.get String.eqb times_key t) as [ts|] eqn:E; cbn [negb getitem].
    + rewrite pair_loop_whole. destruct (Nat.even (List.length ts)) eqn:Ev; [|reflexivity].
      apply IH. destruct Hin as [->|Hin]; [congruence|]. now exists t0, ts0.
    + apply IH. destruct Hin as [->|Hin]; [congruence|]. now exists t0, ts0.
Qed.

Lemma record_samples_absent (times_key : string) (entries : list time_entry) :
  (forall t, In t entries -> Dict.get String.eqb times_key t = None) ->
  record_samples times_key entries = [].
Proof.
  induction entries as [|t rest IH]; intros H; cbn; [reflexivity|].
  rewrite (H t (or_introl eq_refl)). apply IH. intros t' Hin. apply H. now right.
Qed.

Lemma record_samples_present (times_key : string) (entries : list time_entry) :
  (exists t ts, In t entries /\ Dict.get String.eqb times_key t = Some ts) ->
  (forall t ts, In t entries -> Dict.get String.eqb times_key t = Some ts ->
                ts <> [] /\ Nat.even (List.length ts) = true) ->
  record_samples times_key entries <> [].
Proof.
  induction entries as [|t rest IH]; intros (t0 & ts0 & Hin & Hg) H; [destruct Hin|].
  cbn [record_samples]. destruct (Dict.get String.eqb times_key t) as [ts|] eqn:E.
  - destruct (H t ts (or_introl eq_refl) E) as [Hne Hev].
    destruct ts as [|a [|b ts]]; [contradiction|discriminate Hev|discriminate].
  - apply IH.
    + destruct Hin as [->|Hin]; [congruence|]. now exists t0, ts0.
    + intros t' ts' Hin'. apply H. now right.
Qed.

Lemma summary_of_even_record (numpy_mean : list B64.t -> B64.t) (parsed : plugin)
    (times_key : string) (entries : list time_entry) :
  times parsed = Some entries ->
  (forall t ts, In t entries -> Dict.get String.eqb times_key t = Some ts ->
                Nat.even (List.length ts) = true) ->
  plugin_summary_values numpy_mean parsed times_key
  = match py_min (record_samples times_key entries) with
    | Raise e => Raise e
    | Ok lo =>
        match py_max (record_samples times_key entries) with
        | Raise e => Raise e
        | Ok hi =>
            Ok (B64.mul lo thousand, B64.mul hi thousand,
                B64.mul (numpy_mean (record_samples times_key entries)) thousand)
        end
    end.
Proof.
  intros Ht Hev. unfold plugin_summary_values. rewrite Ht. cbn [getitem].
  rewrite (entries_loop_even times_key entries [] Hev). reflexivity.
Qed.

Lemma summary_of_odd_record (numpy_mean : list B64.t -> B64.t) (parsed : plugin)
    (times_key : string) (entries : list time_entry) :
  times parsed = Some entries ->
  (exists t ts, In t entries /\ Dict.get String.eqb times_key t = Some ts
                /\ Nat.even (List.length ts) = false) ->
  plugin_summary_values numpy_mean parsed times_key = Raise IndexError.
Proof.
  intros Ht Hodd. unfold plugin_summary_values. rewrite Ht. cbn [getitem].
  now rewrite (entries_loop_odd times_key entries [] Hodd).
Qed.

(** C5, amended.  For every parsed record whose arrays under the times
    key all have even length and which holds at least one sample,
    [plugin_summary_values] returns the triplet made of the minimum, the
    maximum and [numpy.mean] of the samples, each times 1000, where the
    samples are the differences second minus first of the consecutive,
    non-overlapping pairs of each array, in order.  For the record with
    [times: [{"execute_times": [1.0, 1.002]}]] each component is
    2.0000000000000018. *)
Theorem C5_summary_of_paired_samples (numpy_mean : list B64.t -> B64.t) (parsed : plugin)
    (times_key : string) (entries : list time_entry) :
  times parsed = Some entries ->
  (forall t ts, In t entries -> Dict.get String.eqb times_key t = Some ts ->
                Nat.even (List.length ts) = true) ->
  record_samples times_key entries <> [] ->
  (exists lo hi,
      plugin_summary_values numpy_mean parsed times_key
      = Ok (B64.mul lo thousand, B64.mul hi thousand,
            B64.mul (numpy_mean (record_samples times_key entries)) thousand)
      /\ In lo (record_samples times_key entries)
      /\ (forall d, In d (record_samples times_key entries) -> B64.ltb d lo = false)
      /\ In hi (record_samples times_key entries)
      /\ (forall d, In d (record_samples times_key entries) -> B64.ltb hi d = false))
  /\ plugin_summary_values mean_sequential example_record "execute_times"
     = Ok (two_ms_rounded, two_ms_rounded, two_ms_rounded).
Proof.
  intros Ht Hev Hne. split; [|vm_compute; reflexivity].
  rewrite (summary_of_even_record numpy_mean parsed times_key entries Ht Hev).
  destruct (py_min (record_samples times_key entries)) as [lo|e] eqn:Emin.
  2:{ destruct (record_samples times_key entries); [contradiction|discriminate]. }
  destruct (py_max (record_samples times_key entries)) as [hi|e] eqn:Emax.
  2:{ destruct (record_samples times_key entries); [contradiction|discriminate]. }
  destruct (py_min_spec _ _ Emin) as [Hlo1 Hlo2].
  destruct (py_max_spec _ _ Emax) as [Hhi1 Hhi2].
  exists lo, hi. repeat split; assumption.
Qed.

Lemma C5_summary_of_paired_samples_witness :
  (exists lo hi,
      plugin_summary_values mean_sequential example_record "execute_times"
      = Ok (B64.mul lo thousand, B64.mul hi thousand,
            B64.mul (mean_sequential
                       (record_samples "execute_times"
                          [[("execute_times", [B64.Fin 1; B64.of_Q (1002 # 1000)])]]))
              thousand)
      /\ In lo (record_samples "execute_times"
                  [[("execute_times", [B64.Fin 1; B64.of_Q (1002 # 1000)])]])
      /\ (forall d, In d (record_samples "execute_times"
                            [[("execute_times", [B64.Fin 1; B64.of_Q (1002 # 1000)])]]) ->
                    B64.ltb d lo = false)
      /\ In hi (record_samples "execute_times"
                  [[("execute_times", [B64.Fin 1; B64.of_Q (1002 # 1000)])]])
      /\ (forall d, In d (record_samples "execute_times"
                            [[("execute_times", [B64.Fin 1; B64.of_Q (1002 # 1000)])]]) ->
                    B64.ltb hi d = false))
  /\ plugin_summary_values mean_sequential example_record "execute_times"
     = Ok (two_ms_rounded, two_ms_rounded, two_ms_rounded).
Proof.
  apply (C5_summary_of_paired_samples mean_sequential example_record "execute_times"
           [[("execute_times", [B64.Fin 1; B64.of_Q (1002 # 1000)])]]).
  - reflexivity.
  - intros t ts [<-|[]] E. vm_compute in E. inversion E. reflexivity.
  - vm_compute. discriminate.
Defined.

Lemma C5_counterexample :
  plugin_summary_values mean_sequential example_record "execute_times"
  = Ok (two_ms_rounded, two_ms_rounded, two_ms_rounded)
  /\ B64.eqb two_ms_rounded (B64.Fin 2) = false
  /\ plugin_summary_values mean_sequential odd_record "execute_times" = Raise IndexError.
Proof. repeat split; vm_compute; reflexivity. Qed.

(** C8, amended.  [plugin_summary_values] raises [IndexError] when the
    array under the times key of some entry has odd length, and
    [ValueError] (the minimum of no sample) when no entry holds the times
    key; when at least one entry holds the key and every array found under
    it is non-empty and of even length, it returns a triplet. *)
Theorem C8_summary_is_partial (numpy_mean : list B64.t -> B64.t) (parsed : plugin)
    (times_key : string) (entries : list time_entry) :
  times parsed = Some entries ->
  ((exists t ts, In t entries /\ Dict.get String.eqb times_key t = Some ts
                 /\ Nat.odd (List.length ts) = true) ->
   plugin_summary_values numpy_mean parsed times_key = Raise IndexError)
  /\ ((forall t, In t entries -> Dict.get String.eqb times_key t = None) ->
      plugin_summary_values numpy_mean parsed times_key
      = Raise ValueError)
  /\ ((exists t ts, In t entries /\ Dict.get String.eqb times_key t = Some ts) ->
      (forall t ts, In t entries -> Dict.get String.eqb times_key t = Some ts ->
                    ts <> [] /\ Nat.even (List.length ts) = true) ->
      exists summary, plugin_summary_values numpy_mean parsed times_key = Ok summary).
Proof.
  intros Ht. split; [|split].
  - intros (t & ts & Hin & Hg & Hodd).
    apply (summary_of_odd_record numpy_mean parsed times_key entries Ht).
    exists t, ts. repeat split; try assumption.
    rewrite <- Nat.negb_odd, Hodd. reflexivity.
  - intros Habs.
    rewrite (summary_of_even_record numpy_mean parsed times_key entries Ht).
    + now rewrite (record_samples_absent times_key entries Habs).
    + intros t ts Hin E. rewrite (Habs t Hin) in E. discriminate.
  - intros Hex Hall.
    rewrite (summary_of_even_record numpy_mean parsed times_key entries Ht)
      by (intros t ts Hin E; apply (Hall t ts Hin E)).
    pose proof (record_samples_present times_key entries Hex Hall) as Hne.
    destruct (record_samples times_key entries) as [|d ds]; [contradiction|].
    cbn [py_min py_max]. eexists. reflexivity.
Qed.

Lemma C8_summary_is_partial_witness :
  ((exists t ts, In t [[("execute_times", [B64.Fin 1])]]
                 /\ Dict.get String.eqb "execute_times" t = Some ts
                 /\ Nat.odd (List.length ts) = true) ->
   plugin_summary_values mean_sequential odd_record "execute_times" = Raise IndexError)
  /\ ((forall t, In t [[("execute_times", [B64.Fin 1])]] ->
                 Dict.get String.eqb "execute_times" t = None) ->
      plugin_summary_values mean_sequential odd_record "execute_times"
      = Raise ValueError)
  /\ ((exists t ts, In t [[("execute_times", [B64.Fin 1])]]
                    /\ Dict.get String.eqb "execute_times" t = Some ts) ->
      (forall t ts, In t [[("execute_times", [B64.Fin 1])]] ->
                    Dict.get String.eqb "execute_times" t = Some ts ->
                    ts <> [] /\ Nat.even (List.length ts) = true) ->
      exists summary,
        plugin_summary_values mean_sequential odd_record "execute_times" = Ok summary).
Proof.
  apply (C8_summary_is_partial mean_sequential odd_record "execute_times"
           [[("execute_times", [B64.Fin 1])]]).
  reflexivity.
Defined.

Lemma C8_counterexample :
  (forall t ts, In t ([[]; []] : list time_entry) ->
                Dict.get String.eqb "execute_times" t = Some ts ->
                ts <> [] /\ Nat.even (List.length ts) = true)
  /\ times empty_entries_record = Some [[]; []]
  /\ plugin_summary_values mean_sequential empty_entries_record "execute_times"
     = Raise ValueError.
Proof.
  split; [|split; reflexivity].
  intros t ts [<-|[<-|[]]] E; discriminate E.
Qed.

Section Files.
Variable float_of_str : string -> option B64.t.
Variable numpy_mean : list B64.t -> B64.t.
Variable times_key : string.

(** One round of the file loop, branch by branch. *)
Lemma process_file_eq (total counter : Z) (name : string) (parsed : plugin)
    (all_scenarios : scenarios) (tr : list event) :
  process_file float_of_str numpy_mean times_key total counter name parsed all_scenarios tr
  = let tr1 :=
      (tr ++ [Stdout ("Parsing file " ++ str counter ++ " / " ++ str total ++ ": "
                      ++ name)])%list in
    match label parsed with
    | None =>
        (Ok all_scenarios,
         (tr1 ++ [Stdout ("Skipping " ++ name ++ ": no " ++ dquote ++ "label" ++ dquote
                          ++ " field in file.")])%list)
    | Some label0 =>
        match times parsed with
        | None => (Raise (KeyError "times"), tr1)
        | Some entries =>
            if (List.length entries <? 2)%nat then
              (Ok all_scenarios,
               (tr1 ++ [Stdout ("Skipping " ++ name ++ ": no recorded times in file.")])%list)
            else
              match convert_to_float float_of_str label0 with
              | None =>
                  (Ok all_scenarios,
                   (tr1 ++ [Stdout ("Skipping " ++ name ++ ": label isn't a number.")])%list)
              | Some float_value =>
                  match plugin_summary_values numpy_mean parsed times_key with
                  | Raise e => (Raise e, tr1)
                  | Ok summary_values =>
                      match scenario_name parsed with
                      | None => (Raise (KeyError "scenario_name"), tr1)
                      | Some scenario =>
                          (Ok (record_summary scenario float_value summary_values
                                 all_scenarios), tr1)
                      end
                  end
              end
        end
    end.
Proof.
  unfold process_file, bind, print, emit, lift, ret, getitem. cbv zeta.
  destruct (label parsed); [|reflexivity].
  destruct (times parsed) as [entries|]; [|reflexivity].
  destruct (List.length entries <? 2)%nat; [reflexivity|].
  destruct (convert_to_float float_of_str _); [|reflexivity].
  destruct (plugin_summary_values numpy_mean parsed times_key); [|reflexivity].
  destruct (scenario_name parsed); reflexivity.
Qed.

Lemma lookup_record_same (name : string) (x : float_object) (summary : triplet)
    (all_scenarios : scenarios) :
  same_key x x = true ->
  lookup name x (record_summary name x summary all_scenarios) = Some summary.
Proof.
  intros Hx. unfold lookup, record_summary.
  rewrite DictFacts.get_set_same by apply String.eqb_refl.
  now apply DictFacts.get_set_same.
Qed.

Lemma lookup_record_other (name name' : string) (x x' : float_object) (summary : triplet)
    (all_scenarios : scenarios) :
  name' <> name \/ same_key x' x = false ->
  lookup name x (record_summary name' x' summary all_scenarios)
  = lookup name x all_scenarios.
Proof.
  intros H. unfold lookup, record_summary.
  destruct (String.eqb name' name) eqn:En.
  - apply String.eqb_eq in En. subst name'.
    destruct H as [H|H]; [contradiction|].
    rewrite DictFacts.get_set_same by apply String.eqb_refl.
    rewrite (DictFacts.get_set_other same_key same_key_sym same_key_trans) by exact H.
    now destruct (Dict.get String.eqb name all_scenarios).
  - now rewrite (DictFacts.get_set_other String.eqb DictFacts.string_eqb_sym
                   DictFacts.string_eqb_trans) by exact En.
Qed.


End Files.



Section LastWins.
Variable float_of_str : string -> option B64.t.
Variable numpy_mean : list B64.t -> B64.t.
Variable times_key : string.

Lemma well_keyed_nil : well_keyed [].
Proof. split; [apply DictFacts.unique_nil|intros n sc []]. Qed.

Lemma well_keyed_record (name : string) (x : float_object) (summary : triplet)
    (all_scenarios : scenarios) :
  well_keyed all_scenarios -> well_keyed (record_summary name x summary all_scenarios).
Proof.
  intros [Hu Hs]. unfold record_summary. split.
  - apply (DictFacts.unique_set String.eqb DictFacts.string_eqb_sym
             DictFacts.string_eqb_trans). exact Hu.
  - intros n sc Hin. apply DictFacts.in_set in Hin. destruct Hin as [->|Hin].
    + apply (DictFacts.unique_set same_key same_key_sym same_key_trans).
      destruct (Dict.get String.eqb name all_scenarios) as [sc|] eqn:E.
      * destruct (DictFacts.get_in _ _ _ _ E) as [n' Hin]. exact (Hs n' sc Hin).
      * apply DictFacts.unique_nil.
    + exact (Hs n sc Hin).
Qed.

(** A round that ends normally adds the file's contribution, if any. *)
Lemma process_file_ok (total counter : Z) (name : string) (parsed : plugin)
    (all_scenarios all_scenarios' : scenarios) (tr tr' : list event) :
  process_file float_of_str numpy_mean times_key total counter name parsed all_scenarios tr
  = (Ok all_scenarios', tr') ->
  all_scenarios'
  = accumulate float_of_str numpy_mean times_key [(name, parsed)] all_scenarios.
Proof.
  rewrite process_file_eq. cbv zeta. unfold accumulate, contribution. cbn [fold_left snd].
  destruct (label parsed) as [label0|]; [|intros E; now inversion E].
  destruct (times parsed) as [entries|]; [|discriminate].
  destruct (List.length entries <? 2)%nat.
  { intros E. inversion E. now destruct (scenario_name parsed). }
  destruct (convert_to_float float_of_str label0) as [float_value|].
  2:{ intros E. inversion E. now destruct (scenario_name parsed). }
  destruct (plugin_summary_values numpy_mean parsed times_key) as [summary|e];
    [|discriminate].
  destruct (scenario_name parsed) as [scenario|]; [|discriminate].
  intros E. now inversion E.
Qed.

Lemma parse_files_ok (total : Z) (files : list (string * plugin)) :
  forall counter all_scenarios final tr tr',
    parse_files float_of_str numpy_mean times_key total counter files all_scenarios tr
    = (Ok final, tr') ->
    final = accumulate float_of_str numpy_mean times_key files all_scenarios.
Proof.
  induction files as [|[name parsed] rest IH]; intros counter all_scenarios final tr tr'.
  - cbn. intros E. now inversion E.
  - cbn [parse_files]. unfold bind.
    destruct (process_file _ _ _ _ _ _ _ _ tr) as [[all'|e] tr1] eqn:E1; [|discriminate].
    intros E. apply IH in E. rewrite E.
    rewrite (process_file_ok _ _ _ _ _ _ _ _ E1). reflexivity.
Qed.

Lemma accumulate_app (files files' : list (string * plugin)) (all_scenarios : scenarios) :
  accumulate float_of_str numpy_mean times_key (files ++ files') all_scenarios
  = accumulate float_of_str numpy_mean times_key files'
      (accumulate float_of_str numpy_mean times_key files all_scenarios).
Proof. unfold accumulate. apply fold_left_app. Qed.

Lemma accumulate_cons (file : string * plugin) (files : list (string * plugin))
    (all_scenarios : scenarios) :
  accumulate float_of_str numpy_mean times_key (file :: files) all_scenarios
  = accumulate float_of_str numpy_mean times_key files
      (match contribution float_of_str numpy_mean times_key (snd file) with
       | Some (name, float_value, summary_values) =>
           record_summary name float_value summary_values all_scenarios
       | None => all_scenarios
       end).
Proof. reflexivity. Qed.

Lemma accumulate_well_keyed (files : list (string * plugin)) :
  forall all_scenarios,
    well_keyed all_scenarios ->
    well_keyed (accumulate float_of_str numpy_mean times_key files all_scenarios).
Proof.
  induction files as [|[name parsed] rest IH]; intros all_scenarios H; [exact H|].
  rewrite accumulate_cons. apply IH. cbn [snd].
  destruct (contribution float_of_str numpy_mean times_key parsed) as [[[n x] t]|];
    [now apply well_keyed_record|exact H].
Qed.

(** Files that add nothing under a key leave what is stored there. *)
Lemma accumulate_keeps (scenario : string) (x : float_object)
    (files : list (string * plugin)) :
  (forall file scenario' x' summary',
      In file files ->
      contribution float_of_str numpy_mean times_key (snd file)
      = Some (scenario', x', summary') ->
      scenario' = scenario -> same_key x' x = false) ->
  forall all_scenarios,
    lookup scenario x (accumulate float_of_str numpy_mean times_key files all_scenarios)
    = lookup scenario x all_scenarios.
Proof.
  induction files as [|file rest IH]; intros H all_scenarios; [reflexivity|].
  rewrite accumulate_cons.
  rewrite IH by (intros f n' x' t' Hin; apply H; now right).
  destruct (contribution float_of_str numpy_mean times_key (snd file))
    as [[[n' x'] t']|] eqn:E; [|reflexivity].
  apply lookup_record_other.
  destruct (string_dec n' scenario) as [En|En]; [right|now left].
  exact (H file n' x' t' (or_introl eq_refl) E En).
Qed.

(** What holds of the entries of a scenario stays so while files add
    to the mapping, if storing an entry keeps it. *)
Lemma accumulate_invariant (scenario : string)
    (P : list (float_object * triplet) -> Prop) :
  (forall k v points, P points -> P (Dict.set same_key k v points)) ->
  forall files all_scenarios points,
    Dict.get String.eqb scenario all_scenarios = Some points -> P points ->
    exists points',
      Dict.get String.eqb scenario
        (accumulate float_of_str numpy_mean times_key files all_scenarios)
      = Some points'
      /\ P points'.
Proof.
  intros HP. induction files as [|file rest IH]; intros acc points Hg Hp;
    [now exists points|].
  rewrite accumulate_cons.
  destruct (contribution float_of_str numpy_mean times_key (snd file))
    as [[[n' x'] t']|]; [|now apply (IH acc points)].
  unfold record_summary. destruct (String.eqb n' scenario) eqn:En.
  - apply String.eqb_eq in En. subst n'. rewrite Hg.
    apply (IH _ (Dict.set same_key x' t' points)); [|now apply HP].
    apply DictFacts.get_set_same, String.eqb_refl.
  - apply (IH _ points); [|exact Hp].
    rewrite (DictFacts.get_set_other String.eqb DictFacts.string_eqb_sym
               DictFacts.string_eqb_trans) by exact En.
    exact Hg.
Qed.

(** C10, amended.  After a run of the file loop that ends normally, a
    file that contributed under a scenario name and a label has its
    scenario in the mapping, stored once.  When its label is a NaN that
    [float] made from a text, its triplet is there to stay, whatever the
    other files are.  For every other label, the labels being the same
    when they compare equal with [==] or are both the literal [NaN] of a
    file: if no later file contributes under the same name and label,
    the mapping holds the file's triplet there, stored once, and no
    triplet an earlier file contributed for that name and label is left
    in the mapping the plotting calls read. *)
Theorem C10_last_file_wins (before after : list (string * plugin)) (name : string)
    (parsed : plugin) (tr tr' : list event) (final : scenarios)
    (scenario : string) (x : float_object) (summary : triplet) :
  show_plots float_of_str numpy_mean (before ++ (name, parsed) :: after) times_key tr
  = (Ok final, tr') ->
  contribution float_of_str numpy_mean times_key parsed = Some (scenario, x, summary) ->
  exists points,
    Dict.get String.eqb scenario final = Some points
    /\ Dict.count String.eqb scenario final = 1%nat
    /\ (x = Own B64.NaN -> In (x, summary) points)
    /\ (x <> Own B64.NaN ->
        (forall file scenario' x' summary',
            In file after ->
            contribution float_of_str numpy_mean times_key (snd file)
            = Some (scenario', x', summary') ->
            scenario' = scenario -> same_key x' x = false) ->
        lookup scenario x final = Some summary
        /\ Dict.count same_key x points = 1%nat
        /\ forall x' summary',
            In (x', summary') points -> same_key x' x = true -> summary' = summary).
Proof.
  intros Hrun Hc. unfold show_plots in Hrun. apply parse_files_ok in Hrun.
  assert (Hwk : well_keyed final).
  { rewrite Hrun. apply accumulate_well_keyed, well_keyed_nil. }
  assert (Hfinal : final
                   = accumulate float_of_str numpy_mean times_key after
                       (record_summary scenario x summary
                          (accumulate float_of_str numpy_mean times_key before []))).
  { rewrite Hrun, accumulate_app, accumulate_cons. cbn [snd]. now rewrite Hc. }
  set (earlier := accumulate float_of_str numpy_mean times_key before []) in Hfinal.
  set (stored := match Dict.get String.eqb scenario earlier with
                 | Some points => points
                 | None => []
                 end).
  assert (Hg : Dict.get String.eqb scenario (record_summary scenario x summary earlier)
               = Some (Dict.set same_key x summary stored)).
  { unfold record_summary. apply DictFacts.get_set_same, String.eqb_refl. }
  destruct (accumulate_invariant scenario (fun _ => True) (fun _ _ _ _ => I) after _ _ Hg I)
    as (points & Hp & _).
  rewrite <- Hfinal in Hp.
  exists points. split; [exact Hp|]. destruct Hwk as [Hu Hs].
  split; [exact (DictFacts.unique_get_count String.eqb scenario points final Hu Hp)|].
  split.
  - intros ->.
    destruct (accumulate_invariant scenario (fun points => In (Own B64.NaN, summary) points)
                (fun k v points H => set_keeps_own_nan k v summary points H)
                after _ _ Hg (set_own_nan summary stored)) as (points' & Hp' & Hin).
    rewrite <- Hfinal in Hp'. congruence.
  - intros Hx Hafter. apply same_key_refl in Hx.
    assert (Hl : lookup scenario x final = Some summary).
    { rewrite Hfinal, (accumulate_keeps scenario x after Hafter).
      now apply lookup_record_same. }
    split; [exact Hl|].
    unfold lookup in Hl. rewrite Hp in Hl.
    destruct (DictFacts.get_in _ _ _ _ Hp) as [n' Hin]. split.
    + exact (DictFacts.unique_get_count same_key x summary points (Hs n' points Hin) Hl).
    + intros x' summary' Hin' Hx'.
      exact (DictFacts.unique_in_get same_key x x' summary summary' points
               (Hs n' points Hin) Hl Hin' Hx').
Qed.

End LastWins.

Lemma C10_last_file_wins_witness :
  exists points,
    Dict.get String.eqb "mps"
      [("mps", [(Own (B64.Fin 5), (B64.Fin 250, B64.Fin 250, B64.Fin 250))])]
    = Some points
    /\ Dict.count String.eqb "mps"
         [("mps", [(Own (B64.Fin 5), (B64.Fin 250, B64.Fin 250, B64.Fin 250))])] = 1%nat
    /\ (Own (B64.Fin 5) = Own B64.NaN ->
        In (Own (B64.Fin 5), (B64.Fin 250, B64.Fin 250, B64.Fin 250)) points)
    /\ (Own (B64.Fin 5) <> Own B64.NaN ->
        (forall file scenario' x' summary',
            In file (@nil (string * plugin)) ->
            contribution float_of_decimal mean_sequential "execute_times" (snd file)
            = Some (scenario', x', summary') ->
            scenario' = "mps" -> same_key x' (Own (B64.Fin 5)) = false) ->
        lookup "mps" (Own (B64.Fin 5))
          [("mps", [(Own (B64.Fin 5), (B64.Fin 250, B64.Fin 250, B64.Fin 250))])]
        = Some (B64.Fin 250, B64.Fin 250, B64.Fin 250)
        /\ Dict.count same_key (Own (B64.Fin 5)) points = 1%nat
        /\ forall x' summary',
            In (x', summary') points -> same_key x' (Own (B64.Fin 5)) = true ->
            summary' = (B64.Fin 250, B64.Fin 250, B64.Fin 250)).
Proof.
  apply (C10_last_file_wins float_of_decimal mean_sequential "execute_times"
           [("a.json", first_file)] [] "b.json" second_file []
           [Stdout "Parsing file 1 / 2: a.json"; Stdout "Parsing file 2 / 2: b.json"]).
  - vm_compute. reflexivity.
  - vm_compute. reflexivity.
Defined.

(** Two files of the scenario [mps] whose label is the text [nan]: the
    label passes the numeric test, each file gets an entry of its own,
    the first file's triplet stays in the mapping and its mean is among
    the values handed to [axes.plot]. *)
Lemma C10_counterexample :
  let files := [ ("a.json", relabel (JStr "nan") first_file);
                 ("b.json", relabel (JStr "nan") second_file) ] in
  let kept := [ (Own B64.NaN, (B64.Fin 500, B64.Fin 500, B64.Fin 500));
                (Own B64.NaN, (B64.Fin 250, B64.Fin 250, B64.Fin 250)) ] in
  convert_to_float float_of_text (JStr "nan") = Some (Own B64.NaN)
  /\ scenario_name (relabel (JStr "nan") first_file)
     = scenario_name (relabel (JStr "nan") second_file)
  /\ show_plots float_of_text mean_sequential files "execute_times" []
     = (Ok [("mps", kept)],
        [Stdout "Parsing file 1 / 2: a.json"; Stdout "Parsing file 2 / 2: b.json"])
  /\ Plot.scenario_to_distribution Plot.insertion_sort kept
     = Ok ([B64.NaN; B64.NaN], [B64.Fin 500; B64.Fin 250], [B64.Fin 500; B64.Fin 250],
           [B64.Fin 500; B64.Fin 250]).
Proof. repeat split; vm_compute; reflexivity. Qed.

(** The same two files with the literal [NaN] as their label, which is
    one object for both: the second file's triplet replaces the first. *)
Example literal_nan_example :
  show_plots float_of_text mean_sequential
    [ ("a.json", relabel (JFloat B64.NaN) first_file);
      ("b.json", relabel (JFloat B64.NaN) second_file) ]
    "execute_times" []
  = (Ok [("mps", [(JsonNaN, (B64.Fin 250, B64.Fin 250, B64.Fin 250))])],
     [Stdout "Parsing file 1 / 2: a.json"; Stdout "Parsing file 2 / 2: b.json"]).
Proof. vm_compute. reflexivity. Qed.

(** Two files of one scenario and label, then one without a label: the
    second file's triplet is what is kept. *)
Example show_plots_example :
  show_plots float_of_decimal mean_sequential
    [("a.json", first_file); ("b.json", second_file); ("c.json", example_record)]
    "execute_times" []
  = (Ok [("mps", [(Own (B64.Fin 5), (B64.Fin 250, B64.Fin 250, B64.Fin 250))])],
     [ Stdout "Parsing file 1 / 3: a.json";
       Stdout "Parsing file 2 / 3: b.json";
       Stdout "Parsing file 3 / 3: c.json";
       Stdout ("Skipping c.json: no " ++ dquote ++ "label" ++ dquote ++ " field in file.") ]).
Proof. vm_compute. reflexivity. Qed.

Example convert_to_float_examples :
  convert_to_float float_of_decimal (JStr "54") = Some (Own (B64.Fin 54))
  /\ convert_to_float float_of_decimal (JStr "1.002") = Some (Own (B64.of_Q (1002 # 1000)))
  /\ convert_to_float float_of_decimal (JStr "fast") = None
  /\ convert_to_float float_of_decimal (JInt 7) = Some (Own (B64.Fin 7))
  /\ convert_to_float float_of_decimal (JBool true) = Some (Own (B64.Fin 1))
  /\ convert_to_float float_of_decimal JNull = None
  /\ convert_to_float float_of_decimal (JList []) = None
  /\ convert_to_float float_of_decimal (JInt (2 ^ 1024)) = None.
Proof. repeat split; vm_compute; reflexivity. Qed.

(** [min] and [max] keep the first of equal elements and never move
    past a leading NaN. *)
Example min_max_examples :
  py_min [B64.Fin 3; B64.Fin 1; B64.Fin 2] = Ok (B64.Fin 1)
  /\ py_max [B64.Fin 3; B64.Fin 1; B64.Fin 5] = Ok (B64.Fin 5)
  /\ py_min [B64.NaN; B64.Fin 1] = Ok B64.NaN
  /\ py_min [B64.Fin 1; B64.NaN] = Ok (B64.Fin 1)
  /\ py_min [] = Raise ValueError.
Proof. repeat split; vm_compute; reflexivity. Qed.

End ScatterFacts.

(** ** The order of binary64 values under rounding *)

Module B64Order.
Import B64 B64Facts.
Local Open Scope Q_scope.

Lemma round_half_even_inject (k : Z) : round_half_even (inject_Z k) = k.
Proof.
  unfold round_half_even. rewrite Qfloor_Z.
  destruct (Qcompare (inject_Z k - inject_Z k) (1 # 2)) eqn:E; [| reflexivity |].
  - apply Qeq_alt in E. exfalso. lra.
  - apply Qgt_alt in E. exfalso. lra.
Qed.

Lemma round_half_even_mono (x y : Q) : x <= y -> (round_half_even x <= round_half_even y)%Z.
Proof.
  intros H. pose proof (Qfloor_resp_le _ _ H) as Hf.
  assert (Hx : (Qfloor x <= round_half_even x <= Qfloor x + 1)%Z).
  { unfold round_half_even. destruct (Qcompare _ _); [destruct (Z.even _)| |]; lia. }
  assert (Hy : (Qfloor y <= round_half_even y <= Qfloor y + 1)%Z).
  { unfold round_half_even. destruct (Qcompare _ _); [destruct (Z.even _)| |]; lia. }
  destruct (Z.eq_dec (Qfloor x) (Qfloor y)) as [E|E]; [|lia].
  unfold round_half_even. rewrite <- E.
  destruct (Qcompare (x - inject_Z (Qfloor x)) (1 # 2)) eqn:Ex;
    destruct (Qcompare (y - inject_Z (Qfloor x)) (1 # 2)) eqn:Ey;
    try (destruct (Z.even (Qfloor x))); try lia;
    repeat match goal with
           | C : Qcompare _ _ = Eq |- _ => apply Qeq_alt in C
           | C : Qcompare _ _ = Lt |- _ => apply Qlt_alt in C
           | C : Qcompare _ _ = Gt |- _ => apply Qgt_alt in C
           end;
    exfalso; set (f := inject_Z (Qfloor x)) in *; clearbody f; lra.
Qed.

(** Rounding does not cross a point of the grid it rounds to. *)
Lemma rnd_grid (q : Q) (k : Z) :
  ~ q == 0 ->
  (q <= inject_Z k * 2 ^ exponent q -> rnd q <= inject_Z k * 2 ^ exponent q)
  /\ (inject_Z k * 2 ^ exponent q <= q -> inject_Z k * 2 ^ exponent q <= rnd q).
Proof.
  intros Hnz. rewrite (rnd_nonzero q Hnz).
  pose proof (two_pow_pos (exponent q)) as Hp. set (P := 2 ^ exponent q) in *.
  split; intros H.
  - assert (Hx : q / P <= inject_Z k) by (apply Qle_shift_div_r; assumption).
    apply round_half_even_mono in Hx. rewrite round_half_even_inject in Hx.
    apply Qmult_le_compat_r; [|lra]. now rewrite <- Zle_Qle.
  - assert (Hx : inject_Z k <= q / P) by (apply Qle_shift_div_l; assumption).
    apply round_half_even_mono in Hx. rewrite round_half_even_inject in Hx.
    apply Qmult_le_compat_r; [|lra]. now rewrite <- Zle_Qle.
Qed.

Lemma rnd_nonneg (q : Q) : 0 <= q -> 0 <= rnd q.
Proof.
  intros H. destruct (Qeq_dec q 0) as [Hz|Hnz].
  - rewrite (rnd_zero q Hz). lra.
  - destruct (rnd_grid q 0 Hnz) as [_ Hg]. change (inject_Z 0) with 0 in Hg.
    rewrite Qmult_0_l in Hg. now apply Hg.
Qed.

Lemma rnd_nonpos (q : Q) : q <= 0 -> rnd q <= 0.
Proof.
  intros H. destruct (Qeq_dec q 0) as [Hz|Hnz].
  - rewrite (rnd_zero q Hz). lra.
  - destruct (rnd_grid q 0 Hnz) as [Hg _]. change (inject_Z 0) with 0 in Hg.
    rewrite Qmult_0_l in Hg. now apply Hg.
Qed.

Lemma ilog2_mono (x y : Q) : 0 < x -> x <= y -> (ilog2 x <= ilog2 y)%Z.
Proof.
  intros Hx Hxy.
  assert (Hy : 0 < y) by lra.
  pose proof (ilog2_upper y Hy) as Hu.
  pose proof (ilog2_upper_bound x (ilog2 y + 1) Hx ltac:(lra)). lia.
Qed.

Lemma two_pow_inject (n : Z) : (0 <= n)%Z -> inject_Z (2 ^ n) == 2 ^ n.
Proof. intros H. now rewrite Zpower_Qpower. Qed.

Lemma ilog2_abs_neg (x : Q) : x < 0 -> ilog2 (Qabs x) = ilog2 (- x).
Proof.
  intros Hx. unfold ilog2. destruct x as [n d]. unfold Qlt in Hx. cbn in Hx.
  destruct n; try lia. reflexivity.
Qed.

Lemma ilog2_abs_pos (x : Q) : 0 < x -> ilog2 (Qabs x) = ilog2 x.
Proof.
  intros Hx. unfold ilog2. destruct x as [n d]. unfold Qlt in Hx. cbn in Hx.
  destruct n; try lia. reflexivity.
Qed.

(** Between two positive numbers of different exponents lies a power of
    two, which is on the grid of both. *)
Lemma rnd_mono_pos (x y : Q) : 0 < x -> x <= y -> rnd x <= rnd y.
Proof.
  intros Hx Hxy. assert (Hy : 0 < y) by lra.
  assert (Hnx : ~ x == 0) by lra. assert (Hny : ~ y == 0) by lra.
  pose proof (ilog2_abs_pos x Hx) as Hlx. pose proof (ilog2_abs_pos y Hy) as Hly.
  pose proof (ilog2_mono x y Hx Hxy) as Hl.
  destruct (Z.eq_dec (exponent x) (exponent y)) as [E|E].
  - rewrite (rnd_nonzero x Hnx), (rnd_nonzero y Hny), E.
    pose proof (two_pow_pos (exponent y)) as Hp. set (P := 2 ^ exponent y) in *.
    apply Qmult_le_compat_r; [|lra]. rewrite <- Zle_Qle.
    apply round_half_even_mono. apply Qle_shift_div_l; [exact Hp|].
    assert (Hxp : x / P * P == x) by (field; lra). lra.
  - assert (Hey : exponent y = (ilog2 y - 52)%Z /\ (exponent x < exponent y)%Z)
      by (unfold exponent in *; rewrite Hlx, Hly in *; lia).
    destruct Hey as [Hey Hlt].
    assert (Hex : (ilog2 x - 52 <= exponent x)%Z) by (unfold exponent; rewrite Hlx; lia).
    set (B := 2 ^ ilog2 y).
    apply Qle_trans with B.
    + destruct (rnd_grid x (2 ^ (ilog2 y - exponent x)) Hnx) as [Hg _].
      assert (HB : inject_Z (2 ^ (ilog2 y - exponent x)) * 2 ^ exponent x == B).
      { rewrite two_pow_inject by lia. rewrite <- Qpower_plus by discriminate.
        unfold B. now replace (ilog2 y - exponent x + exponent x)%Z with (ilog2 y) by lia. }
      rewrite HB in Hg. apply Hg.
      pose proof (ilog2_upper x Hx) as Hu.
      pose proof (two_pow_mono (ilog2 x + 1) (ilog2 y) ltac:(lia)). unfold B. lra.
    + destruct (rnd_grid y (2 ^ 52) Hny) as [_ Hg].
      assert (HB : inject_Z (2 ^ 52) * 2 ^ exponent y == B).
      { rewrite two_pow_inject by lia. rewrite <- Qpower_plus by discriminate.
        unfold B. rewrite Hey. now replace (52 + (ilog2 y - 52))%Z with (ilog2 y) by lia. }
      rewrite HB in Hg. apply Hg. unfold B. now apply ilog2_lower.
Qed.

Lemma rnd_mono_neg (x y : Q) : y < 0 -> x <= y -> rnd x <= rnd y.
Proof.
  intros Hy Hxy. assert (Hx : x < 0) by lra.
  assert (Hnx : ~ x == 0) by lra. assert (Hny : ~ y == 0) by lra.
  pose proof (ilog2_abs_neg x Hx) as Hlx. pose proof (ilog2_abs_neg y Hy) as Hly.
  pose proof (ilog2_mono (- y) (- x) ltac:(lra) ltac:(lra)) as Hl.
  destruct (Z.eq_dec (exponent x) (exponent y)) as [E|E].
  - rewrite (rnd_nonzero x Hnx), (rnd_nonzero y Hny), E.
    pose proof (two_pow_pos (exponent y)) as Hp. set (P := 2 ^ exponent y) in *.
    apply Qmult_le_compat_r; [|lra]. rewrite <- Zle_Qle.
    apply round_half_even_mono. apply Qle_shift_div_l; [exact Hp|].
    assert (Hxp : x / P * P == x) by (field; lra). lra.
  - assert (Hex : exponent x = (ilog2 (- x) - 52)%Z /\ (exponent y < exponent x)%Z)
      by (unfold exponent in *; rewrite Hlx, Hly in *; lia).
    destruct Hex as [Hex Hlt].
    assert (Hey : (ilog2 (- y) - 52 <= exponent y)%Z) by (unfold exponent; rewrite Hly; lia).
    set (B := 2 ^ ilog2 (- x)).
    apply Qle_trans with (- B).
    + destruct (rnd_grid x (- 2 ^ 52) Hnx) as [Hg _].
      assert (HB : inject_Z (- 2 ^ 52) * 2 ^ exponent x == - B).
      { rewrite inject_Z_opp, two_pow_inject by lia.
        assert (HP : 2 ^ 52 * 2 ^ exponent x == B).
        { rewrite <- Qpower_plus by discriminate.
          unfold B. rewrite Hex.
          now replace (52 + (ilog2 (- x) - 52))%Z with (ilog2 (- x)) by lia. }
        rewrite <- HP. ring. }
      rewrite HB in Hg. apply Hg.
      pose proof (ilog2_lower (- x) ltac:(lra)). unfold B. lra.
    + destruct (rnd_grid y (- 2 ^ (ilog2 (- x) - exponent y)) Hny) as [_ Hg].
      assert (HB : inject_Z (- 2 ^ (ilog2 (- x) - exponent y)) * 2 ^ exponent y == - B).
      { rewrite inject_Z_opp, two_pow_inject by lia.
        assert (HP : 2 ^ (ilog2 (- x) - exponent y) * 2 ^ exponent y == B).
        { rewrite <- Qpower_plus by discriminate. unfold B.
          now replace (ilog2 (- x) - exponent y + exponent y)%Z with (ilog2 (- x)) by lia. }
        rewrite <- HP. ring. }
      rewrite HB in Hg. apply Hg.
      pose proof (ilog2_upper (- y) ltac:(lra)) as Hu.
      pose proof (two_pow_mono (ilog2 (- y) + 1) (ilog2 (- x)) ltac:(lia)). unfold B. lra.
Qed.

(** Rounding to binary64 keeps the order. *)
Lemma rnd_mono (x y : Q) : x <= y -> rnd x <= rnd y.
Proof.
  intros H. destruct (Qlt_le_dec 0 x) as [Hx|Hx].
  - now apply rnd_mono_pos.
  - destruct (Qlt_le_dec y 0) as [Hy|Hy].
    + now apply rnd_mono_neg.
    + apply Qle_trans with 0; [now apply rnd_nonpos|now apply rnd_nonneg].
Qed.

Lemma Qle_bool_false (a b : Q) : Qle_bool a b = false <-> b < a.
Proof.
  split.
  - intros H. apply Qnot_le_lt. intros Hle. apply Qle_bool_iff in Hle. congruence.
  - intros H. destruct (Qle_bool a b) eqn:E; [|reflexivity].
    apply Qle_bool_iff in E. exfalso. apply (Qlt_not_le _ _ H E).
Qed.

Lemma leb_fin (a b : Q) : leb (Fin a) (Fin b) = true <-> a <= b.
Proof.
  unfold leb, ltb, eqb, Qltb. rewrite orb_true_iff, negb_true_iff, Qle_bool_false.
  split.
  - intros [H|H]; [lra|]. apply Qeq_bool_iff in H. lra.
  - intros H. destruct (Qlt_le_dec a b) as [Hlt|Hge]; [now left|].
    right. apply Qeq_bool_iff. lra.
Qed.

(** What [of_Q] returns, by the size of the rounded value. *)
Lemma of_Q_cases (q : Q) :
  (of_Q q = Fin (rnd q) /\ - 2 ^ 1024 < rnd q < 2 ^ 1024)
  \/ (of_Q q = Inf false /\ 2 ^ 1024 <= rnd q)
  \/ (of_Q q = Inf true /\ rnd q <= - 2 ^ 1024).
Proof.
  unfold of_Q. set (big := 2 ^ 1024).
  assert (Hbig : 0 < big) by apply two_pow_pos.
  destruct (Qle_bool big (Qabs (rnd q))) eqn:E.
  - apply Qle_bool_iff in E. destruct (Qle_bool 0 (rnd q)) eqn:E0; cbn [negb].
    + apply Qle_bool_iff in E0. right. left. split; [reflexivity|].
      rewrite Qabs_pos in E by exact E0. exact E.
    + apply Qle_bool_false in E0. right. right. split; [reflexivity|].
      rewrite Qabs_neg in E by lra. lra.
  - apply Qle_bool_false in E. apply Qabs_Qlt_condition in E. left. now split.
Qed.

Lemma of_Q_mono (a b : Q) : a <= b -> leb (of_Q a) (of_Q b) = true.
Proof.
  intros H. pose proof (rnd_mono a b H) as Hr.
  assert (Hbig : 0 < 2 ^ 1024) by apply two_pow_pos. set (big := 2 ^ 1024) in *.
  destruct (of_Q_cases a) as [[-> Ha]|[[-> Ha]|[-> Ha]]];
    destruct (of_Q_cases b) as [[-> Hb]|[[-> Hb]|[-> Hb]]];
    fold big in Ha, Hb; try reflexivity; try (exfalso; lra).
  now apply leb_fin.
Qed.

Lemma of_Q_not_nan (q : Q) : of_Q q <> NaN.
Proof. destruct (of_Q_cases q) as [[-> _]|[[-> _]|[-> _]]]; discriminate. Qed.

Lemma of_Q_nonneg (q : Q) :
  0 <= q -> (exists p, of_Q q = Fin p /\ 0 <= p) \/ of_Q q = Inf false.
Proof.
  intros H. pose proof (rnd_nonneg q H) as Hr.
  assert (Hbig : 0 < 2 ^ 1024) by apply two_pow_pos.
  destruct (of_Q_cases q) as [[-> _]|[[-> _]|[_ Hq]]].
  - left. now exists (rnd q).
  - now right.
  - exfalso. set (big := 2 ^ 1024) in *. lra.
Qed.

(** Multiplying by a positive constant keeps [<=]. *)
Lemma mul_mono (x y : t) (c : Q) :
  0 < c -> leb x y = true -> leb (mul x (Fin c)) (mul y (Fin c)) = true.
Proof.
  intros Hc H.
  assert (Hc0 : Qeq_bool c 0 = false).
  { destruct (Qeq_bool c 0) eqn:E; [|reflexivity]. apply Qeq_bool_iff in E. lra. }
  assert (Hcn : Qltb c 0 = false).
  { unfold Qltb. apply negb_false_iff, Qle_bool_iff. lra. }
  destruct x as [a|s|], y as [b|s'|]; try discriminate H.
  - cbn [mul]. apply of_Q_mono. apply leb_fin in H. nra.
  - cbn [mul]. rewrite Hc0, Hcn. destruct s'; [discriminate H|].
    destruct (of_Q_cases (a * c)) as [[-> _]|[[-> _]|[-> _]]]; reflexivity.
  - cbn [mul]. rewrite Hc0, Hcn. destruct s; [|discriminate H].
    destruct (of_Q_cases (b * c)) as [[-> _]|[[-> _]|[-> _]]]; reflexivity.
  - cbn [mul]. rewrite Hc0, Hcn. destruct s, s'; try discriminate H; reflexivity.
Qed.

Lemma not_ltb_leb (x y : t) : x <> NaN -> y <> NaN -> ltb y x = false -> leb x y = true.
Proof.
  intros Hx Hy H. destruct x as [a|s|], y as [b|s'|]; try contradiction.
  - apply leb_fin. cbn in H. unfold Qltb in H. apply negb_false_iff, Qle_bool_iff in H. exact H.
  - destruct s'; [discriminate H|reflexivity].
  - destruct s; [reflexivity|discriminate H].
  - destruct s, s'; try discriminate H; reflexivity.
Qed.

(** From 100 upwards [of_Q] gives a float that is not below 100. *)
Lemma of_Q_hundred (q : Q) : 100 <= q -> lt_int (of_Q q) 100 = false.
Proof.
  intros H. apply (rnd_mono 100 q) in H.
  assert (E : rnd 100 == 100) by (vm_compute; reflexivity).
  assert (Hbig : 0 < 2 ^ 1024) by apply two_pow_pos.
  destruct (of_Q_cases q) as [[-> _]|[[-> _]|[-> Hq]]].
  - cbn. unfold Qltb. apply negb_false_iff, Qle_bool_iff.
    change (inject_Z 100) with 100. lra.
  - reflexivity.
  - exfalso. set (big := 2 ^ 1024) in *. lra.
Qed.

Lemma round_half_even_below (x : Q) (k : Z) :
  x < inject_Z k + (1 # 2) -> (round_half_even x <= k)%Z.
Proof.
  intros H. pose proof (round_half_even_error x) as He.
  apply Qabs_Qle_condition in He. destruct He as [_ He].
  assert (Hlt : inject_Z (round_half_even x) < inject_Z (k + 1)).
  { rewrite inject_Z_plus. change (inject_Z 1) with 1. lra. }
  rewrite <- Zlt_Qlt in Hlt. lia.
Qed.

Lemma rnd_below_overflow (q : Q) : 0 < q -> q < overflow_threshold -> rnd q < 2 ^ 1024.
Proof.
  intros H0 Hq. assert (Hnz : ~ q == 0) by lra.
  assert (Hbig : q < 2 ^ 1024).
  { unfold overflow_threshold in Hq. pose proof (two_pow_pos 970). lra. }
  pose proof (ilog2_upper_bound q 1024 H0 Hbig) as Hl.
  assert (He : (exponent q <= 971)%Z).
  { unfold exponent. rewrite (ilog2_abs_pos q H0). lia. }
  rewrite (rnd_nonzero q Hnz).
  pose proof (two_pow_pos (exponent q)) as Hp.
  destruct (Z.eq_dec (exponent q) 971) as [E|E].
  - rewrite E in *.
    assert (Hk : (round_half_even (q / 2 ^ 971) <= 2 ^ 53 - 1)%Z).
    { apply round_half_even_below.
      apply Qlt_shift_div_r; [exact Hp|].
      eapply Qlt_le_trans; [exact Hq|]. unfold overflow_threshold.
      apply Qle_lteq. right. vm_compute. reflexivity. }
    rewrite Zle_Qle in Hk.
    eapply Qle_lt_trans.
    + apply Qmult_le_compat_r; [exact Hk|]. now apply Qlt_le_weak.
    + vm_compute. reflexivity.
  - destruct (scaled_significand q Hnz) as [Hs _].
    apply Qabs_Qlt_condition in Hs. destruct Hs as [_ Hs].
    assert (Hk : (round_half_even (q / 2 ^ exponent q) <= 2 ^ 53)%Z).
    { rewrite <- (round_half_even_inject (2 ^ 53)).
      apply round_half_even_mono. rewrite two_pow_inject by lia. now apply Qlt_le_weak. }
    rewrite Zle_Qle, two_pow_inject in Hk by lia.
    eapply Qle_lt_trans.
    + apply Qmult_le_compat_r; [exact Hk|]. now apply Qlt_le_weak.
    + eapply Qle_lt_trans.
      * apply Qmult_le_l; [apply two_pow_pos|]. apply (two_pow_mono (exponent q) 970). lia.
      * vm_compute. reflexivity.
Qed.

Lemma rnd_at_overflow (q : Q) : overflow_threshold <= q -> 2 ^ 1024 <= rnd q.
Proof.
  intros H. eapply Qle_trans; [|apply rnd_mono; exact H].
  apply Qle_lteq. right. vm_compute. reflexivity.
Qed.

(** The quotient of two positive integers is in the range of floats
    exactly below the threshold. *)
Lemma true_div_range (a b : Z) :
  (0 < a)%Z -> (0 < b)%Z ->
  ((inject_Z a / inject_Z b < overflow_threshold ->
    B64.true_div a b = Py.Ok (Fin (rnd (inject_Z a / inject_Z b))))
   /\ (overflow_threshold <= inject_Z a / inject_Z b ->
       B64.true_div a b = Py.Raise Py.OverflowError)).
Proof.
  intros Ha Hb. unfold true_div.
  replace (b =? 0)%Z with false by (symmetry; apply Z.eqb_neq; lia).
  assert (H0 : 0 < inject_Z a / inject_Z b).
  { apply Qlt_shift_div_l.
    - change 0 with (inject_Z 0). now rewrite <- Zlt_Qlt.
    - rewrite Qmult_0_l. change 0 with (inject_Z 0). now rewrite <- Zlt_Qlt. }
  split; intros H.
  - pose proof (rnd_below_overflow _ H0 H) as Hr.
    pose proof (rnd_nonneg _ (Qlt_le_weak _ _ H0)) as Hn.
    destruct (of_Q_cases (inject_Z a / inject_Z b)) as [[-> _]|[[_ Hc]|[_ Hc]]].
    + reflexivity.
    + exfalso. lra.
    + exfalso. pose proof (two_pow_pos 1024). lra.
  - pose proof (rnd_at_overflow _ H) as Hr.
    destruct (of_Q_cases (inject_Z a / inject_Z b)) as [[_ Hc]|[[-> _]|[_ Hc]]].
    + exfalso. lra.
    + reflexivity.
    + exfalso. pose proof (two_pow_pos 1024). lra.
Qed.

End B64Order.

(** ** The sweep driver: MiG reconfiguration, edge cases, whole sweeps *)

Module SweepFacts.
Import Py Run Granularity GranularityFacts.

(** The MiG branch, outcome by outcome. *)
Lemma partition_mig (w : world) (part_method : string) (total_tpcs active_tpcs : Z)
    (pc : list (string * json)) (tr : list event) :
  lower part_method = "mig" ->
  partition w part_method total_tpcs active_tpcs pc tr
  = let s1 := os_system_status w tr mig_query in
    if negb (WIFEXITED s1) || (WEXITSTATUS s1 =? 6) then
      (Raise (Exception "MiG-capable GPU required for MiG experiments!"),
       (tr ++ [Shell mig_query])%list)
    else
      match MIG_CONFIGS_getitem active_tpcs with
      | Raise e => (Raise e, (tr ++ [Shell mig_query])%list)
      | Ok geometry =>
          let s2 := os_system_status w (tr ++ map Shell (mig_query :: mig_teardown))%list
                      (mig_create geometry) in
          if negb (WIFEXITED s2) || negb (WEXITSTATUS s2 =? 0) then
            (Raise (Exception ("Unable to create MiG instance with config " ++ geometry ++ "!")),
             (tr ++ map Shell (mig_commands geometry))%list)
          else (Ok pc, (tr ++ map Shell (mig_commands geometry))%list)
      end.
Proof.
  intros Hm. unfold partition. rewrite Hm.
  change ("mig" =? "mps")%string with false.
  change ("mig" =? "libsmctrl")%string with false.
  change ("mig" =? "mig")%string with true. cbv iota zeta.
  unfold bind, os_system, lift, ret, raise. cbv beta iota.
  unfold mig_commands, mig_query, mig_teardown, mig_create. cbn [map app].
  set (s1 := os_system_status w tr "nvidia-smi mig --list-gpu-instance-profiles").
  destruct (negb (WIFEXITED s1) || (WEXITSTATUS s1 =? 6)); [reflexivity|].
  destruct (MIG_CONFIGS_getitem active_tpcs) as [geometry|e]; [|reflexivity].
  rewrite <- !app_assoc. cbn [app].
  match goal with
  | |- context [os_system_status w ?t ?c] =>
      lazymatch c with
      | context [geometry] => set (s2 := os_system_status w t c)
      end
  end.
  destruct (negb (WIFEXITED s2) || negb (WEXITSTATUS s2 =? 0)); reflexivity.
Qed.

(** X1.  A MiG configuration for a count of the table, on a GPU that is
    MiG-capable and on which the creation succeeds: [generate_config]
    runs exactly four commands, in the order query, destroy compute
    instances, destroy GPU instances, create; it ignores what the two
    destroying commands return; and the configuration it returns holds
    the fixed benchmark parameters only, no setting that names the
    geometry. *)
Theorem mig_reconfigures (w : world) (device : Z) (part_method : string)
    (total_tpcs active_tpcs iterations : Z) (tr : list event) (geometry : string) :
  lower part_method = "mig" ->
  Dict.get Z.eqb active_tpcs MIG_CONFIGS = Some geometry ->
  let s1 := os_system_status w tr mig_query in
  let s2 := os_system_status w (tr ++ map Shell (mig_query :: mig_teardown))%list
              (mig_create geometry) in
  WIFEXITED s1 = true -> WEXITSTATUS s1 <> 6 ->
  WIFEXITED s2 = true -> WEXITSTATUS s2 = 0 ->
  generate_config w device part_method total_tpcs active_tpcs iterations tr
  = (Ok (overall_config device part_method iterations
           (plugin_config_init part_method active_tpcs)),
     (tr ++ map Shell (mig_commands geometry))%list).
Proof.
  intros Hm Hg s1 s2 H1 H2 H3 H4.
  unfold generate_config, bind. rewrite (partition_mig w part_method _ _ _ tr Hm).
  cbv zeta. fold s1. rewrite H1. cbn [negb orb].
  replace (WEXITSTATUS s1 =? 6) with false by (symmetry; apply Z.eqb_neq; exact H2).
  unfold MIG_CONFIGS_getitem. rewrite Hg. fold s2. rewrite H3, H4. reflexivity.
Qed.

Lemma mig_reconfigures_witness :
  generate_config example_world 0 "mig" 54 14 10 []
  = (Ok (overall_config 0 "mig" 10 (plugin_config_init "mig" 14)),
     ([] ++ map Shell (mig_commands "2g.10gb"))%list).
Proof.
  apply (mig_reconfigures example_world 0 "mig" 54 14 10 [] "2g.10gb");
    try reflexivity. discriminate.
Defined.

(** X2.  When the query for the instance profiles does not exit, or
    exits with status 6, [generate_config] under "mig" raises the
    MiG-capability exception for every count, after that one command:
    nothing is destroyed and the table of geometries is not consulted. *)
Theorem mig_requires_capable_gpu (w : world) (device : Z) (part_method : string)
    (total_tpcs active_tpcs iterations : Z) (tr : list event) :
  lower part_method = "mig" ->
  let s1 := os_system_status w tr mig_query in
  WIFEXITED s1 = false \/ WEXITSTATUS s1 = 6 ->
  generate_config w device part_method total_tpcs active_tpcs iterations tr
  = (Raise (Exception "MiG-capable GPU required for MiG experiments!"),
     (tr ++ [Shell mig_query])%list).
Proof.
  intros Hm s1 H.
  unfold generate_config, bind. rewrite (partition_mig w part_method _ _ _ tr Hm).
  cbv zeta. fold s1.
  replace (negb (WIFEXITED s1) || (WEXITSTATUS s1 =? 6)) with true; [reflexivity|].
  symmetry. apply orb_true_iff. destruct H as [H|H].
  - left. now rewrite H.
  - right. now rewrite H.
Qed.

Lemma mig_requires_capable_gpu_witness :
  generate_config no_mig_world 0 "mig" 54 14 10 []
  = (Raise (Exception "MiG-capable GPU required for MiG experiments!"),
     ([] ++ [Shell mig_query])%list).
Proof.
  apply (mig_requires_capable_gpu no_mig_world 0 "mig" 54 14 10 []); [reflexivity|].
  right. reflexivity.
Defined.

(** X3.  When the command that creates the GPU instance does not exit
    with status 0, [generate_config] under "mig" raises an exception that
    names the geometry, and by then the two destroying commands have
    run: the earlier partition is gone and none replaces it. *)
Theorem mig_creation_failure (w : world) (device : Z) (part_method : string)
    (total_tpcs active_tpcs iterations : Z) (tr : list event) (geometry : string) :
  lower part_method = "mig" ->
  Dict.get Z.eqb active_tpcs MIG_CONFIGS = Some geometry ->
  let s1 := os_system_status w tr mig_query in
  let s2 := os_system_status w (tr ++ map Shell (mig_query :: mig_teardown))%list
              (mig_create geometry) in
  WIFEXITED s1 = true -> WEXITSTATUS s1 <> 6 ->
  WIFEXITED s2 = false \/ WEXITSTATUS s2 <> 0 ->
  generate_config w device part_method total_tpcs active_tpcs iterations tr
  = (Raise (Exception ("Unable to create MiG instance with config " ++ geometry ++ "!")),
     (tr ++ map Shell (mig_query :: mig_teardown ++ [mig_create geometry]))%list).
Proof.
  intros Hm Hg s1 s2 H1 H2 H3.
  unfold generate_config, bind. rewrite (partition_mig w part_method _ _ _ tr Hm).
  cbv zeta. fold s1. rewrite H1. cbn [negb orb].
  replace (WEXITSTATUS s1 =? 6) with false by (symmetry; apply Z.eqb_neq; exact H2).
  unfold MIG_CONFIGS_getitem. rewrite Hg. fold s2.
  replace (negb (WIFEXITED s2) || negb (WEXITSTATUS s2 =? 0)) with true; [reflexivity|].
  symmetry. apply orb_true_iff. destruct H3 as [H|H].
  - left. now rewrite H.
  - right. apply negb_true_iff, Z.eqb_neq. exact H.
Qed.

Lemma mig_creation_failure_witness :
  generate_config create_fails_world 0 "mig" 54 14 10 []
  = (Raise (Exception ("Unable to create MiG instance with config " ++ "2g.10gb" ++ "!")),
     ([] ++ map Shell (mig_query :: mig_teardown ++ [mig_create "2g.10gb"]))%list).
Proof.
  apply (mig_creation_failure create_fails_world 0 "mig" 54 14 10 [] "2g.10gb");
    try reflexivity; [discriminate|]. right. discriminate.
Defined.

(** X4.  Whatever its arguments and however it ends, [generate_config]
    adds to the events only shell commands: none at all unless the method
    is "mig" in some spelling of case, and then the query for the instance
    profiles first.  It prints nothing and starts no runner. *)
Theorem generate_config_effects (w : world) (device : Z) (part_method : string)
    (total_tpcs active_tpcs iterations : Z) (tr : list event) :
  exists commands,
    snd (generate_config w device part_method total_tpcs active_tpcs iterations tr)
    = (tr ++ map Shell commands)%list
    /\ (lower part_method <> "mig" -> commands = [])
    /\ (lower part_method = "mig" -> exists rest, commands = mig_query :: rest).
Proof.
  unfold generate_config, bind.
  destruct (string_dec (lower part_method) "mig") as [Hm|Hm].
  - rewrite (partition_mig w part_method _ _ _ tr Hm). cbv zeta.
    destruct (negb _ || _).
    { exists [mig_query]. cbn [snd map].
      split; [reflexivity|]. split; [contradiction|]. intros _. now exists []. }
    destruct (MIG_CONFIGS_getitem active_tpcs) as [geometry|e].
    2:{ exists [mig_query]. cbn [snd map].
        split; [reflexivity|]. split; [contradiction|]. intros _. now exists []. }
    exists (mig_commands geometry).
    split; [destruct (negb _ || _); reflexivity|]. split; [contradiction|].
    intros _. eexists. reflexivity.
  - exists []. cbn [map]. rewrite app_nil_r. split; [|split; [reflexivity|contradiction]].
    unfold partition.
    destruct (lower part_method =? "mps")%string.
    { unfold bind, lift, ret.
      now destruct (B64.true_div (100 * active_tpcs) total_tpcs). }
    destruct (lower part_method =? "libsmctrl")%string.
    { unfold bind, lift, ret. now destruct (int (str_mul "1" active_tpcs) 2). }
    destruct (lower part_method =? "mig")%string eqn:E; [|reflexivity].
    apply String.eqb_eq in E. contradiction.
Qed.

Lemma set_fresh_setting (key : string) (v : json) (part_method : string) (active_tpcs : Z) :
  key = "mps_thread_percentage" \/ key = "sm_mask" ->
  Dict.set String.eqb key v (plugin_config_init part_method active_tpcs)
  = (plugin_config_init part_method active_tpcs ++ [(key, v)])%list.
Proof. intros [->| ->]; reflexivity. Qed.

(** X5.  Under "libsmctrl" a count of active TPCs that is zero or
    negative makes [generate_config] raise [ValueError]: the string of
    ones is empty and [int] refuses it.  No configuration is returned and
    nothing is run. *)
Theorem libsmctrl_needs_positive_count (w : world) (device : Z) (part_method : string)
    (total_tpcs active_tpcs iterations : Z) (tr : list event) :
  lower part_method = "libsmctrl" ->
  active_tpcs <= 0 ->
  generate_config w device part_method total_tpcs active_tpcs iterations tr
  = (Raise ValueError, tr).
Proof.
  intros Hm Ha. unfold generate_config, partition, bind. rewrite Hm.
  change ("libsmctrl" =? "mps")%string with false.
  change ("libsmctrl" =? "libsmctrl")%string with true. cbv iota.
  unfold lift, str_mul. replace (Z.to_nat active_tpcs) with 0%nat by lia. reflexivity.
Qed.

Lemma libsmctrl_needs_positive_count_witness :
  generate_config example_world 0 "libsmctrl" 54 0 10 [] = (Raise ValueError, []).
Proof.
  apply (libsmctrl_needs_positive_count example_world 0 "libsmctrl" 54 0 10 []);
    [reflexivity|lia].
Defined.

(** X6.  Under "mps" a total of zero TPCs makes [generate_config] raise
    [ZeroDivisionError], whatever the active count. *)
Theorem mps_zero_total (w : world) (device : Z) (part_method : string)
    (active_tpcs iterations : Z) (tr : list event) :
  lower part_method = "mps" ->
  generate_config w device part_method 0 active_tpcs iterations tr
  = (Raise ZeroDivisionError, tr).
Proof.
  intros Hm. unfold generate_config, partition, bind. rewrite Hm. reflexivity.
Qed.

Lemma mps_zero_total_witness :
  generate_config example_world 0 "MPS" 0 5 10 [] = (Raise ZeroDivisionError, []).
Proof. apply (mps_zero_total example_world 0 "MPS" 5 10 []). reflexivity. Defined.

Local Open Scope Q_scope.

(** X7.  Under "mps" an active count at or above a positive total is
    not refused.  As long as the exact quotient [100 * active / total] is
    below the least value that rounds out of the range of floats,
    [generate_config] returns a configuration and the percentage in it
    is capped: what is stored is the integer 100, never a float.  From
    that value on the division raises [OverflowError]. *)
Theorem mps_oversubscribed (w : world) (device : Z) (part_method : string)
    (total_tpcs active_tpcs iterations : Z) (tr : list event) :
  lower part_method = "mps" ->
  (0 < total_tpcs <= active_tpcs)%Z ->
  let quotient := inject_Z (100 * active_tpcs) / inject_Z total_tpcs in
  (quotient < B64.overflow_threshold ->
   exists config,
     generate_config w device part_method total_tpcs active_tpcs iterations tr
     = (Ok config, tr)
     /\ benchmark_setting "mps_thread_percentage" config = Some (JInt 100))
  /\ (B64.overflow_threshold <= quotient ->
      generate_config w device part_method total_tpcs active_tpcs iterations tr
      = (Raise OverflowError, tr)).
Proof.
  intros Hm [Ht Ha] quotient.
  assert (Hp : 100 <= quotient).
  { apply Qle_shift_div_l.
    - change 0 with (inject_Z 0). rewrite <- Zlt_Qlt. exact Ht.
    - change 100 with (inject_Z 100). rewrite <- inject_Z_mult, <- Zle_Qle. lia. }
  destruct (B64Order.true_div_range (100 * active_tpcs) total_tpcs ltac:(lia) Ht)
    as [Hfin Hover].
  fold quotient in Hfin, Hover.
  split; intros Hq.
  2:{ unfold generate_config, partition, bind, lift, ret. rewrite Hm.
      change ("mps" =? "mps")%string with true. cbv iota.
      now rewrite (Hover Hq). }
  unfold generate_config, partition, bind, lift, ret. rewrite Hm.
  change ("mps" =? "mps")%string with true. cbv iota.
  rewrite (Hfin Hq).
  assert (Hq' : 100 <= B64.rnd quotient).
  { eapply Qle_trans; [|apply B64Order.rnd_mono; exact Hp].
    apply Qle_lteq. right. vm_compute. reflexivity. }
  set (q := B64.rnd quotient) in *. clearbody q.
  eexists. split; [reflexivity|].
  rewrite benchmark_setting_overall, DictFacts.get_set_same by apply String.eqb_refl.
  f_equal. unfold min_100.
  assert (He : 100 <= q + (7378697629483821 # 73786976294838206464)) by lra.
  pose proof (B64Order.of_Q_hundred _ He) as Hs.
  rewrite epsilon_value. cbn [B64.add].
  destruct (B64.of_Q (q + _)) as [x|s|] eqn:Ex.
  - cbn [B64.round].
    assert (Hx : 100 <= x).
    { cbn in Hs. unfold B64.Qltb in Hs. apply negb_false_iff, Qle_bool_iff in Hs. exact Hs. }
    assert (Hr : 100 <= inject_Z (B64.round_half_even (x * 10 ^ 4)) / 10 ^ 4).
    { assert (H4 : 10 ^ 4 == 10000) by reflexivity.
      assert (Hk : (1000000 <= B64.round_half_even (x * 10 ^ 4))%Z).
      { rewrite <- (B64Order.round_half_even_inject 1000000).
        apply B64Order.round_half_even_mono. change (inject_Z 1000000) with 1000000.
        rewrite H4. lra. }
      set (k := B64.round_half_even (x * 10 ^ 4)) in *. rewrite H4.
      apply Qle_shift_div_l; [reflexivity|].
      change (100 * 10000) with (inject_Z 1000000). now rewrite <- Zle_Qle. }
    now rewrite (B64Order.of_Q_hundred _ Hr).
  - cbn [B64.round]. now rewrite Hs.
  - exfalso. revert Ex. apply B64Order.of_Q_not_nan.
Qed.

Local Open Scope Z_scope.

Lemma mps_oversubscribed_witness :
  exists config,
    generate_config example_world 0 "mps" 54 60 10 [] = (Ok config, [])
    /\ benchmark_setting "mps_thread_percentage" config = Some (JInt 100).
Proof.
  apply (mps_oversubscribed example_world 0 "mps" 54 60 10 []); [reflexivity|lia|].
  vm_compute. reflexivity.
Defined.

(** X8.  Every configuration [generate_config] returns is the fixed
    top-level fields around one benchmark entry, and that entry is the
    seven fixed parameters, unchanged and in their order, followed by the
    method's setting: [mps_thread_percentage] (the integer 100 or a float
    below 100) under "mps", [sm_mask] for a positive count under
    "libsmctrl", and nothing under "mig", for a count of the table. *)
Theorem generate_config_shape (w : world) (device : Z) (part_method : string)
    (total_tpcs active_tpcs iterations : Z) (tr tr' : list event) (config : json) :
  generate_config w device part_method total_tpcs active_tpcs iterations tr
  = (Ok config, tr') ->
  exists setting,
    config = overall_config device part_method iterations
               (plugin_config_init part_method active_tpcs ++ setting)%list
    /\ ((lower part_method = "mps"
         /\ exists v, setting = [("mps_thread_percentage", v)]
                      /\ (v = JInt 100 \/ exists x, v = JFloat x /\ B64.lt_int x 100 = true))
        \/ (lower part_method = "libsmctrl"
            /\ setting = [("sm_mask", sm_mask active_tpcs)]
            /\ 0 < active_tpcs)
        \/ (lower part_method = "mig" /\ setting = []
            /\ exists geometry, Dict.get Z.eqb active_tpcs MIG_CONFIGS = Some geometry)).
Proof.
  unfold generate_config, bind.
  destruct (partition w part_method total_tpcs active_tpcs
              (plugin_config_init part_method active_tpcs) tr) as [[pc|e] tr1] eqn:E;
    [|discriminate].
  unfold ret. intros H. injection H as <- <-.
  destruct (string_dec (lower part_method) "mig") as [Hm|Hm].
  { rewrite (partition_mig w part_method _ _ _ tr Hm) in E. cbv zeta in E.
    destruct (negb _ || _); [discriminate|].
    unfold MIG_CONFIGS_getitem in E.
    destruct (Dict.get Z.eqb active_tpcs MIG_CONFIGS) as [geometry|] eqn:Eg; [|discriminate].
    destruct (negb _ || _); [discriminate|].
    assert (Hpc : pc = plugin_config_init part_method active_tpcs) by congruence.
    rewrite Hpc. exists []. rewrite app_nil_r. split; [reflexivity|]. right. right.
    split; [exact Hm|]. split; [reflexivity|]. now exists geometry. }
  unfold partition in E.
  destruct (lower part_method =? "mps")%string eqn:E1.
  { apply String.eqb_eq in E1. unfold bind, lift, ret in E.
    destruct (B64.true_div (100 * active_tpcs) total_tpcs) as [q|e]; [|discriminate].
    assert (Hpc : pc = Dict.set String.eqb "mps_thread_percentage"
                         (min_100 (B64.round (B64.add q epsilon) 4))
                         (plugin_config_init part_method active_tpcs)) by congruence.
    rewrite Hpc, set_fresh_setting by (left; reflexivity).
    eexists. split; [reflexivity|].
    left. split; [exact E1|]. eexists. split; [reflexivity|].
    unfold min_100. destruct (B64.lt_int _ 100) eqn:El; [right|left; reflexivity].
    eexists. split; [reflexivity|exact El]. }
  destruct (lower part_method =? "libsmctrl")%string eqn:E2.
  { apply String.eqb_eq in E2. unfold bind, lift, ret in E.
    destruct (Z_lt_le_dec 0 active_tpcs) as [Ha|Ha].
    - rewrite (PyFacts.int_ones active_tpcs Ha) in E.
      assert (Hpc : pc = Dict.set String.eqb "sm_mask"
                           (JStr ("~" ++ hex (2 ^ active_tpcs - 1)))
                           (plugin_config_init part_method active_tpcs)) by congruence.
      rewrite Hpc, set_fresh_setting by (right; reflexivity).
      eexists. split; [reflexivity|].
      right. left. split; [exact E2|]. split; [reflexivity|exact Ha].
    - unfold str_mul in E. replace (Z.to_nat active_tpcs) with 0%nat in E by lia.
      discriminate E. }
  destruct (lower part_method =? "mig")%string eqn:E3.
  { apply String.eqb_eq in E3. contradiction. }
  discriminate E.
Qed.

Lemma generate_config_shape_witness :
  exists setting,
    overall_config 0 "libsmctrl" 10
      (Dict.set String.eqb "sm_mask" (JStr "~0x1f") (plugin_config_init "libsmctrl" 5))
    = overall_config 0 "libsmctrl" 10 (plugin_config_init "libsmctrl" 5 ++ setting)%list
    /\ ((lower "libsmctrl" = "mps"
         /\ exists v, setting = [("mps_thread_percentage", v)]
                      /\ (v = JInt 100 \/ exists x, v = JFloat x /\ B64.lt_int x 100 = true))
        \/ (lower "libsmctrl" = "libsmctrl"
            /\ setting = [("sm_mask", sm_mask 5)]
            /\ 0 < 5)
        \/ (lower "libsmctrl" = "mig" /\ setting = []
            /\ exists geometry, Dict.get Z.eqb 5 MIG_CONFIGS = Some geometry)).
Proof.
  apply (generate_config_shape example_world 0 "libsmctrl" 54 5 10 [] []). reflexivity.
Defined.

Lemma generate_config_mps (w : world) (device total_tpcs active_tpcs iterations : Z)
    (tr : list event) :
  0 < active_tpcs <= total_tpcs ->
  generate_config w device "mps" total_tpcs active_tpcs iterations tr
  = (Ok (overall_config device "mps" iterations
           (plugin_config_init "mps" active_tpcs
            ++ [("mps_thread_percentage", mps_thread_percentage total_tpcs active_tpcs)])),
     tr).
Proof.
  intros H. pose proof (percentage_exact_bounds _ _ H) as Hp.
  assert (Hq : (Qabs (inject_Z (100 * active_tpcs) / inject_Z total_tpcs) < 128)%Q)
    by (apply Qabs_Qlt_condition;
        set (p := (inject_Z (100 * active_tpcs) / inject_Z total_tpcs)%Q) in *;
        clearbody p; lra).
  unfold generate_config, partition, bind, lift, ret.
  change (lower "mps" =? "mps")%string with true. cbv iota.
  rewrite (true_div_small (100 * active_tpcs) total_tpcs ltac:(lia) Hq).
  unfold mps_thread_percentage. rewrite (B64Facts.of_Q_small _ Hq).
  now rewrite set_fresh_setting by (left; reflexivity).
Qed.

Lemma generate_config_libsmctrl (w : world) (device total_tpcs active_tpcs iterations : Z)
    (tr : list event) :
  0 < active_tpcs ->
  generate_config w device "libsmctrl" total_tpcs active_tpcs iterations tr
  = (Ok (overall_config device "libsmctrl" iterations
           (plugin_config_init "libsmctrl" active_tpcs ++ [("sm_mask", sm_mask active_tpcs)])),
     tr).
Proof.
  intros H. unfold generate_config, partition, bind, lift, ret.
  change (lower "libsmctrl" =? "mps")%string with false.
  change (lower "libsmctrl" =? "libsmctrl")%string with true. cbv iota.
  rewrite (PyFacts.int_ones _ H). unfold sm_mask.
  now rewrite set_fresh_setting by (right; reflexivity).
Qed.

Lemma range_bounds (lo hi k : Z) : In k (range lo hi) -> lo <= k < hi.
Proof.
  unfold range. intros H. apply in_map_iff in H. destruct H as (i & <- & Hi).
  apply in_seq in Hi. lia.
Qed.

(** One round of the inner loop, given what [generate_config] does. *)
Lemma run_round (w : world) (device total_tpcs active_tpcs iterations : Z)
    (part_method : string) (config : json) (commands : list string) (tr : list event) :
  (let tr1 := (tr ++ [Stdout ("Running test for " ++ str active_tpcs ++ " active TPCs under "
                             ++ part_method ++ ".")])%list in
   generate_config w device part_method total_tpcs active_tpcs iterations tr1
   = (Ok config, (tr1 ++ map Shell commands)%list)) ->
  bind (print ("Running test for " ++ str active_tpcs ++ " active TPCs under "
               ++ part_method ++ "."))
    (fun _ => bind (read_var "tpc_count" (Some total_tpcs))
       (fun n => bind (run_process w device part_method n active_tpcs iterations)
          (fun _ => print ""))) tr
  = (Ok tt,
     (tr ++ [Stdout ("Running test for " ++ str active_tpcs ++ " active TPCs under "
                     ++ part_method ++ ".")]
         ++ map Shell commands
         ++ [Stdout ("Starting test with " ++ str active_tpcs ++ " TPCs enabled under "
                     ++ part_method);
             Runner config; Stdout ""])%list).
Proof.
  cbv zeta. intros H.
  unfold run_process, read_var, bind, print, emit, ret. rewrite H.
  rewrite <- !app_assoc. reflexivity.
Qed.

Lemma sweep_loop (w : world) (device total_tpcs iterations : Z) (counts : list Z) :
  forall tr,
    (forall k, In k counts -> 0 < k <= total_tpcs) ->
    for_each counts (fun active_tpcs =>
      for_each ["mps"; "libsmctrl"] (fun part_method =>
        bind (print ("Running test for " ++ str active_tpcs ++ " active TPCs under "
                     ++ part_method ++ "."))
          (fun _ => bind (read_var "tpc_count" (Some total_tpcs))
             (fun n => bind (run_process w device part_method n active_tpcs iterations)
                (fun _ => print ""))))) tr
    = (Ok tt, (tr ++ sweep_log device total_tpcs iterations counts)%list).
Proof.
  induction counts as [|k counts IH]; intros tr H.
  - cbn. now rewrite app_nil_r.
  - cbn [for_each sweep_log flat_map].
    assert (Hk : 0 < k <= total_tpcs) by (apply H; now left).
    unfold bind at 1. unfold bind at 1.
    rewrite (run_round w device total_tpcs k iterations "mps" _ [] tr)
      by (cbv zeta; cbn [map]; rewrite app_nil_r; apply generate_config_mps; exact Hk).
    unfold bind at 1.
    rewrite (run_round w device total_tpcs k iterations "libsmctrl" _ [])
      by (cbv zeta; cbn [map]; rewrite app_nil_r; apply generate_config_libsmctrl; lia).
    unfold ret at 1.
    rewrite IH by (intros k' Hin; apply H; now right).
    f_equal. unfold run_log. cbn [map]. rewrite <- !app_assoc. reflexivity.
Qed.

(** X9.  Outside MiG mode, with a given total [n] that is positive and
    within what the device reports and a positive starting count [s], the
    driver ends normally after one run per count from [s] to [n], in
    rising order and under "mps" before "libsmctrl": each run is its two
    printed lines, then the runner started on the configuration of that
    method and count, then an empty line; no command is run.  With [s]
    above [n] it ends normally having done nothing. *)
Theorem sweep_runs (w : world) (a : args) (tr : list event) (n s : Z) :
  mig a = false -> tpc_count a = Some n -> start_count a = Some s ->
  0 < n -> 0 < s ->
  (pysmctrl w = true -> n <= get_tpc_info_cuda w (device a)) ->
  main w a tr
  = (Ok tt, (tr ++ sweep_log (device a) n (iterations a) (range s (n + 1)))%list)
  /\ (n < s -> main w a tr = (Ok tt, tr)).
Proof.
  intros Hm Ht Hs Hn Hs0 Hdev.
  assert (Hmain : main w a tr
                  = (Ok tt, (tr ++ sweep_log (device a) n (iterations a)
                                     (range s (n + 1)))%list)).
  { unfold main. rewrite Hm, Ht, Hs.
    replace (n <=? 0) with false by (symmetry; apply Z.leb_gt; exact Hn).
    replace (s <=? 0) with false by (symmetry; apply Z.leb_gt; exact Hs0).
    unfold bind at 1. unfold ret at 1. unfold bind at 1. unfold ret at 1.
    unfold bind at 1.
    assert (Hcheck :
              (if pysmctrl w
               then bind (read_var "tpc_count" (Some n))
                      (fun n0 =>
                         if n0 >? get_tpc_info_cuda w (device a)
                         then bind (print "The TPC count must not exceed the number of available TPCs.")
                                (fun _ => raise (SystemExit 22))
                         else ret tt)
               else ret tt) tr = (Ok tt, tr)).
    { destruct (pysmctrl w); [|reflexivity].
      unfold read_var, bind, ret.
      replace (n >? get_tpc_info_cuda w (device a)) with false; [reflexivity|].
      symmetry. rewrite Z.gtb_ltb. apply Z.ltb_ge. now apply Hdev. }
    unfold bind at 1. rewrite Hcheck.
    unfold read_var at 1. unfold bind at 1. unfold ret at 1. unfold ret at 1.
    cbn [fst snd].
    apply sweep_loop. intros k Hk. apply range_bounds in Hk. lia. }
  split; [exact Hmain|].
  intros Hlt. rewrite Hmain. unfold range.
  replace (Z.to_nat (n + 1 - s)) with 0%nat by lia. cbn. now rewrite app_nil_r.
Qed.

Lemma sweep_runs_witness :
  main example_world
    {| tpc_count := Some 54; start_count := Some 53; mig := false;
       device := 0; iterations := 10 |} []
  = (Ok tt, ([] ++ sweep_log 0 54 10 (range 53 (54 + 1)))%list)
  /\ (54 < 53 ->
      main example_world
        {| tpc_count := Some 54; start_count := Some 53; mig := false;
           device := 0; iterations := 10 |} [] = (Ok tt, [])).
Proof.
  apply (sweep_runs example_world
           {| tpc_count := Some 54; start_count := Some 53; mig := false;
              device := 0; iterations := 10 |} [] 54 53);
    try reflexivity; cbn; lia.
Defined.



Lemma generate_config_mig (w : world) (device : Z) (part_method : string)
    (total_tpcs active_tpcs iterations : Z) (tr : list event) :
  commands_succeed w ->
  lower part_method = "mig" ->
  generate_config w device part_method total_tpcs active_tpcs iterations tr
  = match Dict.get Z.eqb active_tpcs MIG_CONFIGS with
    | Some geometry =>
        (Ok (overall_config device part_method iterations
               (plugin_config_init part_method active_tpcs)),
         (tr ++ map Shell (mig_commands geometry))%list)
    | None => (Raise (KeyError (str active_tpcs)), (tr ++ [Shell mig_query])%list)
    end.
Proof.
  intros Hw Hm. unfold generate_config, bind.
  rewrite (partition_mig w part_method _ _ _ tr Hm). cbv zeta.
  destruct (Hw tr mig_query) as [-> ->].
  cbn [negb orb Z.eqb]. unfold MIG_CONFIGS_getitem.
  destruct (Dict.get Z.eqb active_tpcs MIG_CONFIGS) as [geometry|]; [|reflexivity].
  match goal with
  | |- context [os_system_status w ?t ?c] => destruct (Hw t c) as [-> ->]
  end.
  reflexivity.
Qed.

Lemma mig_loop (w : world) (device total_tpcs iterations : Z) (configs : list (Z * string)) :
  commands_succeed w ->
  (forall k g, In (k, g) configs -> Dict.get Z.eqb k MIG_CONFIGS = Some g) ->
  forall tr,
    for_each (map fst configs) (fun active_tpcs =>
      for_each ["mig"] (fun part_method =>
        bind (print ("Running test for " ++ str active_tpcs ++ " active TPCs under "
                     ++ part_method ++ "."))
          (fun _ => bind (read_var "tpc_count" (Some total_tpcs))
             (fun n => bind (run_process w device part_method n active_tpcs iterations)
                (fun _ => print ""))))) tr
    = (Ok tt, (tr ++ mig_log device iterations configs)%list).
Proof.
  intros Hw. induction configs as [|[k g] configs IH]; intros H tr.
  - cbn. now rewrite app_nil_r.
  - cbn [map fst for_each mig_log flat_map snd].
    unfold bind at 1. unfold bind at 1.
    rewrite (run_round w device total_tpcs k iterations "mig"
               (overall_config device "mig" iterations (plugin_config_init "mig" k))
               (mig_commands g) tr).
    2:{ cbv zeta. rewrite (generate_config_mig w device "mig" _ _ _ _ Hw eq_refl).
        now rewrite (H k g (or_introl eq_refl)). }
    unfold ret at 1.
    rewrite IH by (intros k' g' Hin; apply H; now right).
    f_equal. rewrite <- !app_assoc. reflexivity.
Qed.

Lemma start_count_check (a : args) (tr : list event) :
  (forall s, start_count a = Some s -> 0 < s) ->
  match start_count a with
  | Some s =>
      if s <=? 0
      then bind (print "The starting TPC count must be positive and non-zero.")
             (fun _ => raise (SystemExit 22))
      else ret tt
  | None => ret tt
  end tr = (Ok tt, tr).
Proof.
  intros Hs. destruct (start_count a) as [s|]; [|reflexivity].
  replace (s <=? 0) with false; [reflexivity|].
  symmetry. apply Z.leb_gt. now apply Hs.
Qed.

(** The total the driver settles on, given or detected. *)
Lemma total_settled (w : world) (a : args) (tr : list event) :
  (forall n, tpc_count a = Some n -> 0 < n) ->
  (tpc_count a = None -> pysmctrl w = true) ->
  exists total,
    match tpc_count a with
    | Some n =>
        if n <=? 0 then
          bind (print "The TPC count must be positive and non-zero.")
            (fun _ => raise (SystemExit 22))
        else ret (Some n)
    | None =>
        if pysmctrl w then
          bind (print ("Auto-detected " ++ str (get_tpc_info_cuda w (device a))
                       ++ " available TPCs"))
            (fun _ => ret (Some (get_tpc_info_cuda w (device a))))
        else ret None
    end tr
    = (Ok (Some total), (tr ++ detection_log w a)%list).
Proof.
  intros Hn Hp. unfold detection_log. destruct (tpc_count a) as [n|].
  - exists n. replace (n <=? 0) with false by (symmetry; apply Z.leb_gt; now apply Hn).
    unfold ret. now rewrite app_nil_r.
  - rewrite (Hp eq_refl). eexists. reflexivity.
Qed.

(** X11.  In MiG mode, on a machine where every command exits with
    status 0, with a total that is given and positive, or not given and
    detected through [pysmctrl] (the driver then prints the line of the
    detection first), and a starting count that is positive if given:
    the driver ends normally after five runs, for 7, 14, 21, 28 and 49
    TPCs in this order.  Each run is the line that announces it, the
    four commands of the reconfiguration to the geometry of the count,
    the line before the start, the runner on the configuration, and an
    empty line.  The total is not checked against the device and the
    starting count does not limit the counts swept. *)
Theorem mig_sweep_runs (w : world) (a : args) (tr : list event) :
  commands_succeed w ->
  mig a = true ->
  (forall n, tpc_count a = Some n -> 0 < n) ->
  (tpc_count a = None -> pysmctrl w = true) ->
  (forall s, start_count a = Some s -> 0 < s) ->
  main w a tr
  = (Ok tt,
     (tr ++ detection_log w a ++ mig_log (device a) (iterations a) MIG_CONFIGS)%list).
Proof.
  intros Hw Hm Hn Hp Hs. unfold main. unfold bind at 1.
  destruct (total_settled w a tr Hn Hp) as [total ->].
  unfold bind at 1.
  rewrite (start_count_check a _ Hs). rewrite Hm.
  unfold bind at 1. unfold ret at 1. cbn [fst snd].
  rewrite app_assoc.
  apply mig_loop; [exact Hw|].
  intros k g Hin. cbn in Hin.
  repeat (destruct Hin as [Hin|Hin]; [inversion Hin; reflexivity|]). destruct Hin.
Qed.

Lemma mig_sweep_runs_witness :
  main example_world
    {| tpc_count := None; start_count := Some 50; mig := true;
       device := 0; iterations := 10 |} []
  = (Ok tt,
     ([] ++ detection_log example_world
              {| tpc_count := None; start_count := Some 50; mig := true;
                 device := 0; iterations := 10 |}
         ++ mig_log 0 10 MIG_CONFIGS)%list).
Proof.
  apply (mig_sweep_runs example_world
           {| tpc_count := None; start_count := Some 50; mig := true;
              device := 0; iterations := 10 |} []);
    try reflexivity.
  - intros tr command. split; reflexivity.
  - cbn. discriminate.
  - cbn. intros s E. injection E as <-. lia.
Defined.

(** X12.  In MiG mode on a machine whose GPU is not MiG-capable, with a
    total that is given and positive, or not given and detected through
    [pysmctrl], and a starting count that is positive if given: the
    driver stops at the first count with the MiG-capability exception.
    After the line of the detection, if the total was detected, it has
    printed the line for 7 TPCs and run the query, and nothing else; no
    instance was destroyed and no runner started. *)
Theorem mig_sweep_without_mig_gpu (w : world) (a : args) (tr : list event) :
  mig a = true ->
  (forall n, tpc_count a = Some n -> 0 < n) ->
  (tpc_count a = None -> pysmctrl w = true) ->
  (forall s, start_count a = Some s -> 0 < s) ->
  let tr1 := (tr ++ detection_log w a
                 ++ [Stdout "Running test for 7 active TPCs under mig."])%list in
  let s1 := os_system_status w tr1 mig_query in
  WIFEXITED s1 = false \/ WEXITSTATUS s1 = 6 ->
  main w a tr
  = (Raise (Exception "MiG-capable GPU required for MiG experiments!"),
     (tr1 ++ [Shell mig_query])%list).
Proof.
  intros Hm Hn Hp Hs tr1 s1 H1. unfold main. unfold bind at 1.
  destruct (total_settled w a tr Hn Hp) as [total ->].
  unfold bind at 1.
  rewrite (start_count_check a _ Hs). rewrite Hm.
  unfold bind at 1. unfold ret at 1. cbn [fst snd MIG_CONFIGS map for_each].
  unfold bind at 1. unfold bind at 1. unfold bind at 1.
  unfold print at 1, emit at 1. change (str 7) with "7". cbn [append].
  rewrite <- app_assoc. fold tr1.
  unfold read_var, bind at 1, ret at 1. unfold bind at 1.
  unfold run_process, bind at 1. unfold generate_config, bind at 1.
  rewrite (partition_mig w "mig" _ _ _ tr1 eq_refl). cbv zeta. fold s1.
  replace (negb (WIFEXITED s1) || (WEXITSTATUS s1 =? 6)) with true; [reflexivity|].
  symmetry. apply orb_true_iff. destruct H1 as [H|H].
  - left. now rewrite H.
  - right. now rewrite H.
Qed.

Lemma mig_sweep_without_mig_gpu_witness :
  main no_mig_world
    {| tpc_count := None; start_count := Some 1; mig := true;
       device := 0; iterations := 10 |} []
  = (Raise (Exception "MiG-capable GPU required for MiG experiments!"),
     (([] ++ detection_log no_mig_world
               {| tpc_count := None; start_count := Some 1; mig := true;
                  device := 0; iterations := 10 |}
          ++ [Stdout "Running test for 7 active TPCs under mig."])
      ++ [Shell mig_query])%list).
Proof.
  apply (mig_sweep_without_mig_gpu no_mig_world
           {| tpc_count := None; start_count := Some 1; mig := true;
              device := 0; iterations := 10 |} []);
    try reflexivity.
  - cbn. discriminate.
  - cbn. intros s E. injection E as <-. lia.
  - right. reflexivity.
Defined.

(** The two MiG runs of the witnesses, event by event as far as the
    first run. *)
Example mig_sweep_examples :
  firstn 3 (snd (main example_world
                   {| tpc_count := None; start_count := Some 50; mig := true;
                      device := 0; iterations := 10 |} []))
  = [ Stdout "Auto-detected 54 available TPCs";
      Stdout "Running test for 7 active TPCs under mig.";
      Shell "nvidia-smi mig --list-gpu-instance-profiles" ]
  /\ main no_mig_world
       {| tpc_count := Some 54; start_count := Some 1; mig := true;
          device := 0; iterations := 10 |} []
     = (Raise (Exception "MiG-capable GPU required for MiG experiments!"),
        [ Stdout "Running test for 7 active TPCs under mig.";
          Shell "nvidia-smi mig --list-gpu-instance-profiles" ]).
Proof. split; vm_compute; reflexivity. Qed.

End SweepFacts.

(** ** The file loop: what stops it, what it prints, what it builds *)

Module AggregatorFacts.
Import Py Run Scatter ScatterFacts.

Section Loop.
Variable float_of_str : string -> option B64.t.
Variable numpy_mean : list B64.t -> B64.t.
Variable times_key : string.

Lemma parse_files_app (total : Z) (before after : list (string * plugin)) :
  forall counter all_scenarios tr,
    parse_files float_of_str numpy_mean times_key total counter (before ++ after)
      all_scenarios tr
    = match parse_files float_of_str numpy_mean times_key total counter before
              all_scenarios tr with
      | (Ok all_scenarios', tr') =>
          parse_files float_of_str numpy_mean times_key total
            (counter + Z.of_nat (List.length before)) after all_scenarios' tr'
      | (Raise e, tr') => (Raise e, tr')
      end.
Proof.
  induction before as [|[name parsed] before IH]; intros counter all_scenarios tr.
  - cbn. now rewrite Z.add_0_r.
  - cbn [app parse_files List.length]. unfold bind.
    destruct (process_file _ _ _ _ _ _ _ _ tr) as [[all'|e] tr1]; [|reflexivity].
    rewrite IH. now replace (counter + 1 + Z.of_nat (List.length before))
                      with (counter + Z.of_nat (S (List.length before))) by lia.
Qed.

(** X13.  A result file that has a label but no ["times"] field is not
    skipped: it ends the whole run with [KeyError] on ["times"], right
    after its progress line.  The files after it are not parsed, and the
    mapping built from the files before it is lost with the run. *)
Theorem missing_times_stops_the_run (before after : list (string * plugin)) (name : string)
    (parsed : plugin) (label0 : json) (all_scenarios : scenarios) (tr tr1 : list event) :
  let files := (before ++ (name, parsed) :: after)%list in
  let total := Z.of_nat (List.length files) in
  label parsed = Some label0 ->
  times parsed = None ->
  parse_files float_of_str numpy_mean times_key total 1 before [] tr
  = (Ok all_scenarios, tr1) ->
  show_plots float_of_str numpy_mean files times_key tr
  = (Raise (KeyError "times"),
     (tr1 ++ [Stdout ("Parsing file " ++ str (1 + Z.of_nat (List.length before)) ++ " / "
                      ++ str total ++ ": " ++ name)])%list).
Proof.
  intros files total Hl Ht Hb. unfold show_plots. fold total. unfold files.
  rewrite parse_files_app, Hb. cbn [parse_files]. unfold bind.
  rewrite process_file_eq. cbv zeta. now rewrite Hl, Ht.
Qed.

Lemma keys_set {V : Type} (k : string) (v : V) (d : list (string * V)) :
  map fst (Dict.set String.eqb k v d)
  = if existsb (String.eqb k) (map fst d) then map fst d else (map fst d ++ [k])%list.
Proof.
  induction d as [|[k' v'] d IH]; [reflexivity|].
  cbn [Dict.set map fst existsb]. rewrite (String.eqb_sym k k').
  destruct (String.eqb k' k) eqn:E; [reflexivity|].
  cbn [orb map fst]. rewrite IH. now destruct (existsb _ _).
Qed.

Lemma filter_filter {A : Type} (f g : A -> bool) (l : list A) :
  filter f (filter g l) = filter (fun x => g x && f x) l.
Proof.
  induction l as [|a l IH]; [reflexivity|]. cbn.
  destruct (g a); cbn; [destruct (f a)|]; now rewrite IH.
Qed.

(** Adding names one by one, each when it is not there yet, appends the
    new ones in the order they are first seen. *)
Lemma first_seen_fold (names : list string) :
  forall keys,
    fold_left (fun keys name =>
                 if existsb (String.eqb name) keys then keys else (keys ++ [name])%list)
      names keys
    = (keys ++ filter (fun name => negb (existsb (String.eqb name) keys))
                 (first_seen names))%list.
Proof.
  induction names as [|n names IH]; intros keys; cbn [fold_left first_seen filter].
  - now rewrite app_nil_r.
  - rewrite IH. destruct (existsb (String.eqb n) keys) eqn:E; cbn [negb].
    + f_equal. rewrite filter_filter. apply filter_ext_in. intros m _.
      destruct (String.eqb n m) eqn:Enm; [|reflexivity].
      apply String.eqb_eq in Enm. subst m. now rewrite E.
    + rewrite <- app_assoc. cbn [app]. f_equal. f_equal.
      rewrite filter_filter. apply filter_ext_in. intros m _.
      rewrite existsb_app. cbn [existsb]. rewrite orb_false_r, negb_orb.
      rewrite (String.eqb_sym m n). apply andb_comm.
Qed.

Lemma accumulate_keys (files : list (string * plugin)) :
  forall all_scenarios,
    map fst (accumulate float_of_str numpy_mean times_key files all_scenarios)
    = fold_left (fun keys name =>
                   if existsb (String.eqb name) keys then keys else (keys ++ [name])%list)
        (contributing_names float_of_str numpy_mean times_key files)
        (map fst all_scenarios).
Proof.
  induction files as [|file files IH]; intros all_scenarios; [reflexivity|].
  rewrite accumulate_cons, IH. cbn [contributing_names flat_map].
  fold (contributing_names float_of_str numpy_mean times_key files).
  rewrite fold_left_app.
  destruct (contribution float_of_str numpy_mean times_key (snd file)) as [[[n x] t]|];
    [|reflexivity].
  cbn [fold_left]. unfold record_summary. now rewrite keys_set.
Qed.

Lemma filter_all {A : Type} (l : list A) : filter (fun _ => true) l = l.
Proof. induction l as [|a l IH]; [reflexivity|]. cbn. now rewrite IH. Qed.

(** X14.  After a run of the file loop that ends normally, the scenario
    names stand in the mapping in the order in which files first
    contributed to them, each once: this is the order in which the
    scenarios are later drawn and take their styles. *)
Theorem scenarios_in_first_contribution_order (files : list (string * plugin))
    (tr tr' : list event) (final : scenarios) :
  show_plots float_of_str numpy_mean files times_key tr = (Ok final, tr') ->
  map fst final = first_seen (contributing_names float_of_str numpy_mean times_key files).
Proof.
  intros H. unfold show_plots in H.
  apply (parse_files_ok float_of_str numpy_mean times_key) in H. subst final.
  rewrite accumulate_keys, first_seen_fold. cbn [map app existsb negb].
  apply filter_all.
Qed.

Lemma process_file_log (total counter : Z) (name : string) (parsed : plugin)
    (all_scenarios all_scenarios' : scenarios) (tr tr' : list event) :
  process_file float_of_str numpy_mean times_key total counter name parsed all_scenarios tr
  = (Ok all_scenarios', tr') ->
  tr' = (tr ++ Stdout ("Parsing file " ++ str counter ++ " / " ++ str total ++ ": " ++ name)
            :: match skip_reason float_of_str parsed with
               | Some reason => [Stdout ("Skipping " ++ name ++ ": " ++ reason)]
               | None => []
               end)%list.
Proof.
  rewrite process_file_eq. cbv zeta. unfold skip_reason.
  destruct (label parsed) as [label0|].
  2:{ intros E. injection E as _ <-. now rewrite <- app_assoc. }
  destruct (times parsed) as [entries|]; [|discriminate].
  destruct (List.length entries <? 2)%nat.
  { intros E. injection E as _ <-. now rewrite <- app_assoc. }
  destruct (convert_to_float float_of_str label0) as [float_value|].
  2:{ intros E. injection E as _ <-. now rewrite <- app_assoc. }
  destruct (plugin_summary_values numpy_mean parsed times_key); [|discriminate].
  destruct (scenario_name parsed); [|discriminate].
  intros E. now injection E as _ <-.
Qed.

(** X15.  A run of the file loop that ends normally has printed, for
    each file in order, one progress line numbered from 1 with the number
    of files after the slash, followed by one line with the reason when
    the file was skipped, and nothing else. *)
Theorem progress_of_a_finished_run (files : list (string * plugin)) (tr tr' : list event)
    (final : scenarios) :
  show_plots float_of_str numpy_mean files times_key tr = (Ok final, tr') ->
  tr' = (tr ++ progress_log float_of_str (Z.of_nat (List.length files)) 1 files)%list.
Proof.
  unfold show_plots. generalize (Z.of_nat (List.length files)) as total. intros total.
  generalize 1 as counter. generalize (@nil (string * list (float_object * triplet))) as acc.
  revert tr. induction files as [|[name parsed] rest IH]; intros tr acc counter.
  - cbn. intros E. injection E as _ <-. now rewrite app_nil_r.
  - cbn [parse_files progress_log]. unfold bind.
    destruct (process_file _ _ _ _ _ _ _ _ tr) as [[acc'|e] tr1] eqn:E1; [|discriminate].
    apply process_file_log in E1. intros E. apply IH in E. subst tr' tr1.
    rewrite <- app_assoc. reflexivity.
Qed.

End Loop.

Lemma missing_times_stops_the_run_witness :
  show_plots float_of_decimal mean_sequential
    ([("a.json", first_file)] ++ ("b.json", timeless_record) :: [("c.json", second_file)])
    "execute_times" []
  = (Raise (KeyError "times"),
     ([Stdout "Parsing file 1 / 3: a.json"]
      ++ [Stdout ("Parsing file " ++ str (1 + Z.of_nat (List.length [("a.json", first_file)]))
                  ++ " / "
                  ++ str (Z.of_nat
                            (List.length
                               ([("a.json", first_file)]
                                ++ ("b.json", timeless_record) :: [("c.json", second_file)])))
                  ++ ": " ++ "b.json")])%list).
Proof.
  apply (missing_times_stops_the_run float_of_decimal mean_sequential "execute_times"
           [("a.json", first_file)] [("c.json", second_file)] "b.json" timeless_record
           (JStr "5") [("mps", [(Own (B64.Fin 5), (B64.Fin 500, B64.Fin 500, B64.Fin 500))])]
           [] [Stdout "Parsing file 1 / 3: a.json"]);
    reflexivity.
Defined.

Lemma scenarios_in_first_contribution_order_witness :
  exists final tr',
    show_plots float_of_decimal mean_sequential
      [("a.json", third_file); ("b.json", first_file); ("c.json", second_file)]
      "execute_times" [] = (Ok final, tr')
    /\ map fst final
       = first_seen
           (contributing_names float_of_decimal mean_sequential "execute_times"
              [("a.json", third_file); ("b.json", first_file); ("c.json", second_file)]).
Proof.
  eexists _, _. split; [vm_compute; reflexivity|].
  apply (scenarios_in_first_contribution_order float_of_decimal mean_sequential
           "execute_times"
           [("a.json", third_file); ("b.json", first_file); ("c.json", second_file)] []
           [Stdout "Parsing file 1 / 3: a.json"; Stdout "Parsing file 2 / 3: b.json";
            Stdout "Parsing file 3 / 3: c.json"]).
  vm_compute. reflexivity.
Defined.

Lemma progress_of_a_finished_run_witness :
  [ Stdout "Parsing file 1 / 2: a.json"; Stdout "Parsing file 2 / 2: c.json";
    Stdout ("Skipping c.json: no " ++ dquote ++ "label" ++ dquote ++ " field in file.") ]
  = ([] ++ progress_log float_of_decimal
             (Z.of_nat (List.length [("a.json", first_file); ("c.json", example_record)])) 1
             [("a.json", first_file); ("c.json", example_record)])%list.
Proof.
  apply (progress_of_a_finished_run float_of_decimal mean_sequential "execute_times"
           [("a.json", first_file); ("c.json", example_record)] []
           _ [("mps", [(Own (B64.Fin 5), (B64.Fin 500, B64.Fin 500, B64.Fin 500))])]).
  vm_compute. reflexivity.
Defined.

Lemma entries_loop_ok (times_key : string) (entries : list time_entry) :
  forall durations result,
    entries_loop times_key entries durations = Ok result ->
    result = (durations ++ record_samples times_key entries)%list.
Proof.
  induction entries as [|t rest IH]; intros durations result; cbn [entries_loop record_samples].
  - intros E. injection E as <-. now rewrite app_nil_r.
  - rewrite mem_get. destruct (Dict.get String.eqb times_key t) as [ts|] eqn:E; cbn [negb getitem].
    + rewrite pair_loop_whole. destruct (Nat.even (List.length ts)); [|discriminate].
      intros H. apply IH in H. now rewrite H, app_assoc.
    + apply IH.
Qed.

Lemma pair_samples_finite_upto (n : nat) :
  forall times,
    (List.length times <= n)%nat ->
    (forall x, In x times -> exists q, x = B64.Fin q) ->
    forall d, In d (pair_samples times) -> d <> B64.NaN.
Proof.
  induction n as [|n IH]; intros [|a [|b rest]] Hn H d Hin;
    try destruct Hin; cbn [List.length] in Hn; try lia.
  - subst d. destruct (H a ltac:(now left)) as [qa ->].
    destruct (H b ltac:(right; now left)) as [qb ->].
    cbn. apply B64Order.of_Q_not_nan.
  - apply (IH rest); [lia| |assumption].
    intros x Hx. apply H. right. right. exact Hx.
Qed.

(** The difference of two finite timestamps is a number or an infinity. *)
Lemma record_samples_finite (times_key : string) (entries : list time_entry) :
  (forall t ts x, In t entries -> Dict.get String.eqb times_key t = Some ts -> In x ts ->
                  exists q, x = B64.Fin q) ->
  forall d, In d (record_samples times_key entries) -> d <> B64.NaN.
Proof.
  induction entries as [|t rest IH]; intros H d Hin; [destruct Hin|].
  cbn [record_samples] in Hin.
  destruct (Dict.get String.eqb times_key t) as [ts|] eqn:E.
  - apply in_app_or in Hin. destruct Hin as [Hin|Hin].
    + apply (pair_samples_finite_upto (List.length ts) ts (le_n _)); [|exact Hin].
      intros x Hx. exact (H t ts x (or_introl eq_refl) E Hx).
    + apply IH; [|exact Hin]. intros t' ts' x Ht'. apply H. now right.
  - apply IH; [|exact Hin]. intros t' ts' x Ht'. apply H. now right.
Qed.

(** X16.  When every timestamp under the times key is a finite number,
    a triplet [plugin_summary_values] returns has its minimum at or below
    its maximum, as Python's [<=] on floats judges it: scaling by 1000.0
    with rounding, or to an infinity, does not swap the two. *)
Theorem summary_minimum_below_maximum (numpy_mean : list B64.t -> B64.t) (parsed : plugin)
    (times_key : string) (entries : list time_entry) (minimum maximum average : B64.t) :
  times parsed = Some entries ->
  (forall t ts x, In t entries -> Dict.get String.eqb times_key t = Some ts -> In x ts ->
                  exists q, x = B64.Fin q) ->
  plugin_summary_values numpy_mean parsed times_key = Ok (minimum, maximum, average) ->
  B64.leb minimum maximum = true.
Proof.
  intros Ht Hfin. unfold plugin_summary_values. rewrite Ht. cbn [getitem].
  destruct (entries_loop times_key entries []) as [durations|e] eqn:El; [|discriminate].
  apply entries_loop_ok in El. cbn [app] in El. subst durations.
  destruct (py_min _) as [lo|e] eqn:Emin; [|discriminate].
  destruct (py_max _) as [hi|e] eqn:Emax; [|discriminate].
  intros H. injection H as <- <- _.
  destruct (py_min_spec _ _ Emin) as [Hlo1 Hlo2].
  destruct (py_max_spec _ _ Emax) as [Hhi1 Hhi2].
  apply B64Order.mul_mono; [reflexivity|].
  apply B64Order.not_ltb_leb.
  - exact (record_samples_finite times_key entries Hfin lo Hlo1).
  - exact (record_samples_finite times_key entries Hfin hi Hhi1).
  - apply Hlo2. exact Hhi1.
Qed.

Lemma summary_minimum_below_maximum_witness :
  B64.leb (B64.Fin 250) (B64.Fin 500) = true.
Proof.
  apply (summary_minimum_below_maximum mean_sequential two_sample_file "execute_times"
           [[]; [("execute_times", [B64.Fin 1; B64.Fin (5 # 4); B64.Fin 2; B64.Fin (5 # 2)])]]
           (B64.Fin 250) (B64.Fin 500) (B64.Fin 375)).
  - reflexivity.
  - intros t ts x [<-|[<-|[]]] E Hx; [discriminate E|].
    vm_compute in E. injection E as <-.
    destruct Hx as [<-|[<-|[<-|[<-|[]]]]]; eexists; reflexivity.
  - vm_compute. reflexivity.
Defined.

End AggregatorFacts.

(** ** The figure: the table of a scenario, the series drawn, the legend *)

Module PlotFacts.
Import Py Scatter Plot.

Lemma keys_from (start : nat) (scenario : list (float_object * triplet)) :
  combine (seq start (List.length scenario)) (map fst scenario)
  = map (fun ie => (fst ie, fst (snd ie))) (combine (seq start (List.length scenario)) scenario).
Proof.
  revert start. induction scenario as [|[x t] rest IH]; intros start; [reflexivity|].
  cbn. now rewrite IH.
Qed.

Lemma entries_from (start : nat) (scenario : list (float_object * triplet)) :
  combine (combine (seq start (List.length scenario)) (map fst scenario)) (map snd scenario)
  = map (fun ie => ((fst ie, fst (snd ie)), snd (snd ie)))
      (combine (seq start (List.length scenario)) scenario).
Proof.
  revert start. induction scenario as [|[x t] rest IH]; intros start; [reflexivity|].
  cbn. now rewrite IH.
Qed.

Lemma in_indexed (start : nat) (scenario : list (float_object * triplet)) (i : nat)
    (e : float_object * triplet) :
  In (i, e) (combine (seq start (List.length scenario)) scenario) <->
  (start <= i)%nat /\ nth_error scenario (i - start) = Some e.
Proof.
  revert start. induction scenario as [|e0 rest IH]; intros start.
  - cbn. split; [tauto|]. intros [_ H]. now destruct (i - start)%nat.
  - cbn [List.length seq combine In]. rewrite IH. split.
    + intros [E|[Hle Hn]].
      * inversion E; subst. split; [lia|]. now rewrite Nat.sub_diag.
      * split; [lia|]. replace (i - start)%nat with (S (i - S start)) by lia. exact Hn.
    + intros [Hle Hn]. destruct (Nat.eq_dec i start) as [->|Hne].
      * rewrite Nat.sub_diag in Hn. cbn in Hn. left. congruence.
      * right. split; [lia|].
        replace (i - start)%nat with (S (i - S start)) in Hn by lia. exact Hn.
Qed.

(** The key objects of a dictionary are its keys with their places. *)
Lemma in_keys (scenario : list (float_object * triplet)) (k : key_object) :
  In k (keys scenario) <-> exists t, nth_error scenario (fst k) = Some (snd k, t).
Proof.
  unfold keys. rewrite keys_from, in_map_iff. split.
  - intros ([i [x t]] & <- & Hin). apply in_indexed in Hin. destruct Hin as [_ Hn].
    rewrite Nat.sub_0_r in Hn. cbn. now exists t.
  - intros [t Hn]. exists (fst k, (snd k, t)). split; [now destruct k|].
    apply in_indexed. split; [lia|]. now rewrite Nat.sub_0_r.
Qed.

(** Two entries at different places of a dictionary have keys that are
    not equal. *)
Lemma unique_places (scenario : list (float_object * triplet)) (i j : nat) (x y : float_object)
    (t u : triplet) :
  Dict.unique same_key scenario ->
  nth_error scenario i = Some (x, t) -> nth_error scenario j = Some (y, u) ->
  i <> j -> same_key x y = false.
Proof.
  revert i j. induction scenario as [|[z v] rest IH]; intros i j Hu Hi Hj Hne.
  - now destruct i.
  - assert (Hrest : Dict.unique same_key rest).
    { intros k. specialize (Hu k). unfold Dict.count in *. cbn [filter fst] in Hu.
      destruct (same_key z k); cbn [List.length] in Hu; lia. }
    destruct (same_key x y) eqn:E; [exfalso|reflexivity].
    assert (Hyy : same_key y y = true)
      by (apply (ScatterFacts.same_key_trans y x y); [now apply ScatterFacts.same_key_sym|exact E]).
    destruct i as [|i], j as [|j]; [contradiction| | |].
    + cbn in Hi, Hj. inversion Hi; subst z v.
      specialize (Hu y). unfold Dict.count in Hu. cbn [filter fst] in Hu. rewrite E in Hu.
      cbn [List.length] in Hu.
      assert (Hc : (1 <= List.length (filter (fun kv => same_key (fst kv) y) rest))%nat).
      { apply nth_error_In in Hj.
        assert (Hin : In (y, u) (filter (fun kv => same_key (fst kv) y) rest))
          by (apply filter_In; split; [exact Hj|exact Hyy]).
        destruct (filter _ rest); [destruct Hin|cbn; lia]. }
      lia.
    + cbn in Hi, Hj. inversion Hj; subst z v.
      specialize (Hu y). unfold Dict.count in Hu. cbn [filter fst] in Hu. rewrite Hyy in Hu.
      cbn [List.length] in Hu.
      assert (Hc : (1 <= List.length (filter (fun kv => same_key (fst kv) y) rest))%nat).
      { apply nth_error_In in Hi.
        assert (Hin : In (x, t) (filter (fun kv => same_key (fst kv) y) rest))
          by (apply filter_In; split; [exact Hi|exact E]).
        destruct (filter _ rest); [destruct Hin|cbn; lia]. }
      lia.
    + cbn in Hi, Hj. pose proof (IH i j Hrest Hi Hj ltac:(lia)) as F. congruence.
Qed.

(** A key taken from the dictionary finds its own entry. *)
Lemma getitem_own (scenario : list (float_object * triplet)) (k : key_object) :
  Dict.unique same_key scenario ->
  In k (keys scenario) ->
  scenario_getitem scenario k = Ok (snd (entry_of scenario k))
  /\ fst (entry_of scenario k) = snd k.
Proof.
  intros Hu Hin. apply in_keys in Hin. destruct Hin as [t Hn].
  assert (He : entry_of scenario k = (snd k, t)).
  { unfold entry_of. now apply nth_error_nth. }
  rewrite He. cbn [fst snd]. split; [|reflexivity].
  unfold scenario_getitem, keys. rewrite entries_from.
  set (P := fun entry : key_object * triplet =>
              (fst (fst entry) =? fst k)%nat || same_key (snd (fst entry)) (snd k)).
  assert (Hfind : forall start pre post,
             (forall j y u, nth_error pre j = Some (y, u) -> same_key y (snd k) = false) ->
             (fst k = start + List.length pre)%nat ->
             find P (map (fun ie => ((fst ie, fst (snd ie)), snd (snd ie)))
                       (combine (seq start (List.length (pre ++ (snd k, t) :: post)))
                          (pre ++ (snd k, t) :: post)))
             = Some ((fst k, snd k), t)).
  { intros start pre. revert start. induction pre as [|[y u] pre IH]; intros start post Hpre Hk.
    - cbn. unfold P at 1. cbn [fst snd].
      replace (start =? fst k)%nat with true by (symmetry; apply Nat.eqb_eq; cbn in Hk; lia).
      cbn [orb]. f_equal. f_equal. f_equal. cbn in Hk. lia.
    - cbn [app List.length seq combine map find]. unfold P at 1. cbn [fst snd].
      replace (start =? fst k)%nat with false
        by (symmetry; apply Nat.eqb_neq; cbn in Hk; lia).
      rewrite (Hpre 0%nat y u eq_refl). cbn [orb].
      apply IH; [|cbn in Hk; lia].
      intros j y' u' Hj. exact (Hpre (S j) y' u' Hj). }
  destruct (nth_error_split _ _ Hn) as (pre & post & Hs & Hl).
  rewrite Hs.
  match goal with |- context [find ?f ?l] => change (find f l) with (find P l) end.
  rewrite (Hfind 0%nat pre post); [reflexivity| |lia].
  intros j y u Hj.
  apply (unique_places scenario j (fst k) y (snd k) u t Hu); [| exact Hn |].
  - rewrite Hs, nth_error_app1; [exact Hj|]. apply nth_error_Some. congruence.
  - assert (j < List.length pre)%nat by (apply nth_error_Some; congruence). lia.
Qed.

Lemma entry_of_keys_from (scenario : list (float_object * triplet)) :
  forall start,
    map (fun k : key_object =>
           nth (fst k - start) scenario (Own B64.NaN, (B64.NaN, B64.NaN, B64.NaN)))
      (combine (seq start (List.length scenario)) (map fst scenario))
    = scenario.
Proof.
  induction scenario as [|e rest IH]; intros start; [reflexivity|].
  cbn [List.length seq map combine fst]. rewrite Nat.sub_diag. cbn [nth]. f_equal.
  etransitivity; [|apply (IH (S start))]. apply map_ext_in. intros [i x] Hin.
  apply in_combine_l, in_seq in Hin. cbn [fst].
  now replace (i - start)%nat with (S (i - S start)) by lia.
Qed.

Lemma entry_of_keys (scenario : list (float_object * triplet)) :
  map (entry_of scenario) (keys scenario) = scenario.
Proof.
  etransitivity; [|apply (entry_of_keys_from scenario 0)]. unfold keys, entry_of.
  apply map_ext. intros k. now rewrite Nat.sub_0_r.
Qed.

Lemma map_fst_combine {A B : Type} (l : list A) (l' : list B) :
  List.length l = List.length l' -> map fst (combine l l') = l.
Proof.
  revert l'. induction l as [|a l IH]; intros [|b l'] H; try discriminate H; [reflexivity|].
  cbn. f_equal. apply IH. now injection H.
Qed.

Lemma keys_places (scenario : list (float_object * triplet)) : NoDup (map fst (keys scenario)).
Proof.
  unfold keys. rewrite map_fst_combine.
  - apply seq_NoDup.
  - now rewrite length_seq, length_map.
Qed.

(** The second loop never fails on keys of the dictionary, and fills
    the three columns from the entries of the keys, in their order. *)
Lemma columns_rows (scenario : list (float_object * triplet)) :
  Dict.unique same_key scenario ->
  forall x_values min_y max_y mean_y,
    (forall k, In k x_values -> In k (keys scenario)) ->
    columns scenario x_values min_y max_y mean_y
    = Ok ((min_y ++ map row_min (map (entry_of scenario) x_values))%list,
          (max_y ++ map row_max (map (entry_of scenario) x_values))%list,
          (mean_y ++ map row_mean (map (entry_of scenario) x_values))%list).
Proof.
  intros Hu. induction x_values as [|k rest IH]; intros min_y max_y mean_y Hin.
  - cbn. now rewrite !app_nil_r.
  - cbn [columns map].
    destruct (getitem_own scenario k Hu (Hin k (or_introl eq_refl))) as [-> _].
    destruct (entry_of scenario k) as [x [[lo hi] mean]] eqn:Ee. cbn [snd].
    rewrite IH by (intros k' Hk'; apply Hin; now right).
    unfold row_min, row_max, row_mean. cbn [fst snd]. now rewrite <- !app_assoc.
Qed.

Lemma get_own {V : Type} (name : string) (v : V) (d : list (string * V)) :
  Dict.unique String.eqb d -> In (name, v) d -> Dict.get String.eqb name d = Some v.
Proof.
  intros Hu Hin.
  destruct (Dict.get String.eqb name d) as [v0|] eqn:E.
  - f_equal. symmetry.
    exact (DictFacts.unique_in_get String.eqb name name v0 v d Hu E Hin (String.eqb_refl _)).
  - exfalso. clear Hu. induction d as [|[k0 w0] d IH]; [destruct Hin|].
    cbn [Dict.get] in E. destruct (String.eqb k0 name) eqn:E0; [discriminate|].
    destruct Hin as [H|Hin]; [|now apply IH].
    inversion H; subst. rewrite String.eqb_refl in E0. discriminate.
Qed.

Lemma plotted_app (a b : list call) : plotted (a ++ b) = (plotted a ++ plotted b)%list.
Proof. apply filter_app. Qed.

(** *** The insertion sort is a sort *)

Lemma insert_key_permutes (k : key_object) (l : list key_object) :
  Permutation (k :: l) (insert_key k l).
Proof.
  induction l as [|h t IH]; [apply Permutation_refl|].
  cbn [insert_key]. destruct (B64.ltb (value (snd h)) (value (snd k))); [|apply Permutation_refl].
  eapply Permutation_trans; [apply perm_swap|]. now apply perm_skip.
Qed.

Lemma insertion_sort_permutes (l : list key_object) : Permutation l (insertion_sort l).
Proof.
  induction l as [|k l IH]; [apply Permutation_refl|].
  cbn [insertion_sort fold_right]. eapply Permutation_trans; [|apply insert_key_permutes].
  now apply perm_skip.
Qed.

Lemma not_below_trans (x y z : B64.t) :
  y <> B64.NaN ->
  B64.ltb y x = false -> B64.ltb z y = false -> B64.ltb z x = false.
Proof.
  intros Hy. destruct x as [a|s|], y as [b|s'|], z as [c|s''|]; try contradiction;
    cbn; unfold B64.Qltb; rewrite ?negb_false_iff, ?Qle_bool_iff;
    try reflexivity; try (intros; eapply Qle_trans; eassumption);
    repeat match goal with b : bool |- _ => destruct b end; cbn; congruence.
Qed.

Lemma below_not_above (x y : B64.t) : B64.ltb x y = true -> B64.ltb y x = false.
Proof.
  destruct x as [a|s|], y as [b|s'|]; cbn; try discriminate; try reflexivity.
  - unfold B64.Qltb. rewrite negb_true_iff, negb_false_iff.
    intros H. apply B64Order.Qle_bool_false in H. apply Qle_bool_iff. now apply Qlt_le_weak.
  - now destruct s'.
  - now destruct s.
  - now destruct s, s'.
Qed.

Lemma insert_key_ascends (k : key_object) (l : list key_object) :
  value (snd k) <> B64.NaN -> (forall h, In h l -> value (snd h) <> B64.NaN) ->
  StronglySorted (fun a b => B64.ltb (value (snd b)) (value (snd a)) = false) l ->
  StronglySorted (fun a b => B64.ltb (value (snd b)) (value (snd a)) = false)
    (insert_key k l).
Proof.
  intros Hk. induction l as [|h t IH]; intros Hl Hs.
  - cbn. constructor; [constructor|constructor].
  - cbn [insert_key]. inversion Hs as [|h' t' Hs' Hall]; subst.
    destruct (B64.ltb (value (snd h)) (value (snd k))) eqn:E.
    + constructor.
      * apply IH; [intros x Hx; apply Hl; now right|exact Hs'].
      * apply Forall_forall. intros x Hx.
        apply (Permutation_in x (Permutation_sym (insert_key_permutes k t))) in Hx.
        destruct Hx as [<-|Hx]; [now apply below_not_above|].
        rewrite Forall_forall in Hall. now apply Hall.
    + constructor; [exact Hs|]. constructor; [exact E|].
      apply Forall_forall. intros x Hx. rewrite Forall_forall in Hall.
      apply (not_below_trans (value (snd k)) (value (snd h)) (value (snd x)));
        [apply Hl; now left|exact E|].
      now apply Hall.
Qed.

Lemma insertion_sort_ascends (l : list key_object) :
  (forall k, In k l -> value (snd k) <> B64.NaN) ->
  StronglySorted (fun a b => B64.ltb (value (snd b)) (value (snd a)) = false)
    (insertion_sort l).
Proof.
  induction l as [|k l IH]; intros H; [constructor|].
  cbn [insertion_sort fold_right]. apply insert_key_ascends.
  - apply H. now left.
  - intros h Hh. apply H. right.
    exact (Permutation_in h (Permutation_sym (insertion_sort_permutes l)) Hh).
  - apply IH. intros k' Hk'. apply H. now right.
Qed.

(** *** Calls into matplotlib, returning or raising *)

Section Calls.
Variable mpl : matplotlib.

Lemma follows_ret (calls : list call) : follows mpl (ret tt) calls [].
Proof.
  exists (Ok tt), calls, 0%nat. cbn [firstn List.length]. rewrite app_nil_r.
  split; [reflexivity|]. split; [lia|]. split; [reflexivity|].
  split; [reflexivity|discriminate].
Qed.

Lemma follows_ext (m m' : M unit) (calls plots : list call) :
  m calls = m' calls -> follows mpl m' calls plots -> follows mpl m calls plots.
Proof. unfold follows. now intros ->. Qed.

Lemma follows_invoke (c : call) (calls : list call) :
  plotted [c] = [] -> c <> LegendDraggable -> follows mpl (invoke mpl c) calls [].
Proof.
  intros Hc Hd. unfold follows, invoke. destruct (raises mpl calls c) as [e|] eqn:E.
  - exists (Raise e), (calls ++ [c])%list, 0%nat. rewrite plotted_app, Hc.
    cbn [firstn List.length]. split; [reflexivity|]. split; [lia|].
    split; [reflexivity|]. split; [discriminate|].
    intros e' He. injection He as <-. now exists calls, c.
  - exists (Ok tt), (calls ++ [c])%list, 0%nat. rewrite plotted_app, Hc.
    cbn [firstn List.length]. split; [reflexivity|]. split; [lia|].
    split; [reflexivity|]. split; [reflexivity|discriminate].
Qed.

Lemma follows_plot (xs ys : list B64.t) (name : string) (style : list (string * json))
    (calls : list call) :
  follows mpl (invoke mpl (AxesPlot xs ys name style)) calls [AxesPlot xs ys name style].
Proof.
  unfold follows, invoke.
  destruct (raises mpl calls (AxesPlot xs ys name style)) as [e|] eqn:E.
  - eexists (Raise e), _, 1%nat. split; [reflexivity|]. rewrite plotted_app.
    cbn [firstn List.length]. split; [lia|]. split; [reflexivity|].
    split; [discriminate|].
    intros e' He. injection He as <-. eexists calls, _.
    split; [reflexivity|]. split; [exact E|discriminate].
  - eexists (Ok tt), _, 1%nat. split; [reflexivity|]. rewrite plotted_app.
    cbn [firstn List.length]. split; [lia|]. split; [reflexivity|].
    split; [reflexivity|discriminate].
Qed.

Lemma follows_bind (m : M unit) (k : unit -> M unit) (calls : list call)
    (plots plots' : list call) :
  follows mpl m calls plots ->
  (forall log, m calls = (Ok tt, log) -> follows mpl (k tt) log plots') ->
  follows mpl (bind m k) calls (plots ++ plots').
Proof.
  intros (r & log & n & Hm & Hn & Hp & Hok & Hraise) Hk. unfold follows, bind.
  rewrite Hm. destruct r as [[]|e].
  - destruct (Hk log Hm) as (r' & log' & n' & Hm' & Hn' & Hp' & Hok' & Hraise').
    specialize (Hok eq_refl). subst n.
    exists r', log', (List.length plots + n')%nat. split; [exact Hm'|].
    rewrite length_app. split; [lia|]. split; [|split; [|exact Hraise']].
    + rewrite Hp', Hp, firstn_all, firstn_app_2, app_assoc. reflexivity.
    + intros E. rewrite (Hok' E). reflexivity.
  - exists (Raise e), log, n. split; [reflexivity|]. rewrite length_app.
    split; [lia|]. split; [|split; [discriminate|exact Hraise]].
    rewrite Hp, firstn_app. replace (n - List.length plots)%nat with 0%nat by lia.
    cbn [firstn]. now rewrite app_nil_r.
Qed.

(** The attempt to make the legend draggable: an exception of
    [draggable] is caught, one of [set_draggable] is not. *)
Lemma follows_draggable (calls : list call) :
  follows mpl
    (try_except (invoke mpl LegendDraggable) (invoke mpl (LegendSetDraggable true)))
    calls [].
Proof.
  unfold follows, try_except. unfold invoke at 1.
  destruct (raises mpl calls LegendDraggable) as [e|] eqn:E.
  - destruct (follows_invoke (LegendSetDraggable true) (calls ++ [LegendDraggable])
                eq_refl ltac:(discriminate)) as (r & log & n & Hm & Hn & Hp & Hok & Hraise).
    exists r, log, n. split; [exact Hm|]. split; [exact Hn|].
    split; [|split; [exact Hok|exact Hraise]].
    rewrite Hp, plotted_app. cbn [plotted filter]. now rewrite app_nil_r.
  - exists (Ok tt), (calls ++ [LegendDraggable])%list, 0%nat.
    split; [reflexivity|]. rewrite plotted_app. cbn [plotted filter firstn List.length].
    split; [lia|]. split; [reflexivity|]. split; [reflexivity|discriminate].
Qed.

(** [add_plot_padding] is three calls, the limits computed from what
    the axes report once the scale is set. *)
Lemma padding_invokes (calls : list call) :
  let calls1 := (calls ++ [SetYScale "log"])%list in
  let y_limits := get_ybound mpl calls1 in
  let x_limits := get_xbound mpl calls1 in
  let y_pad := B64.mul (B64.sub (snd y_limits) (fst y_limits)) five_percent in
  let x_pad := B64.mul (B64.sub (snd x_limits) (fst x_limits)) five_percent in
  add_plot_padding mpl calls
  = invoke_all mpl
      [ SetYScale "log";
        SetYLim (fst y_limits) (B64.add (snd y_limits) y_pad);
        SetXLim (B64.sub (fst x_limits) x_pad) (B64.add (snd x_limits) x_pad) ]
      calls.
Proof.
  cbv zeta. unfold add_plot_padding. cbn [invoke_all].
  unfold bind at 1 5. unfold invoke at 1 4.
  destruct (raises mpl calls (SetYScale "log")); [reflexivity|].
  unfold bind at 1. unfold read at 1. unfold bind at 1. unfold read at 1.
  unfold bind, ret. destruct (invoke mpl _ _) as [[[]|e] log]; [|reflexivity].
  now destruct (invoke mpl _ log) as [[[]|e] log'].
Qed.

Lemma follows_invoke_all (cs : list call) :
  plotted cs = [] -> ~ In LegendDraggable cs ->
  forall calls, follows mpl (invoke_all mpl cs) calls [].
Proof.
  induction cs as [|c cs IH]; intros Hc Hd calls; [apply follows_ret|].
  cbn [invoke_all].
  assert (H1 : plotted [c] = []).
  { change (c :: cs) with ([c] ++ cs)%list in Hc. rewrite plotted_app in Hc.
    now apply app_eq_nil in Hc. }
  assert (H2 : plotted cs = []).
  { change (c :: cs) with ([c] ++ cs)%list in Hc. rewrite plotted_app in Hc.
    now apply app_eq_nil in Hc. }
  apply (follows_bind (invoke mpl c) (fun _ => invoke_all mpl cs) calls [] []).
  - apply follows_invoke; [exact H1|]. intros ->. apply Hd. now left.
  - intros log _. apply IH; [exact H2|]. intros H. apply Hd. now right.
Qed.

Lemma follows_padding (calls : list call) : follows mpl (add_plot_padding mpl) calls [].
Proof.
  pose proof (padding_invokes calls) as H. cbv zeta in H. unfold follows. rewrite H.
  apply follows_invoke_all; [reflexivity|].
  intros [E|[E|[E|[]]]]; discriminate E.
Qed.

End Calls.

(** *** What Python's sort is taken to do *)

Section Sort.
Variable list_sort : list key_object -> list key_object.

(** It returns the objects it was given, in some order. *)
Hypothesis sort_permutes : forall l, Permutation l (list_sort l).

(** Without a NaN among them, no object is followed by a smaller one. *)
Hypothesis sort_ascends :
  forall l, (forall k, In k l -> value (snd k) <> B64.NaN) ->
            StronglySorted (fun a b => B64.ltb (value (snd b)) (value (snd a)) = false)
              (list_sort l).

Lemma labels_of_rows (scenario : list (float_object * triplet)) :
  Dict.unique same_key scenario ->
  map row_label (map (entry_of scenario) (list_sort (keys scenario)))
  = map (fun k => value (snd k)) (list_sort (keys scenario)).
Proof.
  intros Hu. rewrite map_map. apply map_ext_in. intros k Hk. unfold row_label.
  apply (Permutation_in k (Permutation_sym (sort_permutes _))) in Hk.
  now destruct (getitem_own scenario k Hu Hk) as [_ ->].
Qed.

Lemma distribution_columns (scenario : list (float_object * triplet)) :
  Dict.unique same_key scenario ->
  let rows := map (entry_of scenario) (list_sort (keys scenario)) in
  scenario_to_distribution list_sort scenario
  = Ok (map row_label rows, map row_min rows, map row_max rows, map row_mean rows).
Proof.
  intros Hu rows.
  assert (Hin : forall k, In k (list_sort (keys scenario)) -> In k (keys scenario)).
  { intros k Hk. apply (Permutation_in k (Permutation_sym (sort_permutes _)) Hk). }
  unfold scenario_to_distribution. rewrite (columns_rows scenario Hu) by exact Hin.
  cbn [app]. fold rows. unfold rows. now rewrite labels_of_rows.
Qed.

Lemma distribution_of_rows (scenario : list (float_object * triplet)) :
  Dict.unique same_key scenario ->
  let rows := map (entry_of scenario) (list_sort (keys scenario)) in
  scenario_to_distribution list_sort scenario
  = Ok (map row_label rows, map row_min rows, map row_max rows, map row_mean rows)
  /\ Permutation rows scenario
  /\ ((forall x t, In (x, t) scenario -> value x <> B64.NaN) ->
      StronglySorted (fun a b => B64.ltb a b = true) (map row_label rows)).
Proof.
  intros Hu rows.
  assert (Hin : forall k, In k (list_sort (keys scenario)) -> In k (keys scenario)).
  { intros k Hk. apply (Permutation_in k (Permutation_sym (sort_permutes _)) Hk). }
  assert (Hx : map row_label rows = map (fun k => value (snd k)) (list_sort (keys scenario)))
    by (apply labels_of_rows; exact Hu).
  split; [|split].
  - exact (distribution_columns scenario Hu).
  - unfold rows. eapply Permutation_trans.
    + apply Permutation_map, Permutation_sym, sort_permutes.
    + rewrite entry_of_keys. apply Permutation_refl.
  - intros Hnan. rewrite Hx.
    assert (Hkn : forall k, In k (keys scenario) -> value (snd k) <> B64.NaN).
    { intros k Hk. apply in_keys in Hk. destruct Hk as [t Hn].
      apply nth_error_In in Hn. exact (Hnan _ _ Hn). }
    pose proof (sort_ascends (keys scenario) Hkn) as Hs.
    assert (Hnd : NoDup (map fst (list_sort (keys scenario)))).
    { apply (Permutation_NoDup (Permutation_map fst (sort_permutes (keys scenario)))).
      apply keys_places. }
    revert Hin Hs Hnd. generalize (list_sort (keys scenario)) as ks.
    induction ks as [|a ks IH]; intros Hin Hs Hnd; [constructor|].
    cbn [map]. inversion Hs as [|a' ks' Hs' Hall]; subst.
    inversion Hnd as [|i l Hni Hnd']; subst.
    constructor.
    + apply IH; [intros k Hk; apply Hin; now right|exact Hs'|exact Hnd'].
    + apply Forall_forall. intros y Hy. apply in_map_iff in Hy. destruct Hy as (b & <- & Hb).
      rewrite Forall_forall in Hall. specialize (Hall b Hb).
      assert (Hab : fst a <> fst b).
      { intros E. apply Hni. rewrite E. now apply in_map. }
      pose proof (Hin a (or_introl eq_refl)) as Ha. pose proof (Hin b (or_intror Hb)) as Hb'.
      pose proof (Hkn a Ha) as Hna. pose proof (Hkn b Hb') as Hnb.
      apply in_keys in Ha, Hb'. destruct Ha as [ta Ha], Hb' as [tb Hb'].
      pose proof (unique_places scenario _ _ _ _ _ _ Hu Ha Hb' Hab) as Hne.
      destruct (snd a) as [va|], (snd b) as [vb|]; cbn [value] in *; try contradiction.
      cbn [same_key value] in Hne.
      destruct va as [qa|sa|], vb as [qb|sb|]; try contradiction;
        cbn in Hall, Hne |- *.
      * unfold B64.Qltb in *. apply negb_false_iff, Qle_bool_iff in Hall.
        apply negb_true_iff. destruct (Qle_bool qb qa) eqn:E; [|reflexivity].
        apply Qle_bool_iff in E. exfalso.
        assert (Heq : (qa == qb)%Q) by (apply Qle_antisym; assumption).
        apply Qeq_bool_iff in Heq. congruence.
      * now destruct sb.
      * now destruct sa.
      * destruct sa, sb; try discriminate; reflexivity.
Qed.

(** X17.  For a dictionary whose keys are pairwise different,
    [scenario_to_distribution] never fails on a lookup and returns four
    columns that are the entries of the dictionary row by row: the labels,
    and beside each label the minimum, maximum and mean stored under it.
    The rows are the entries in another order, and when no label is a NaN
    the labels rise strictly from row to row. *)
Theorem distribution_sorted_by_label (scenario : list (float_object * triplet)) :
  Dict.unique same_key scenario ->
  exists rows,
    scenario_to_distribution list_sort scenario
    = Ok (map row_label rows, map row_min rows, map row_max rows, map row_mean rows)
    /\ Permutation rows scenario
    /\ ((forall x t, In (x, t) scenario -> value x <> B64.NaN) ->
        StronglySorted (fun a b => B64.ltb a b = true) (map row_label rows)).
Proof.
  intros Hu.
  exists (map (entry_of scenario) (list_sort (keys scenario))).
  destruct (distribution_of_rows scenario Hu) as (Hd & Hp & Hs).
  split; [exact Hd|]. split; [exact Hp|exact Hs].
Qed.

Variable mpl : matplotlib.

Lemma follows_scenario (scenario : list (float_object * triplet)) (name : string)
    (style : list (string * json)) (calls : list call) :
  Dict.unique same_key scenario ->
  follows mpl (add_scenario_to_plot list_sort mpl scenario name style) calls
    [series list_sort scenario name style].
Proof.
  intros Hu. unfold add_scenario_to_plot.
  assert (Hm : forall k : _ -> M unit,
             bind (lift (scenario_to_distribution list_sort scenario)) k calls
             = k (map row_label (map (entry_of scenario) (list_sort (keys scenario))),
                  map row_min (map (entry_of scenario) (list_sort (keys scenario))),
                  map row_max (map (entry_of scenario) (list_sort (keys scenario))),
                  map row_mean (map (entry_of scenario) (list_sort (keys scenario))))
                 calls).
  { intros k. unfold bind, lift.
    now rewrite (distribution_columns scenario Hu). }
  eapply follows_ext; [apply Hm|]. cbn beta iota.
  apply (follows_bind mpl _ _ calls [series list_sort scenario name style] []).
  { apply follows_plot. }
  intros log1 _.
  apply (follows_bind mpl _ _ log1 [] []);
    [apply follows_invoke; [reflexivity|discriminate]|]. intros log2 _.
  apply (follows_bind mpl _ _ log2 [] []);
    [apply follows_invoke; [reflexivity|discriminate]|]. intros log3 _.
  apply (follows_bind mpl _ _ log3 [] []);
    [apply follows_invoke; [reflexivity|discriminate]|]. intros log4 _.
  apply follows_draggable.
Qed.

Lemma follows_scenarios (all_scenarios : scenarios) :
  well_keyed all_scenarios ->
  forall rest drawn calls,
    (forall entry, In entry rest -> In entry all_scenarios) ->
    follows mpl (plot_scenarios list_sort mpl all_scenarios (map fst rest) drawn) calls
      (all_series list_sort drawn rest).
Proof.
  intros [Hu Hs]. induction rest as [|[name scenario] rest IH]; intros drawn calls Hin.
  - apply follows_ret.
  - cbn [map fst plot_scenarios]. unfold all_series.
    cbn [List.length seq combine map fst snd].
    assert (Hm : forall k : _ -> M unit,
               bind (lift (getitem name (Dict.get String.eqb name all_scenarios))) k calls
               = k scenario calls).
    { intros k. unfold bind, lift.
      now rewrite (get_own name scenario all_scenarios Hu (Hin _ (or_introl eq_refl))). }
    eapply follows_ext; [apply Hm|]. cbn beta.
    apply (follows_bind mpl _ _ calls [series list_sort scenario name (next_style drawn)]).
    + apply follows_scenario. exact (Hs name scenario (Hin _ (or_introl eq_refl))).
    + intros log _. apply IH. intros e He. apply Hin. now right.
Qed.

(** The second half of [show_plots] over the log of its calls. *)
Lemma follows_draw (all_scenarios : scenarios) (h w : Z) (dpi : Q) (h' w' : B64.t) :
  well_keyed all_scenarios ->
  figure_dpi mpl = B64.Fin dpi -> ~ (dpi == 0)%Q ->
  B64.of_int w = Ok w' -> B64.of_int h = Ok h' ->
  follows mpl (draw list_sort mpl all_scenarios h w) [] (all_series list_sort 0 all_scenarios).
Proof.
  intros Hwk Hdpi Hnz Hw Hh. unfold draw.
  assert (Hm : forall k : _ -> _ -> _ -> M unit,
             bind (lift (B64.div (B64.Fin 1) (figure_dpi mpl)))
               (fun px => bind (lift (B64.of_int w))
                            (fun w' => bind (lift (B64.of_int h)) (fun h' => k px w' h'))) []
             = k (B64.of_Q (1 / dpi)) w' h' []).
  { intros k. unfold bind, lift. rewrite Hdpi, Hw, Hh. unfold B64.div.
    replace (Qeq_bool dpi 0) with false; [reflexivity|].
    symmetry. destruct (Qeq_bool dpi 0) eqn:E; [|reflexivity].
    apply Qeq_bool_iff in E. contradiction. }
  eapply follows_ext; [apply Hm|]. cbn beta.
  change (all_series list_sort 0 all_scenarios)
    with ([] ++ [] ++ [] ++ [] ++ all_series list_sort 0 all_scenarios)%list.
  apply (follows_bind mpl _ _ [] []);
    [apply follows_invoke; [reflexivity|discriminate]|]. intros log1 _.
  apply (follows_bind mpl _ _ log1 []);
    [apply follows_invoke; [reflexivity|discriminate]|]. intros log2 _.
  apply (follows_bind mpl _ _ log2 []);
    [apply follows_invoke; [reflexivity|discriminate]|]. intros log3 _.
  apply (follows_bind mpl _ _ log3 []);
    [apply follows_invoke; [reflexivity|discriminate]|]. intros log4 _.
  rewrite <- (app_nil_r (all_series list_sort 0 all_scenarios)).
  apply (follows_bind mpl _ _ log4 (all_series list_sort 0 all_scenarios) []).
  { apply (follows_scenarios all_scenarios Hwk all_scenarios 0%nat log4). auto. }
  intros log5 _.
  apply (follows_bind mpl _ _ log5 [] []); [apply follows_padding|]. intros log6 _.
  apply (follows_bind mpl _ _ log6 [] []);
    [apply follows_invoke; [reflexivity|discriminate]|]. intros log7 _.
  apply follows_invoke; [reflexivity|discriminate].
Qed.

(** The rows behind each series. *)
Lemma series_rows (all_scenarios : scenarios) :
  well_keyed all_scenarios ->
  forall numbered : list (nat * (string * list (float_object * triplet))),
    (forall entry, In entry numbered -> In (snd entry) all_scenarios) ->
    Forall2
      (fun numbered c =>
         let '(i, (name, scenario)) := numbered in
         exists rows,
           Permutation rows scenario
           /\ ((forall x t, In (x, t) scenario -> value x <> B64.NaN) ->
               StronglySorted (fun a b => B64.ltb a b = true) (map row_label rows))
           /\ c = AxesPlot (map row_label rows) (map row_mean rows) (legend_name name)
                    (next_style i))
      numbered
      (map (fun ie => series list_sort (snd (snd ie)) (fst (snd ie)) (next_style (fst ie)))
         numbered).
Proof.
  intros [_ Hs]. induction numbered as [|[i [name scenario]] l IH]; intros Hin; [constructor|].
  cbn [map]. constructor; [|apply IH; intros x Hx; apply Hin; now right].
  pose proof (Hs name scenario (Hin _ (or_introl eq_refl))) as Hu.
  destruct (distribution_of_rows scenario Hu) as (_ & Hperm & Hsorted).
  eexists. split; [exact Hperm|]. split; [exact Hsorted|]. reflexivity.
Qed.

(** X18.  For a mapping in which no scenario name and no label of a
    scenario is stored twice, and a figure whose size can be computed,
    the second half of [show_plots] fails only when a call into
    matplotlib raises, other than [legend.draggable], whose exceptions
    are caught: it then ends with the exception of that call, right
    after it.  Up
    to its end it calls [axes.plot] once per scenario, in the order of
    the mapping, for every scenario when it ends normally.  The call
    for the scenario at place [i] draws the means against the labels,
    row by row of the scenario's entries taken in an order in which the
    labels rise strictly when none is a NaN; its legend name is that of
    the scenario, and its style is the style [i] of the cycle. *)
Theorem one_series_per_scenario (all_scenarios : scenarios) (h w : Z) (dpi : Q)
    (h' w' : B64.t) :
  well_keyed all_scenarios ->
  figure_dpi mpl = B64.Fin dpi -> ~ (dpi == 0)%Q ->
  B64.of_int w = Ok w' -> B64.of_int h = Ok h' ->
  exists r calls n,
    draw list_sort mpl all_scenarios h w [] = (r, calls)
    /\ (forall e, r = Raise e -> raised mpl calls e)
    /\ (n <= List.length all_scenarios)%nat
    /\ (r = Ok tt -> n = List.length all_scenarios)
    /\ Forall2
         (fun numbered c =>
            let '(i, (name, scenario)) := numbered in
            exists rows,
              Permutation rows scenario
              /\ ((forall x t, In (x, t) scenario -> value x <> B64.NaN) ->
                  StronglySorted (fun a b => B64.ltb a b = true) (map row_label rows))
              /\ c = AxesPlot (map row_label rows) (map row_mean rows) (legend_name name)
                       (next_style i))
         (firstn n (combine (seq 0 (List.length all_scenarios)) all_scenarios))
         (plotted calls).
Proof.
  intros Hwk Hdpi Hnz Hw Hh.
  destruct (follows_draw all_scenarios h w dpi h' w' Hwk Hdpi Hnz Hw Hh)
    as (r & calls & n & Hd & Hn & Hp & Hok & Hraise).
  unfold all_series in Hn, Hp, Hok. rewrite length_map, length_combine, length_seq in Hn, Hok.
  rewrite Nat.min_id in Hn, Hok.
  exists r, calls, n. split; [exact Hd|]. split; [exact Hraise|]. split; [exact Hn|].
  split; [exact Hok|]. rewrite Hp. cbn [plotted filter app]. rewrite firstn_map.
  apply (series_rows all_scenarios Hwk).
  intros [i e] H. apply (in_combine_r (seq 0 (List.length all_scenarios)) all_scenarios i e).
  rewrite <- (firstn_skipn n). apply in_or_app. now left.
Qed.

End Sort.

Lemma example_scenario_unique : Dict.unique same_key example_scenario.
Proof.
  intros k. unfold Dict.count, example_scenario. cbn [filter fst].
  destruct k as [[q|s|]|]; cbn [same_key value B64.eqb List.length]; try lia.
  destruct (Qeq_bool 14 q) eqn:E1, (Qeq_bool 7 q) eqn:E2; cbn [List.length]; try lia.
  apply Qeq_bool_iff in E1, E2. exfalso.
  assert (H : (14 == 7)%Q) by (now rewrite E1, E2). discriminate H.
Qed.

Lemma distribution_sorted_by_label_witness :
  exists rows,
    scenario_to_distribution insertion_sort example_scenario
    = Ok (map row_label rows, map row_min rows, map row_max rows, map row_mean rows)
    /\ Permutation rows example_scenario
    /\ ((forall x t, In (x, t) example_scenario -> value x <> B64.NaN) ->
        StronglySorted (fun a b => B64.ltb a b = true) (map row_label rows)).
Proof.
  apply (distribution_sorted_by_label insertion_sort insertion_sort_permutes
           insertion_sort_ascends example_scenario).
  exact example_scenario_unique.
Defined.

Lemma example_scenarios_well_keyed : well_keyed [("mps", example_scenario)].
Proof.
  split.
  - intros k. unfold Dict.count. cbn [filter fst].
    destruct (String.eqb "mps" k); cbn; lia.
  - intros name scenario [E|[]]. injection E as _ <-. exact example_scenario_unique.
Qed.

Lemma one_series_per_scenario_witness :
  exists r calls n,
    draw insertion_sort example_matplotlib [("mps", example_scenario)] 400 600 []
    = (r, calls)
    /\ (forall e, r = Raise e -> raised example_matplotlib calls e)
    /\ (n <= List.length [("mps", example_scenario)])%nat
    /\ (r = Ok tt -> n = List.length [("mps", example_scenario)])
    /\ Forall2
         (fun numbered c =>
            let '(i, (name, scenario)) := numbered in
            exists rows,
              Permutation rows scenario
              /\ ((forall x t, In (x, t) scenario -> value x <> B64.NaN) ->
                  StronglySorted (fun a b => B64.ltb a b = true) (map row_label rows))
              /\ c = AxesPlot (map row_label rows) (map row_mean rows) (legend_name name)
                       (next_style i))
         (firstn n (combine (seq 0 (List.length [("mps", example_scenario)]))
                      [("mps", example_scenario)]))
         (plotted calls).
Proof.
  apply (one_series_per_scenario insertion_sort insertion_sort_permutes
           insertion_sort_ascends example_matplotlib [("mps", example_scenario)]
           400 600 100 (B64.Fin 400) (B64.Fin 600)).
  - exact example_scenarios_well_keyed.
  - reflexivity.
  - discriminate.
  - vm_compute. reflexivity.
  - vm_compute. reflexivity.
Defined.

(** With the example matplotlib the figure of the example scenario is
    drawn to the end, and one of a negative height is refused before
    anything is plotted. *)
Example draw_examples :
  fst (draw insertion_sort example_matplotlib [("mps", example_scenario)] 400 600 [])
  = Ok tt
  /\ List.length
       (plotted
          (snd (draw insertion_sort example_matplotlib [("mps", example_scenario)]
                  400 600 []))) = 1%nat
  /\ fst (draw insertion_sort example_matplotlib [("mps", example_scenario)] (-5) 600 [])
     = Raise ValueError
  /\ List.length
       (snd (draw insertion_sort example_matplotlib [("mps", example_scenario)]
               (-5) 600 [])) = 1%nat.
Proof. repeat split; vm_compute; reflexivity. Qed.

(** *** The padding of the axes *)

Local Open Scope Q_scope.

Lemma five_percent_value :
  five_percent = B64.Fin (3602879701896397 # 72057594037927936).
Proof. vm_compute. reflexivity. Qed.

(** The pad computed from a range that is not negative. *)
Lemma pad_nonneg (lo hi : Q) :
  lo <= hi ->
  let pad := B64.mul (B64.sub (B64.Fin hi) (B64.Fin lo)) five_percent in
  (exists p, pad = B64.Fin p /\ 0 <= p) \/ pad = B64.Inf false.
Proof.
  intros H. cbv zeta. rewrite five_percent_value.
  unfold B64.sub. cbn [B64.neg B64.add].
  assert (Hr : 0 <= hi + Qred (- lo)) by (rewrite Qred_correct; lra).
  destruct (B64Order.of_Q_nonneg _ Hr) as [(r & -> & Hr0)| ->].
  - cbn [B64.mul]. apply B64Order.of_Q_nonneg. nra.
  - right. reflexivity.
Qed.

Lemma add_pad_above (b : Q) (pad : B64.t) :
  B64.exact (B64.Fin b) ->
  (exists p, pad = B64.Fin p /\ 0 <= p) \/ pad = B64.Inf false ->
  B64.leb (B64.Fin b) (B64.add (B64.Fin b) pad) = true.
Proof.
  intros Hb [(p & -> & Hp)| ->]; [|reflexivity].
  cbn [B64.add]. cbn [B64.exact] in Hb. rewrite <- Hb. apply B64Order.of_Q_mono. lra.
Qed.

Lemma sub_pad_below (a : Q) (pad : B64.t) :
  B64.exact (B64.Fin a) ->
  (exists p, pad = B64.Fin p /\ 0 <= p) \/ pad = B64.Inf false ->
  B64.leb (B64.sub (B64.Fin a) pad) (B64.Fin a) = true.
Proof.
  intros Ha [(p & -> & Hp)| ->]; [|reflexivity].
  unfold B64.sub. cbn [B64.neg B64.add]. cbn [B64.exact] in Ha. rewrite <- Ha.
  apply B64Order.of_Q_mono. rewrite Qred_correct. lra.
Qed.

(** X21.  [add_plot_padding] makes three calls, each of which may
    raise and end it: it switches the y axis to a logarithmic scale and
    then sets the range of each axis once.  When the bounds the axes
    report are finite binary64 values with the lower one not above the
    upper one, the new ranges hide nothing of the old ones: the lower y
    limit is the reported one unchanged, the upper y limit is not below
    the reported one, and the x limits lie on or outside the reported
    ones, whatever the rounding of the pad.  When none of the three
    calls raises, it ends normally having made them. *)
Theorem padding_keeps_bounds (mpl : matplotlib) (calls : list call) (y0 y1 x0 x1 : Q) :
  let calls1 := (calls ++ [SetYScale "log"])%list in
  get_ybound mpl calls1 = (B64.Fin y0, B64.Fin y1) ->
  get_xbound mpl calls1 = (B64.Fin x0, B64.Fin x1) ->
  B64.exact (B64.Fin y1) -> B64.exact (B64.Fin x0) -> B64.exact (B64.Fin x1) ->
  y0 <= y1 -> x0 <= x1 ->
  exists top left right,
    add_plot_padding mpl calls
    = invoke_all mpl [SetYScale "log"; SetYLim (B64.Fin y0) top; SetXLim left right] calls
    /\ B64.leb (B64.Fin y1) top = true
    /\ B64.leb left (B64.Fin x0) = true
    /\ B64.leb (B64.Fin x1) right = true
    /\ (raises mpl calls (SetYScale "log") = None ->
        raises mpl calls1 (SetYLim (B64.Fin y0) top) = None ->
        raises mpl (calls1 ++ [SetYLim (B64.Fin y0) top]) (SetXLim left right) = None ->
        add_plot_padding mpl calls
        = (Ok tt,
           (calls ++ [SetYScale "log"; SetYLim (B64.Fin y0) top; SetXLim left right])%list)).
Proof.
  intros calls1 Hy Hx Ey1 Ex0 Ex1 Hyle Hxle.
  pose proof (padding_invokes mpl calls) as Hp. cbv zeta in Hp. fold calls1 in Hp.
  rewrite Hy, Hx in Hp. cbn [fst snd] in Hp.
  eexists _, _, _. split; [exact Hp|].
  pose proof (pad_nonneg y0 y1 Hyle) as Hpy. pose proof (pad_nonneg x0 x1 Hxle) as Hpx.
  cbv zeta in Hpy, Hpx.
  split; [now apply add_pad_above|]. split; [now apply sub_pad_below|].
  split; [now apply add_pad_above|].
  intros H1 H2 H3. rewrite Hp. cbn [invoke_all]. unfold bind, invoke, ret.
  rewrite H1. fold calls1. rewrite H2, H3. unfold calls1. now rewrite <- !app_assoc.
Qed.

Local Close Scope Q_scope.

(** *** The legend *)

Lemma prefix_lower (sub s : string) :
  String.prefix sub s = true -> String.prefix (lower sub) (lower s) = true.
Proof.
  revert s. induction sub as [|a sub IH]; intros s; [now destruct s|].
  destruct s as [|b s]; [discriminate|]. cbn [String.prefix lower].
  destruct (ascii_dec a b) as [->|]; [|discriminate].
  intros H. destruct (ascii_dec (lower_char b) (lower_char b)); [|contradiction].
  now apply IH.
Qed.

(** A substring stays one when both strings are put in lower case. *)
Lemma contains_lower (sub s : string) :
  contains sub s = true -> contains (lower sub) (lower s) = true.
Proof.
  induction s as [|c s IH].
  - cbn [contains lower]. rewrite !orb_false_r. apply prefix_lower.
  - cbn [contains lower]. rewrite !orb_true_iff. intros [H|H].
    + left. now apply (prefix_lower sub (String c s)).
    + right. now apply IH.
Qed.

Lemma contains_name (sub part_method : string) :
  sub = "mps" \/ sub = "mig" ->
  contains sub ("TPC Count vs. Performance with " ++ part_method) = contains sub part_method.
Proof. intros [->| ->]; reflexivity. Qed.

Lemma lower_three (s : string) (a b c : ascii) :
  lower s = String a (String b (String c EmptyString)) ->
  exists a' b' c', s = String a' (String b' (String c' EmptyString)).
Proof.
  destruct s as [|a' [|b' [|c' [|d s]]]]; cbn; try discriminate. intros _. now exists a', b', c'.
Qed.

Lemma prefix_length (sub s : string) :
  String.prefix sub s = true ->
  (String.length sub <= String.length s)%nat
  /\ (String.length sub = String.length s -> s = sub).
Proof.
  revert s. induction sub as [|a sub IH]; intros s.
  - intros _. split; [cbn; lia|]. destruct s; [reflexivity|discriminate].
  - destruct s as [|b s]; [discriminate|]. cbn [String.prefix String.length].
    destruct (ascii_dec a b) as [->|]; [|discriminate].
    intros H. destruct (IH s H) as [Hle Heq]. split; [lia|].
    intros E. f_equal. apply Heq. lia.
Qed.

Lemma contains_length (sub s : string) :
  contains sub s = true -> (String.length sub <= String.length s)%nat.
Proof.
  induction s as [|c s IH]; cbn [contains]; rewrite ?orb_false_r.
  - intros H. now apply prefix_length.
  - rewrite orb_true_iff. intros [H|H]; [now apply prefix_length|].
    specialize (IH H). cbn [String.length]. lia.
Qed.

(** Within a string of its own length, a substring is the string. *)
Lemma contains_whole (sub s : string) :
  String.length sub = String.length s -> contains sub s = true -> s = sub.
Proof.
  intros Hl. destruct s as [|c s]; cbn [contains]; rewrite ?orb_false_r.
  - intros H. now apply prefix_length.
  - rewrite orb_true_iff. intros [H|H]; [now apply prefix_length|].
    apply contains_length in H. cbn [String.length] in Hl. lia.
Qed.

(** X19.  The legend name of a scenario that [generate_config] named is
    decided by the partitioning method alone, the fixed part of the name
    holding neither [mps] nor [mig].  The sweep's own spelling [mps]
    gives [MPS] and [mig] gives [MiG]; [libsmctrl] in any case, and
    [mps] or [mig] spelled with a capital letter, which the sweep takes
    as well, give [nvsplit], the test of the name being case
    sensitive. *)
Theorem legend_of_generated_name (device iterations : Z) (part_method name : string)
    (plugin_config : list (string * json)) :
  Granularity.top_field "name"
    (Granularity.overall_config device part_method iterations plugin_config)
  = Some (JStr name) ->
  legend_name name = legend_name part_method
  /\ (part_method = "mps" -> legend_name name = "MPS")
  /\ (part_method = "mig" -> legend_name name = "MiG")
  /\ (lower part_method = "libsmctrl" -> legend_name name = "nvsplit")
  /\ (lower part_method = "mps" -> part_method <> "mps" -> legend_name name = "nvsplit")
  /\ (lower part_method = "mig" -> part_method <> "mig" -> legend_name name = "nvsplit").
Proof.
  intros H.
  assert (Hname : name = "TPC Count vs. Performance with " ++ part_method)
    by (cbn in H; now injection H).
  subst name. clear H.
  assert (Hn : legend_name ("TPC Count vs. Performance with " ++ part_method)
               = legend_name part_method).
  { unfold legend_name. now rewrite !contains_name by auto. }
  rewrite Hn. split; [reflexivity|].
  split; [intros ->; reflexivity|]. split; [intros ->; reflexivity|].
  assert (Hno : forall sub, contains sub (lower part_method) = false -> lower sub = sub ->
                            contains sub part_method = false).
  { intros sub Hf Hs. destruct (contains sub part_method) eqn:E; [|reflexivity].
    apply contains_lower in E. rewrite Hs in E. congruence. }
  split; [|split].
  - intros Hl. unfold legend_name.
    rewrite (Hno "mps"), (Hno "mig"); try reflexivity; rewrite Hl; reflexivity.
  - intros Hl Hne. unfold legend_name.
    destruct (lower_three _ _ _ _ Hl) as (a & b & c & Hs).
    destruct (contains "mps" part_method) eqn:E.
    + exfalso. apply Hne. apply contains_whole; [now rewrite Hs|exact E].
    + rewrite (Hno "mig"); try reflexivity. rewrite Hl. reflexivity.
  - intros Hl Hne. unfold legend_name.
    destruct (lower_three _ _ _ _ Hl) as (a & b & c & Hs).
    rewrite (Hno "mps"); [|rewrite Hl; reflexivity|reflexivity].
    destruct (contains "mig" part_method) eqn:E; [|reflexivity].
    exfalso. apply Hne. apply contains_whole; [now rewrite Hs|exact E].
Qed.

(** *** The marker styles *)

Lemma next_style_values :
  next_style 0 <> next_style 1 /\ next_style 0 <> next_style 2 /\ next_style 1 <> next_style 2.
Proof. repeat split; intros E; vm_compute in E; discriminate E. Qed.

(** X20.  The cycle over [get_marker_styles] has period three and no
    shorter one: two scenarios are drawn in the same style exactly when
    their places in the mapping differ by a multiple of three, so from
    the fourth scenario on every style is one already used. *)
Theorem styles_repeat_every_third (n m : nat) :
  next_style n = next_style m <-> (n mod 3 = m mod 3)%nat.
Proof.
  unfold next_style. change (List.length get_marker_styles) with 3%nat.
  split; [|now intros ->].
  pose proof (Nat.mod_upper_bound n 3 ltac:(lia)) as Hn.
  pose proof (Nat.mod_upper_bound m 3 ltac:(lia)) as Hm.
  destruct next_style_values as (H01 & H02 & H12). unfold next_style in H01, H02, H12.
  change (List.length get_marker_styles) with 3%nat in H01, H02, H12.
  change (0 mod 3)%nat with 0%nat in *. change (1 mod 3)%nat with 1%nat in *.
  change (2 mod 3)%nat with 2%nat in *.
  destruct (n mod 3)%nat as [|[|[|i]]], (m mod 3)%nat as [|[|[|j]]]; try lia;
    intros E; try reflexivity; exfalso; auto.
Qed.

Lemma firstn_seq_le (n : nat) :
  forall start len, (n <= len)%nat -> firstn n (seq start len) = seq start n.
Proof.
  induction n as [|n IH]; intros start len H; [reflexivity|].
  destruct len as [|len]; [lia|]. cbn [seq firstn]. f_equal. apply IH. lia.
Qed.

Lemma labels_of_series (list_sort : list key_object -> list key_object)
    (all_scenarios : scenarios) :
  forall start,
    map plot_label (all_series list_sort start all_scenarios)
    = map legend_name (map fst all_scenarios)
    /\ map plot_style (all_series list_sort start all_scenarios)
       = map next_style (seq start (List.length all_scenarios)).
Proof.
  unfold all_series.
  induction all_scenarios as [|[name scenario] rest IH]; intros start; [split; reflexivity|].
  cbn [List.length seq combine map fst snd]. destruct (IH (S start)) as [-> ->].
  split; reflexivity.
Qed.

Lemma legend_of_generated_name_witness :
  legend_name "TPC Count vs. Performance with mps" = legend_name "mps"
  /\ ("mps" = "mps" -> legend_name "TPC Count vs. Performance with mps" = "MPS")
  /\ ("mps" = "mig" -> legend_name "TPC Count vs. Performance with mps" = "MiG")
  /\ (lower "mps" = "libsmctrl" -> legend_name "TPC Count vs. Performance with mps" = "nvsplit")
  /\ (lower "mps" = "mps" -> "mps" <> "mps" ->
      legend_name "TPC Count vs. Performance with mps" = "nvsplit")
  /\ (lower "mps" = "mig" -> "mps" <> "mig" ->
      legend_name "TPC Count vs. Performance with mps" = "nvsplit").
Proof.
  apply (legend_of_generated_name 0 100 "mps" "TPC Count vs. Performance with mps" []).
  reflexivity.
Defined.

Lemma padding_keeps_bounds_witness :
  exists top left right,
    add_plot_padding example_matplotlib []
    = invoke_all example_matplotlib
        [SetYScale "log"; SetYLim (B64.Fin 1) top; SetXLim left right] []
    /\ B64.leb (B64.Fin 10) top = true
    /\ B64.leb left (B64.Fin 7) = true
    /\ B64.leb (B64.Fin 49) right = true
    /\ (raises example_matplotlib [] (SetYScale "log") = None ->
        raises example_matplotlib ([] ++ [SetYScale "log"]) (SetYLim (B64.Fin 1) top) = None ->
        raises example_matplotlib
          (([] ++ [SetYScale "log"]) ++ [SetYLim (B64.Fin 1) top]) (SetXLim left right)
        = None ->
        add_plot_padding example_matplotlib []
        = (Ok tt,
           ([] ++ [SetYScale "log"; SetYLim (B64.Fin 1) top; SetXLim left right])%list)).
Proof.
  apply (padding_keeps_bounds example_matplotlib [] 1 10 7 49).
  - reflexivity.
  - reflexivity.
  - vm_compute. reflexivity.
  - vm_compute. reflexivity.
  - vm_compute. reflexivity.
  - vm_compute. discriminate.
  - vm_compute. discriminate.
Defined.

End PlotFacts.

(* -------------------------------------------------------------------------- *)
(** ** The viewer from the command line to the figure *)

Module ViewerFacts.
Import Py Run Scatter ScatterFacts Plot Viewer.

Lemma expand_missing (fs : filesystem) (before after : list string) (bad : string) :
  forall filenames,
    (forall path, In path before -> ~ missing fs path) ->
    missing fs bad ->
    expand fs (before ++ bad :: after) filenames
    = (Raise (SystemExit 1),
       ["Input path '" ++ bad ++ "' not found as valid file or directory."]).
Proof.
  induction before as [|f before IH]; intros filenames Hb [Hd Hf].
  - cbn. now rewrite Hd, Hf.
  - cbn [app expand].
    assert (Hok : ~ missing fs f) by (apply Hb; now left).
    assert (Hrest : forall path, In path before -> ~ missing fs path)
      by (intros p Hp; apply Hb; now right).
    unfold missing in Hok.
    destruct (isdir fs f); [apply IH; [exact Hrest|now split]|].
    destruct (isfile fs f); [apply IH; [exact Hrest|now split]|].
    exfalso. apply Hok. now split.
Qed.

Lemma expand_found (fs : filesystem) (paths : list string) :
  forall filenames,
    (forall path, In path paths -> ~ missing fs path) ->
    expand fs paths filenames
    = (Ok (filenames
           ++ flat_map (fun f => if isdir fs f then glob fs (f ++ "/*.json") else [f]) paths)%list,
       []).
Proof.
  induction paths as [|f paths IH]; intros filenames H.
  - cbn. now rewrite app_nil_r.
  - cbn [expand flat_map].
    assert (Hok : ~ missing fs f) by (apply H; now left). unfold missing in Hok.
    destruct (isdir fs f).
    + rewrite IH by (intros p Hp; apply H; now right). now rewrite <- app_assoc.
    + destruct (isfile fs f); [|exfalso; apply Hok; now split].
      rewrite IH by (intros p Hp; apply H; now right). now rewrite <- app_assoc.
Qed.

Section Library.
Variable float_of_str : string -> option B64.t.
Variable numpy_mean : list B64.t -> B64.t.
Variable list_sort : list key_object -> list key_object.
Hypothesis sort_permutes : forall l, Permutation l (list_sort l).

(** X22.  When a positional argument is neither a directory nor a file,
    the viewer exits with status 1 at the first such argument, having
    printed one line about it on standard error.  Nothing is printed on
    standard output, no file is read and no figure is made, whatever the
    arguments before and after it name. *)
Theorem missing_path_exits (fs : filesystem) (mpl : matplotlib) (a : args)
    (before after : list string) (bad : string) :
  result_file_to_plot a = (before ++ bad :: after)%list ->
  (forall path, In path before -> ~ missing fs path) ->
  missing fs bad ->
  main float_of_str numpy_mean list_sort fs mpl a
  = {| outcome := Raise (SystemExit 1);
       stdout := [];
       stderr := ["Input path '" ++ bad ++ "' not found as valid file or directory."];
       drawn := [] |}.
Proof.
  intros Hp Hb Hm. unfold main. rewrite Hp.
  now rewrite (expand_missing fs before after bad [] Hb Hm).
Qed.

(** X23.  From the command line to the legend.  When every positional
    argument exists, the files read are the arguments in order, a
    directory standing for what the glob of its [*.json] files returns.
    When the file loop then ends normally and the figure size can be
    computed, the viewer has printed what the file loop printed and
    nothing on standard error, and it fails only with the exception of
    a call into matplotlib, made last.  The series it draws come in
    the order in which the scenario names first contribute among the
    files, each under the legend name of its scenario and in the style
    of its place in the cycle: one for every such name when the viewer
    ends normally, for the first of them otherwise. *)
Theorem legend_in_first_contribution_order (fs : filesystem) (mpl : matplotlib) (a : args)
    (final : scenarios) (out : list event) (dpi : Q) (h' w' : B64.t) :
  let filenames :=
    flat_map (fun f => if isdir fs f then glob fs (f ++ "/*.json") else [f])
      (result_file_to_plot a) in
  let files := map (fun name => (name, load fs name)) filenames in
  let names := first_seen (contributing_names float_of_str numpy_mean (times_key a) files) in
  (forall path, In path (result_file_to_plot a) -> ~ missing fs path) ->
  Scatter.show_plots float_of_str numpy_mean files (times_key a) [] = (Ok final, out) ->
  figure_dpi mpl = B64.Fin dpi -> ~ (dpi == 0)%Q ->
  B64.of_int (width a) = Ok w' -> B64.of_int (height a) = Ok h' ->
  let r := main float_of_str numpy_mean list_sort fs mpl a in
  stdout r = out /\ stderr r = []
  /\ (forall e, outcome r = Raise e -> raised mpl (drawn r) e)
  /\ exists n,
      (n <= List.length names)%nat
      /\ (outcome r = Ok tt -> n = List.length names)
      /\ map plot_label (plotted (drawn r)) = map legend_name (firstn n names)
      /\ map plot_style (plotted (drawn r)) = map next_style (seq 0 n).
Proof.
  intros filenames files names Hpaths Hrun Hdpi Hnz Hw Hh r.
  assert (Hfinal : final = accumulate float_of_str numpy_mean (times_key a) files []).
  { unfold Scatter.show_plots in Hrun. now apply parse_files_ok in Hrun. }
  assert (Hwk : well_keyed final).
  { rewrite Hfinal. apply accumulate_well_keyed, well_keyed_nil. }
  assert (Hkeys : map fst final = names).
  { rewrite Hfinal, AggregatorFacts.accumulate_keys, AggregatorFacts.first_seen_fold.
    cbn [map app existsb negb].
    unfold names. clear. induction (first_seen _) as [|n l IH]; [reflexivity|].
    cbn. now rewrite IH. }
  assert (Hlen : List.length final = List.length names)
    by (now rewrite <- Hkeys, length_map).
  destruct (PlotFacts.follows_draw list_sort sort_permutes mpl final (height a) (width a)
              dpi h' w' Hwk Hdpi Hnz Hw Hh) as (r0 & calls & n & Hd & Hn & Hp & Hok & Hraise).
  assert (Hall : List.length (all_series list_sort 0 final) = List.length names).
  { unfold all_series. now rewrite length_map, length_combine, length_seq, Nat.min_id. }
  rewrite Hall in Hn, Hok.
  assert (Hr : r = {| outcome := r0; stdout := out; stderr := []; drawn := calls |}).
  { unfold r, main. rewrite (expand_found fs (result_file_to_plot a) [] Hpaths).
    cbn [app]. fold filenames. unfold show_plots. fold files. rewrite Hrun, Hd. reflexivity. }
  rewrite Hr. cbn [outcome stdout stderr drawn].
  split; [reflexivity|]. split; [reflexivity|]. split; [exact Hraise|].
  exists n. split; [exact Hn|]. split; [exact Hok|].
  rewrite Hp. cbn [plotted filter app].
  destruct (PlotFacts.labels_of_series list_sort final 0) as [Hl Hs]. split.
  - rewrite <- firstn_map, Hl, Hkeys. apply firstn_map.
  - rewrite <- firstn_map, Hs, Hlen, firstn_map.
    now rewrite (PlotFacts.firstn_seq_le n 0 _ Hn).
Qed.

End Library.

Lemma missing_path_exits_witness :
  main float_of_decimal mean_sequential insertion_sort example_filesystem example_matplotlib
    {| times_key := "execute_times"; height := 400; width := 600;
       result_file_to_plot := ["./results"; "./elsewhere"; "./results"] |}
  = {| outcome := Raise (SystemExit 1);
       stdout := [];
       stderr := ["Input path './elsewhere' not found as valid file or directory."];
       drawn := [] |}.
Proof.
  apply (missing_path_exits float_of_decimal mean_sequential insertion_sort
           example_filesystem example_matplotlib
           {| times_key := "execute_times"; height := 400; width := 600;
              result_file_to_plot := ["./results"; "./elsewhere"; "./results"] |}
           ["./results"] ["./results"] "./elsewhere").
  - reflexivity.
  - intros path [<-|[]] [Hd _]. discriminate Hd.
  - split; reflexivity.
Defined.

Lemma legend_in_first_contribution_order_witness :
  let a := {| times_key := "execute_times"; height := 400; width := 600;
              result_file_to_plot := ["./results"] |} in
  let files := map (fun name => (name, load example_filesystem name))
                 ["./results/a.json"; "./results/b.json"; "./results/c.json"] in
  let names := first_seen (contributing_names float_of_decimal mean_sequential
                             "execute_times" files) in
  let r := main float_of_decimal mean_sequential insertion_sort example_filesystem
             example_matplotlib a in
  stdout r = snd (Scatter.show_plots float_of_decimal mean_sequential files
                    "execute_times" [])
  /\ stderr r = []
  /\ (forall e, outcome r = Raise e -> raised example_matplotlib (drawn r) e)
  /\ exists n,
      (n <= List.length names)%nat
      /\ (outcome r = Ok tt -> n = List.length names)
      /\ map plot_label (plotted (drawn r)) = map legend_name (firstn n names)
      /\ map plot_style (plotted (drawn r)) = map next_style (seq 0 n).
Proof.
  intros a files names.
  apply (legend_in_first_contribution_order float_of_decimal mean_sequential insertion_sort
           PlotFacts.insertion_sort_permutes example_filesystem example_matplotlib a
           (accumulate float_of_decimal mean_sequential "execute_times" files [])
           (snd (Scatter.show_plots float_of_decimal mean_sequential files
                   "execute_times" []))
           100 (B64.Fin 400) (B64.Fin 600)).
  - intros path [<-|[]] [Hd _]. discriminate Hd.
  - vm_compute. reflexivity.
  - reflexivity.
  - discriminate.
  - vm_compute. reflexivity.
  - vm_compute. reflexivity.
Defined.

(** The example directory at the default size: two series, the
    scenario of the first file first.  At a height of -5 pixels the
    figure is refused and nothing is plotted. *)
Example main_examples :
  let run h :=
    main float_of_decimal mean_sequential insertion_sort example_filesystem
      example_matplotlib
      {| times_key := "execute_times"; height := h; width := 600;
         result_file_to_plot := ["./results"] |} in
  outcome (run 400) = Ok tt
  /\ map plot_label (plotted (drawn (run 400))) = ["nvsplit"; "MPS"]
  /\ outcome (run (-5)) = Raise ValueError
  /\ plotted (drawn (run (-5))) = [].
Proof. repeat split; vm_compute; reflexivity. Qed.

End ViewerFacts.
